(** * labe: the citation-fusion servers [ckit] and [spindel]

    A shallow embedding of the two request handlers of the repository
    (package [ckit], the current server, and package [spindel], its
    predecessor under [tools/]) together with the helpers they call, and
    the properties of the specification stated over them. *)

From Stdlib Require Import ZArith Ascii String List Lia Floats Uint63.
From stdpp Require Import base option list strings pretty gmap sets.

Open Scope string_scope.
Open Scope list_scope.
Open Scope Z_scope.

(** ** Go base types *)

(** [[]byte]: a byte sequence. *)
Definition bytes : Type := list ascii.

Definition bytes_of (s : string) : bytes := list_ascii_of_string s.

(** Go's [int] is 64 bits wide on the platforms the server runs on. *)
Definition wrap64 (z : Z) : Z := (z + 2 ^ 63) mod 2 ^ 64 - 2 ^ 63.

Definition len {A : Type} (l : list A) : Z := Z.of_nat (length l).

(** How a Go call ends: it returns a value, it panics, or (for a loop
    that is unrolled with fuel) the unrolling was too short. *)
Inductive outcome (A : Type) : Type :=
| Done (a : A)
| Panic (msg : string)
| OutOfFuel.
Arguments Done {A} a.
Arguments Panic {A} msg.
Arguments OutOfFuel {A}.

(** [ss[b:]]: panics unless [0 <= b <= len(ss)]. *)
Definition slice_from {A : Type} (ss : list A) (b : Z) : option (list A) :=
  if (0 <=? b) && (b <=? len ss) then Some (drop (Z.to_nat b) ss) else None.

(** [ss[b:e]]: panics unless [0 <= b <= e <= len(ss)] (the slices handed
    to [batchedStrings] have their capacity equal to their length). *)
Definition slice {A : Type} (ss : list A) (b e : Z) : option (list A) :=
  if (0 <=? b) && (b <=? e) && (e <=? len ss)
  then Some (take (Z.to_nat (e - b)) (drop (Z.to_nat b) ss))
  else None.

(** The double quote, for the byte strings that contain one. *)
Definition dq : string := String "034"%char EmptyString.
Definition newline : bytes := ["010"%char].

(** ** Errors *)

(** Go [error] values, as far as the handlers tell them apart: the four
    sentinel values they compare against, any other error value, and an
    error that wraps another one ([fmt.Errorf] with [%w]). An error built
    with [%v] is a fresh value that wraps nothing: [Opaque]. *)
Inductive error : Type :=
| ErrNoRows
| Canceled
| ErrBlobNotFound
| ErrReadOnly
| Opaque (msg : string)
| Wrapped (msg : string) (inner : error).

#[global] Instance error_eq_dec : EqDecision error.
Proof. solve_decision. Defined.

(** [errors.Is(err, target)] for a sentinel [target]. *)
Fixpoint errors_Is (err target : error) : bool :=
  if bool_decide (err = target) then true
  else match err with
       | Wrapped _ inner => errors_Is inner target
       | _ => false
       end.

(** [Duration.Seconds()]: a duration in nanoseconds as floating-point
    seconds. *)
Definition float_of_Z (z : Z) : float :=
  if z <? 0 then PrimFloat.opp (PrimFloat.of_uint63 (Uint63.of_Z (- z)))
  else PrimFloat.of_uint63 (Uint63.of_Z z).

Definition Seconds (d : Z) : float :=
  PrimFloat.add (float_of_Z (Z.quot d 1000000000))
                (PrimFloat.div (float_of_Z (Z.rem d 1000000000)) 1e9%float).

(** ** The key-value tables *)

(** [Map] is the row shape of both tables (the same struct in both
    packages). *)
Record Map : Type := { Key : string; Value : string }.

#[global] Instance Map_eq_dec : EqDecision Map.
Proof. solve_decision. Defined.

(** The SQL statements the servers send. *)
Inductive query : Type :=
| SelectVWhereK (k : string)          (* SELECT v FROM map WHERE k = ? *)
| SelectKWhereV (v : string)          (* SELECT k FROM map WHERE v = ? *)
| SelectAllWhereK (k : string)        (* SELECT * FROM map WHERE k = ? *)
| SelectAllWhereV (v : string)        (* SELECT * FROM map WHERE v = ? *)
| SelectAllWhereVIn (vs : list string). (* SELECT * FROM map WHERE v IN (?) *)

(** A [*sqlx.DB]: the rows of its [map] table and, for each statement,
    the error its execution ends with if it fails (the request context
    was cancelled, the file is unreadable, ...). *)
Record DB : Type := { table : list Map; fault : query → option error }.

Definition selects (q : query) (r : Map) : bool :=
  match q with
  | SelectVWhereK k | SelectAllWhereK k => bool_decide (Key r = k)
  | SelectKWhereV v | SelectAllWhereV v => bool_decide (Value r = v)
  | SelectAllWhereVIn vs => bool_decide (Value r ∈ vs)
  end.

(** [db.SelectContext(ctx, &dest, q, ...)]: all selected rows, in table
    order. *)
Definition SelectContext (db : DB) (q : query) : error + list Map :=
  match fault db q with
  | Some err => inl err
  | None => inr (List.filter (selects q) (table db))
  end.

(** [db.GetContext(ctx, &dest, q, ...)] for a one-column statement: the
    column of the first selected row, [sql.ErrNoRows] when there is none. *)
Definition GetContext (db : DB) (q : query) : error + string :=
  match fault db q with
  | Some err => inl err
  | None =>
      match List.filter (selects q) (table db) with
      | [] => inl ErrNoRows
      | r :: _ =>
          inr (match q with SelectKWhereV _ => Key r | _ => Value r end)
      end
  end.

(** [Fetcher]: the blob store, [Fetch(key)]. *)
Definition Fetcher : Type := string → error + bytes.

(** ** Package set *)

(** Modelled from the spec: package [set] (a string set, Go's
    [map[string]struct{}]) is not among the sources; section 4.1 gives its
    operations. The sets are [gset string], and the operations are written
    with the names the handlers call them by. *)
Module set.
Abbreviation New := (∅ : gset string).
Abbreviation Add x s := ({[x]} ∪ s).
Abbreviation Contains s x := (bool_decide (x ∈ s)).
Abbreviation Union s t := (s ∪ t).
Abbreviation Difference s t := (s ∖ t).
Abbreviation IsEmpty s := (bool_decide (s = ∅)).
Abbreviation FromSlice l := (list_to_set l).
End set.

(** Go leaves the iteration order of a map open: [Slice()] and [range]
    enumerate the members in some order, each once. *)
Record iteration : Type := {
  iter :> gset string → list string;
  iter_perm : ∀ s, iter s ≡ₚ elements s
}.

(** ** The response writer *)

(** An [http.ResponseWriter] that records what the handler sends: the
    header map, the status line once it is written, and the body. Writes
    to it do not fail. *)
Record ResponseWriter : Type := {
  header : list (string * string);
  status : option Z;
  body : bytes
}.

Definition new_writer : ResponseWriter :=
  {| header := []; status := None; body := [] |}.

Definition Header_Add (k v : string) (w : ResponseWriter) : ResponseWriter :=
  {| header := header w ++ [(k, v)]; status := status w; body := body w |}.

Definition Header_Set (k v : string) (w : ResponseWriter) : ResponseWriter :=
  {| header := List.filter (λ kv, negb (String.eqb (fst kv) k)) (header w) ++ [(k, v)];
     status := status w; body := body w |}.

(** [w.WriteHeader(code)]: the first status wins. *)
Definition WriteHeader (code : Z) (w : ResponseWriter) : ResponseWriter :=
  match status w with
  | Some _ => w
  | None => {| header := header w; status := Some code; body := body w |}
  end.

(** [w.Write(b)]: sends status 200 first if none was sent. *)
Definition Write (b : bytes) (w : ResponseWriter) : ResponseWriter :=
  let w' := WriteHeader 200 w in
  {| header := header w'; status := status w'; body := body w' ++ b |}.

(** [http.Error(w, msg, code)]. *)
Definition http_Error (msg : bytes) (code : Z) (w : ResponseWriter) : ResponseWriter :=
  Write (msg ++ newline)
    (WriteHeader code
       (Header_Set "X-Content-Type-Options" "nosniff"
          (Header_Set "Content-Type" "text/plain; charset=utf-8" w))).

Definition StatusNotFound : Z := 404.
Definition StatusInternalServerError : Z := 500.
Definition StatusTemporaryRedirect : Z := 307.

(** What [http.Redirect] computes from its arguments besides the header
    it sets. *)
Record Redirects : Type := {
  (* the target as it goes into the Location header: the path cleaned,
     the bytes outside ASCII escaped *)
  Location : string → string;
  (* the HTML text that links to the target, for a status *)
  snippet : string → Z → bytes
}.

Definition has_header (k : string) (w : ResponseWriter) : bool :=
  existsb (λ kv, String.eqb (fst kv) k) (header w).

(** [http.Redirect(w, r, url, code)] for a target that starts with a
    slash: the Location header and the status; the HTML text only when
    the header had no Content-Type and the method is GET. *)
Definition http_Redirect (N : Redirects) (method url : string) (code : Z)
    (w : ResponseWriter) : ResponseWriter :=
  let hadCT := has_header "Content-Type" w in
  let w1 := Header_Set "Location" (Location N url) w in
  let w2 :=
    if negb hadCT && (String.eqb method "GET" || String.eqb method "HEAD")
    then Header_Set "Content-Type" "text/html; charset=utf-8" w1
    else w1 in
  let w3 := WriteHeader code w2 in
  if negb hadCT && String.eqb method "GET"
  then Write (snippet N url code ++ newline) w3
  else w3.

(** A request to [/id/{id}]: the path variable and the query parameter
    [i]. Its context shows in the [fault] of the stores. *)
Record Request : Type := { req_id : string; req_i : string }.

(** A request to [/doi/{doi}]: the path variable and the method. *)
Record DOIRequest : Type := { req_doi : string; req_method : string }.

(** How a handler run ends. *)
Inductive result (A : Type) : Type :=
| Ok (a : A)         (* control goes on *)
| Returned           (* the handler executed [return] *)
| Panicked (msg : string)
| Diverged.          (* a loop ran out of fuel *)
Arguments Ok {A} a.
Arguments Returned {A}.
Arguments Panicked {A} msg.
Arguments Diverged {A}.

(** A computation of a handler over the state [S]. *)
Definition Run (S A : Type) : Type := S → result A * S.

Definition ret {S A : Type} (a : A) : Run S A := λ st, (Ok a, st).

Definition bind {S A B : Type} (m : Run S A) (f : A → Run S B) : Run S B := λ st,
  match m st with
  | (Ok a, st') => f a st'
  | (Returned, st') => (Returned, st')
  | (Panicked msg, st') => (Panicked msg, st')
  | (Diverged, st') => (Diverged, st')
  end.

#[global] Instance Run_ret {S : Type} : MRet (Run S) := @ret S.
#[global] Instance Run_bind {S : Type} : MBind (Run S) := λ A B f m, bind m f.

(** [return] in the handler, [panic], and a loop out of fuel. *)
Definition return_ {S A : Type} : Run S A := λ st, (Returned, st).
Definition panic {S A : Type} (msg : string) : Run S A := λ st, (Panicked msg, st).
Definition diverge {S A : Type} : Run S A := λ st, (Diverged, st).

(** [err.Error()] *)
Fixpoint Error_text (err : error) : string :=
  match err with
  | ErrNoRows => "sql: no rows in result set"
  | Canceled => "context canceled"
  | ErrBlobNotFound => "blob not found"
  | ErrReadOnly => "read only"
  | Opaque msg => msg
  | Wrapped msg inner => msg ++ ": " ++ Error_text inner
  end.

(** * Package ckit *)

Module ckit.

(** ** Data *)

(** [Snippet]: the part of a blob the institution filter reads. *)
Record Snippet : Type := { Institution : list string }.

Record Unmatched_t : Type := {
  Unmatched_Citing : list bytes;
  Unmatched_Cited : list bytes
}.

Record Extra_t : Type := {
  UnmatchedCitingCount : Z;
  UnmatchedCitedCount : Z;
  CitingCount : Z;
  CitedCount : Z;
  Cached : bool;
  Took : float;
  Extra_Institution : string
}.

Record Response : Type := {
  ID : string;
  DOI : string;
  Citing : list bytes;
  Cited : list bytes;
  Unmatched : Unmatched_t;
  Extra : Extra_t
}.

(** [&Response{ID: id}] *)
Definition new_Response (id : string) : Response :=
  {| ID := id; DOI := ""; Citing := []; Cited := [];
     Unmatched := {| Unmatched_Citing := []; Unmatched_Cited := [] |};
     Extra := {| UnmatchedCitingCount := 0; UnmatchedCitedCount := 0;
                 CitingCount := 0; CitedCount := 0; Cached := false;
                 Took := 0%float; Extra_Institution := "" |} |}.

Definition set_DOI (v : string) (r : Response) : Response :=
  {| ID := ID r; DOI := v; Citing := Citing r; Cited := Cited r;
     Unmatched := Unmatched r; Extra := Extra r |}.

Definition set_Citing (v : list bytes) (r : Response) : Response :=
  {| ID := ID r; DOI := DOI r; Citing := v; Cited := Cited r;
     Unmatched := Unmatched r; Extra := Extra r |}.

Definition set_Cited (v : list bytes) (r : Response) : Response :=
  {| ID := ID r; DOI := DOI r; Citing := Citing r; Cited := v;
     Unmatched := Unmatched r; Extra := Extra r |}.

Definition set_Unmatched_Citing (v : list bytes) (r : Response) : Response :=
  {| ID := ID r; DOI := DOI r; Citing := Citing r; Cited := Cited r;
     Unmatched := {| Unmatched_Citing := v;
                     Unmatched_Cited := Unmatched_Cited (Unmatched r) |};
     Extra := Extra r |}.

Definition set_Unmatched_Cited (v : list bytes) (r : Response) : Response :=
  {| ID := ID r; DOI := DOI r; Citing := Citing r; Cited := Cited r;
     Unmatched := {| Unmatched_Citing := Unmatched_Citing (Unmatched r);
                     Unmatched_Cited := v |};
     Extra := Extra r |}.

Definition set_Extra (v : Extra_t) (r : Response) : Response :=
  {| ID := ID r; DOI := DOI r; Citing := Citing r; Cited := Cited r;
     Unmatched := Unmatched r; Extra := v |}.

Definition set_Cached (v : bool) (r : Response) : Response :=
  let e := Extra r in
  set_Extra {| UnmatchedCitingCount := UnmatchedCitingCount e;
               UnmatchedCitedCount := UnmatchedCitedCount e;
               CitingCount := CitingCount e; CitedCount := CitedCount e;
               Cached := v; Took := Took e;
               Extra_Institution := Extra_Institution e |} r.

Definition set_Took (v : float) (r : Response) : Response :=
  let e := Extra r in
  set_Extra {| UnmatchedCitingCount := UnmatchedCitingCount e;
               UnmatchedCitedCount := UnmatchedCitedCount e;
               CitingCount := CitingCount e; CitedCount := CitedCount e;
               Cached := Cached e; Took := v;
               Extra_Institution := Extra_Institution e |} r.

Definition set_Extra_Institution (v : string) (r : Response) : Response :=
  let e := Extra r in
  set_Extra {| UnmatchedCitingCount := UnmatchedCitingCount e;
               UnmatchedCitedCount := UnmatchedCitedCount e;
               CitingCount := CitingCount e; CitedCount := CitedCount e;
               Cached := Cached e; Took := Took e;
               Extra_Institution := v |} r.

(** ** The server and its collaborators *)

(** Modelled from the spec: package [cache] is not among the sources;
    section 4.5 gives its operations. A byte-keyed store that may be
    read-only and whose [Set] may fail otherwise. *)
Record Cache : Type := {
  store : gmap string bytes;
  readonly : bool;
  set_fault : option error
}.

Definition Cache_Get (c : Cache) (k : string) : error + bytes :=
  match store c !! k with
  | Some b => inr b
  | None => inl ErrNoRows
  end.

Definition Cache_Set (c : Cache) (k : string) (v : bytes) : Cache * option error :=
  if readonly c then (c, Some ErrReadOnly)
  else match set_fault c with
       | Some err => (c, Some err)
       | None => ({| store := <[k:=v]> (store c); readonly := readonly c;
                     set_fault := set_fault c |}, None)
       end.

(** The fields of [Server] a request reads. The [Cache] field points to
    a store the handler writes: it is part of [State] below. *)
Record Server : Type := {
  IdentifierDatabase : DB;
  OciDatabase : DB;
  IndexData : Fetcher;
  CacheTriggerDuration : Z
}.

(** What [time.Since(started)] returns, in nanoseconds, at the three
    places the handler calls it. *)
Record Clock : Type := {
  since_cache_hit : Z;
  since_finalize : Z;
  since_cache_trigger : Z
}.

(** What the JSON text of a blob says about its [institution] key:
    [None] when the text has no such key, [Some l] when it has one with
    the strings [l] ([null] is [Some []]). *)
Definition institution_key : Type := option (list string).

(** The libraries the package calls, each by what it returns. *)
Record Libs : Type := {
  (* sqlx.In("... IN (?)", batch): refuses the batch or builds the statement *)
  sqlx_In : list string → option error;
  (* encoding/json reading a blob as a Snippet *)
  json_institution : bytes → error + institution_key;
  (* json.Marshal of a Response *)
  json_Marshal : Response → error + bytes;
  (* json.NewDecoder(r).Decode(&resp) on the bytes r yields *)
  json_Decode : bytes → error + Response;
  (* json.Marshal(&ErrorMessage{status, err}) *)
  json_ErrorMessage : Z → error → error + bytes;
  zstd_NewReader : option error;
  (* reading a zstd reader over b to its end: the text, or the error the
     read ends with *)
  zstd_read : bytes → error + bytes;
  (* for a read of b that ends with an error: the bytes that came through
     the replacer for the took text before it *)
  replaced_before : bytes → bytes → bytes;
  (* json.NewDecoder(r).Decode(&resp) on a reader that yields the bytes and
     then fails with the error *)
  json_Decode_failing : bytes → error → error + Response;
  zstd_NewWriter : option error;
  (* the buffer after writing the bytes to a zstd writer and closing it *)
  zstd_Close : bytes → error + bytes;
  (* fmt: the verbs %q and %f *)
  Sprintf_q : string → string;
  Sprintf_f : float → string;
  (* the order in which Slice() and range enumerate a set *)
  Slice_order : iteration;
  range_order : iteration
}.

(** [json.Unmarshal(b, v)] into a [*Snippet]: a key the text does not
    have leaves the field of [v] as it was. *)
Definition json_Unmarshal (L : Libs) (b : bytes) (v : Snippet) : error + Snippet :=
  match json_institution L b with
  | inl err => inl err
  | inr None => inr v
  | inr (Some l) => inr {| Institution := l |}
  end.

(** What the handler may observe or change besides its own variables. *)
Inductive event : Type :=
| EvSqlxIn (batch : list string)      (* sqlx.In called on a batch *)
| EvSelectIn (batch : list string)    (* the IN statement sent to the identifier table *)
| EvCacheSet (k : string) (v : bytes) (* Cache.Set called *)
| EvFilter (isil : string)            (* applyInstitutionFilter called *)
| EvMarshal (r : Response).           (* the response handed to the JSON encoder *)

Record State : Type := {
  w : ResponseWriter;
  cache : option Cache;          (* s.Cache; nil is None *)
  snippetPool : list Snippet;    (* the Snippets put back into the pool *)
  trace : list event
}.

(** The handler's computations. *)
Abbreviation M := (Run State).

Definition modify_w (f : ResponseWriter → ResponseWriter) : M unit := λ st,
  (Ok tt, {| w := f (w st); cache := cache st;
             snippetPool := snippetPool st; trace := trace st |}).

Definition emit (ev : event) : M unit := λ st,
  (Ok tt, {| w := w st; cache := cache st;
             snippetPool := snippetPool st; trace := trace st ++ [ev] |}).

(** [snippetPool.Get()]: a pooled Snippet as it was put back,
    a new one when the pool is empty. *)
Definition snippetPool_Get : M Snippet := λ st,
  match snippetPool st with
  | v :: pool => (Ok v, {| w := w st; cache := cache st;
                           snippetPool := pool; trace := trace st |})
  | [] => (Ok {| Institution := [] |}, st)
  end.

Definition snippetPool_Put (v : Snippet) : M unit := λ st,
  (Ok tt, {| w := w st; cache := cache st;
             snippetPool := v :: snippetPool st; trace := trace st |}).

(** ** Helpers *)

(** [sliceContains] *)
Fixpoint sliceContains (ss : list string) (v : string) : bool :=
  match ss with
  | [] => false
  | s :: ss' => if String.eqb v s then true else sliceContains ss' v
  end.

(** [updateCounts] *)
Definition updateCounts (r : Response) : Response :=
  let e := Extra r in
  set_Extra {| UnmatchedCitingCount := len (Unmatched_Citing (Unmatched r));
               UnmatchedCitedCount := len (Unmatched_Cited (Unmatched r));
               CitingCount := len (Citing r);
               CitedCount := len (Cited r);
               Cached := Cached e; Took := Took e;
               Extra_Institution := Extra_Institution e |} r.

(** [httpErrLog] *)
Definition httpErrLog (L : Libs) (status : Z) (err : error) : M unit :=
  match json_ErrorMessage L status err with
  | inl err' => modify_w (http_Error (bytes_of (Error_text err')) StatusInternalServerError)
  | inr b => modify_w (http_Error b status)
  end.

(** [httpErrLogf]: every call formats one error with [%w]. *)
Definition httpErrLogf (L : Libs) (status : Z) (s : string) (err : error) : M unit :=
  httpErrLog L status (Wrapped s err).

(** ** The institution filter *)

(** The first loop of [applyInstitutionFilter]: [citing] is the local
    slice, [r] the response whose [Unmatched.Citing] grows. *)
Fixpoint filterCiting (L : Libs) (institution : string) (bs : list bytes)
    (citing : list bytes) (r : Response) : M (list bytes * Response) :=
  match bs with
  | [] => mret (citing, r)
  | b :: bs' =>
      v ← snippetPool_Get;
      match json_Unmarshal L b v with
      | inl err => panic "internal data broken"
      | inr v' =>
          if sliceContains (Institution v') institution
          then snippetPool_Put v';; filterCiting L institution bs' (citing ++ [b]) r
          else snippetPool_Put v';;
               filterCiting L institution bs' citing
                 (set_Unmatched_Citing (Unmatched_Citing (Unmatched r) ++ [b]) r)
      end
  end.

(** The second loop. *)
Fixpoint filterCited (L : Libs) (institution : string) (bs : list bytes)
    (cited : list bytes) (r : Response) : M (list bytes * Response) :=
  match bs with
  | [] => mret (cited, r)
  | b :: bs' =>
      v ← snippetPool_Get;
      match json_Unmarshal L b v with
      | inl err => panic "internal data broken"
      | inr v' =>
          if sliceContains (Institution v') institution
          then snippetPool_Put v';; filterCited L institution bs' (cited ++ [b]) r
          else snippetPool_Put v';;
               filterCited L institution bs' cited
                 (set_Unmatched_Cited (Unmatched_Cited (Unmatched r) ++ [b]) r)
      end
  end.

(** [applyInstitutionFilter] *)
Definition applyInstitutionFilter (L : Libs) (r : Response) (institution : string)
    : M Response :=
  emit (EvFilter institution);;
  '(citing, r1) ← filterCiting L institution (Citing r) [] r;
  '(cited, r2) ← filterCited L institution (Cited r1) [] r1;
  mret (set_Extra_Institution institution
          (updateCounts (set_Cited cited (set_Citing citing r2)))).

(** ** batchedStrings *)

(** The [for] loop of [batchedStrings]; [b], [e] and [result] are the
    loop variables. *)
Fixpoint batchedStrings_loop (fuel : nat) (ss : list string) (n b e : Z)
    (result : list (list string)) : outcome (list (list string)) :=
  match fuel with
  | O => OutOfFuel
  | S fuel' =>
      if len ss <=? e then
        match slice_from ss b with
        | Some s => Done (result ++ [s])
        | None => Panic "slice bounds out of range"
        end
      else
        match slice ss b e with
        | Some s => batchedStrings_loop fuel' ss n e (wrap64 (e + n)) (result ++ [s])
        | None => Panic "slice bounds out of range"
        end
  end.

(** One more round than there are elements is enough whenever [n >= 1]. *)
Definition batchedStrings (ss : list string) (n : Z) : outcome (list (list string)) :=
  batchedStrings_loop (S (length ss)) ss n 0 n [].

(** The longest [[]string] the Go runtime can allocate (2^48 bytes of
    16-byte string headers). *)
Definition max_strings : Z := 2 ^ 44.

(** ** The reverse mapping *)

(** The loop of [mapToLocal] over the batches. *)
Fixpoint mapToLocal_loop (L : Libs) (s : Server) (batches : list (list string))
    (ids : list Map) : M (error + list Map) :=
  match batches with
  | [] => mret (inr ids)
  | batch :: batches' =>
      emit (EvSqlxIn batch);;
      match sqlx_In L batch with
      | Some err => mret (inl (Opaque ("query: " ++ Error_text err)))
      | None =>
          emit (EvSelectIn batch);;
          match SelectContext (IdentifierDatabase s) (SelectAllWhereVIn batch) with
          | inl err => mret (inl (Opaque ("select: " ++ Error_text err)))
          | inr result => mapToLocal_loop L s batches' (ids ++ result)
          end
      end
  end.

(** [mapToLocal], with the local constant [size] as an argument. *)
Definition mapToLocal_sized (size : Z) (L : Libs) (s : Server) (dois : list string)
    : M (error + list Map) :=
  match batchedStrings dois size with
  | Done batches => mapToLocal_loop L s batches []
  | Panic msg => panic msg
  | OutOfFuel => diverge
  end.

Definition size : Z := 500.

(** [mapToLocal] *)
Definition mapToLocal (L : Libs) (s : Server) (dois : list string)
    : M (error + list Map) :=
  mapToLocal_sized size L s dois.

(** [edges] *)
Definition edges (s : Server) (doi : string) : error + (list Map * list Map) :=
  match SelectContext (OciDatabase s) (SelectAllWhereK doi) with
  | inl err => inl err
  | inr citing =>
      match SelectContext (OciDatabase s) (SelectAllWhereV doi) with
      | inl err => inl err
      | inr cited => inr (citing, cited)
      end
  end.

(** ** Rewriting the cached took value *)

(** The class [[0-9.]]. *)
Definition is_num (c : ascii) : bool :=
  let n := nat_of_ascii c in
  ((48 <=? n)%nat && (n <=? 57)%nat) || (n =? 46)%nat.

(** The fixed part of the pattern: a quote, [took], a quote, a colon. *)
Definition took_key : bytes := bytes_of (dq ++ "took" ++ dq ++ ":").

Fixpoint strip_prefix (p s : bytes) : option bytes :=
  match p, s with
  | [], _ => Some s
  | a :: p', c :: s' => if Ascii.eqb a c then strip_prefix p' s' else None
  | _ :: _, [] => None
  end.

Fixpoint num_run (s : bytes) : nat :=
  match s with
  | c :: s' => if is_num c then S (num_run s') else O
  | [] => O
  end.

(** The length of the match of the pattern at the start of [s], if there
    is one: the key and the longest run of [[0-9.]], at least one. *)
Definition match_len (s : bytes) : option nat :=
  match strip_prefix took_key s with
  | Some rest =>
      match num_run rest with
      | O => None
      | S k => Some (length took_key + S k)%nat
      end
  | None => None
  end.

(** [replace.RegexpString(re, new)] read to the end: every match, from
    the left, gives way to [new]; [skip] counts the bytes of the current
    match still to be dropped. *)
Fixpoint replace_all (new : bytes) (skip : nat) (s : bytes) : bytes :=
  match s with
  | [] => []
  | c :: s' =>
      match skip with
      | S k => replace_all new k s'
      | O =>
          match match_len s with
          | Some m => new ++ replace_all new (Nat.pred m) s'
          | None => c :: replace_all new O s'
          end
      end
  end.

Definition RegexpString_took (new : bytes) (s : bytes) : bytes :=
  replace_all new O s.

(** ** The handler of [/id/{id}] *)

Definition get_cache : M (option Cache) := λ st, (Ok (cache st), st).

(** [s.Cache.Set(k, v)] *)
Definition Cache_Set_M (k : string) (v : bytes) : M (option error) := λ st,
  match cache st with
  | Some c =>
      let '(c', err) := Cache_Set c k v in
      (Ok err, {| w := w st; cache := Some c'; snippetPool := snippetPool st;
                  trace := trace st ++ [EvCacheSet k v] |})
  | None => (Panicked "nil pointer dereference", st)
  end.

(** [json.NewEncoder(w).Encode(r)]: the JSON text and a newline. *)
Definition Encode (L : Libs) (r : Response) : M (option error) :=
  emit (EvMarshal r);;
  match json_Marshal L r with
  | inl err => mret (Some err)
  | inr b => modify_w (Write (b ++ newline));; mret None
  end.

(** [io.Copy(w, r)] for a reader that yields [data]. *)
Definition Copy (data : bytes) : M unit :=
  match data with
  | [] => mret tt
  | _ => modify_w (Write data)
  end.

(** [fmt.Sprintf] of the took pattern's replacement. *)
Definition took_text (L : Libs) (d : Z) : bytes :=
  took_key ++ bytes_of (Sprintf_f L (Seconds d)).

(** (0), the branch taken when [s.Cache.Get] returns no error. The
    replacer is a stream: when the read behind it fails, the part that
    came through before has reached its reader. *)
Definition serveCached (L : Libs) (clk : Clock) (isil : string) (b : bytes) : M unit :=
  match zstd_NewReader L with
  | Some err =>
      httpErrLogf L StatusInternalServerError "cache decompress" err;; return_
  | None =>
      let took := took_text L (since_cache_hit clk) in
      let replacer :=
        match zstd_read L b with
        | inl err => inl (replaced_before L took b, err)
        | inr data => inr (RegexpString_took took data)
        end in
      (if bool_decide (isil ≠ "") then
         match (match replacer with
                | inl (part, err) => json_Decode_failing L part err
                | inr data => json_Decode L data
                end) with
         | inl err =>
             httpErrLogf L StatusInternalServerError "cache json decode" err;; return_
         | inr resp =>
             resp' ← applyInstitutionFilter L resp isil;
             err ← Encode L resp';
             match err with
             | Some err =>
                 httpErrLogf L StatusInternalServerError "encode" err;; return_
             | None => mret tt
             end
         end
       else
         match replacer with
         | inl (part, err) =>
             Copy part;;
             httpErrLogf L StatusInternalServerError "cache copy" err;; return_
         | inr data => Copy data
         end);;
      return_
  end.

(** (0) *)
Definition cacheProbe (L : Libs) (clk : Clock) (id isil : string) : M unit :=
  c ← get_cache;
  match c with
  | Some c =>
      match Cache_Get c id with
      | inr b => serveCached L clk isil b
      | inl _ => mret tt
      end
  | None => mret tt
  end.

(** (1) *)
Definition resolveDOI (L : Libs) (s : Server) (id : string) : M string :=
  match GetContext (IdentifierDatabase s) (SelectVWhereK id) with
  | inl err =>
      (if bool_decide (err = ErrNoRows) then
         httpErrLogf L StatusNotFound "doi lookup" err
       else if bool_decide (err = Canceled) then mret tt
       else httpErrLogf L StatusInternalServerError "select id" err);;
      return_
  | inr doi => mret doi
  end.

(** (2) *)
Definition getEdges (L : Libs) (s : Server) (doi : string) : M (list Map * list Map) :=
  match edges s doi with
  | inl err =>
      (if bool_decide (err = Canceled) then mret tt
       else httpErrLogf L StatusInternalServerError "edges" err);;
      return_
  | inr ce => mret ce
  end.

(** (3): the two [Add] loops. *)
Definition collectOutbound (citing : list Map) : gset string :=
  foldl (λ acc v, set.Add (Value v) acc) set.New citing.

Definition collectInbound (cited : list Map) : gset string :=
  foldl (λ acc v, set.Add (Key v) acc) set.New cited.

(** (4) *)
Definition reverseMap (L : Libs) (s : Server) (ds : gset string) : M (list Map) :=
  r ← mapToLocal L s (Slice_order L ds);
  match r with
  | inl err =>
      (if bool_decide (err = Canceled) then mret tt
       else httpErrLogf L StatusInternalServerError "map" err);;
      return_
  | inr ids => mret ids
  end.

(** (5): the synthetic blob of an unmatched DOI. *)
Definition unmatchedBlob (L : Libs) (k : string) : bytes :=
  bytes_of ("{" ++ dq ++ "doi_str_mv" ++ dq ++ ": " ++ Sprintf_q L k ++ "}").

(** (5): the loop over [unmatchedSet], in the order [ks]. *)
Fixpoint recordUnmatched (L : Libs) (outbound inbound : gset string)
    (ks : list string) (response : Response) : M Response :=
  match ks with
  | [] => mret response
  | k :: ks' =>
      let b := unmatchedBlob L k in
      if set.Contains outbound k then
        recordUnmatched L outbound inbound ks'
          (set_Unmatched_Citing (Unmatched_Citing (Unmatched response) ++ [b]) response)
      else if set.Contains inbound k then
        recordUnmatched L outbound inbound ks'
          (set_Unmatched_Cited (Unmatched_Cited (Unmatched response) ++ [b]) response)
      else panic "cosmic rays detected (in-flight change of inbound or outbound values)"
  end.

(** (6): the loop over [ids]. *)
Fixpoint hydrate (L : Libs) (s : Server) (outbound inbound : gset string)
    (ids : list Map) (response : Response) : M Response :=
  match ids with
  | [] => mret response
  | v :: ids' =>
      match IndexData s (Key v) with
      | inl err =>
          if errors_Is err ErrBlobNotFound then
            hydrate L s outbound inbound ids' response
          else
            httpErrLogf L StatusInternalServerError "index data fetch" err;; return_
      | inr b =>
          if set.Contains outbound (Value v) then
            hydrate L s outbound inbound ids' (set_Citing (Citing response ++ [b]) response)
          else if set.Contains inbound (Value v) then
            hydrate L s outbound inbound ids' (set_Cited (Cited response ++ [b]) response)
          else hydrate L s outbound inbound ids' response
      end
  end.

(** (7): the closure [wrap]. *)
Definition wrap (L : Libs) (response : Response) : M (option error) :=
  match zstd_NewWriter L with
  | Some err => mret (Some (Wrapped "cache compress" err))
  | None =>
      emit (EvMarshal response);;
      match json_Marshal L response with
      | inl err => mret (Some (Wrapped "cache json encode" err))
      | inr b =>
          match zstd_Close L (b ++ newline) with
          | inl err => mret (Some (Wrapped "cache close" err))
          | inr z =>
              err ← Cache_Set_M (ID response) z;
              match err with
              | Some err =>
                  if bool_decide (err = ErrReadOnly) then mret None
                  else mret (Some (Opaque ("failed to cache value: " ++ Error_text err)))
              | None => mret None
              end
          end
      end
  end.

(** (7) *)
Definition cacheExpensive (L : Libs) (s : Server) (clk : Clock) (response : Response)
    : M Response :=
  c ← get_cache;
  if bool_decide (c ≠ None) && (CacheTriggerDuration s <? since_cache_trigger clk) then
    let response := set_Cached true response in
    err ← wrap L response;
    match err with
    | Some err => httpErrLog L StatusInternalServerError err;; return_
    | None => mret response
    end
  else mret response.

(** (8) and (9) *)
Definition filterAndSend (L : Libs) (isil : string) (response : Response) : M unit :=
  response ← (if bool_decide (isil ≠ "") then applyInstitutionFilter L response isil
              else mret response);
  err ← Encode L response;
  match err with
  | Some err => httpErrLogf L StatusInternalServerError "encode" err;; return_
  | None => mret tt
  end.

(** Steps (1) to (6) and the finalisation: the response as it stands
    before (7). *)
Definition assemble (L : Libs) (s : Server) (clk : Clock) (id : string) : M Response :=
  let response := new_Response id in
  doi ← resolveDOI L s (ID response);
  let response := set_DOI doi response in
  '(citing, cited) ← getEdges L s (DOI response);
  let outbound := collectOutbound citing in
  let inbound := collectInbound cited in
  let ds := set.Union outbound inbound in
  if set.IsEmpty ds then modify_w (WriteHeader StatusNotFound);; return_
  else
    ids ← reverseMap L s ds;
    let matched := foldl (λ acc v, acc ++ [Value v]) [] ids in
    let unmatchedSet := set.Difference ds (set.FromSlice matched) in
    response ← recordUnmatched L outbound inbound (range_order L unmatchedSet) response;
    response ← hydrate L s outbound inbound ids response;
    let response := updateCounts response in
    mret (set_Took (Seconds (since_finalize clk)) response).

(** [handleLocalIdentifier] *)
Definition handleLocalIdentifier (L : Libs) (s : Server) (clk : Clock) (r : Request)
    : M unit :=
  modify_w (Header_Add "Content-Type" "application/json");;
  cacheProbe L clk (req_id r) (req_i r);;
  response ← assemble L s clk (req_id r);
  response ← cacheExpensive L s clk response;
  filterAndSend L (req_i r) response.

(** A request served from a fresh writer. *)
Definition serve (L : Libs) (s : Server) (clk : Clock) (r : Request)
    (c : option Cache) (pool : list Snippet) : result unit * State :=
  handleLocalIdentifier L s clk r
    {| w := new_writer; cache := c; snippetPool := pool; trace := [] |}.

(** ** The handler of [/doi/{doi}] *)

(** The body of the 404 answer. *)
Definition no_id_found : bytes :=
  bytes_of ("{" ++ dq ++ "msg" ++ dq ++ ": " ++ dq ++ "no id found" ++ dq ++ ", "
            ++ dq ++ "status" ++ dq ++ ": 404}").

(** [handleDOI] *)
Definition handleDOI (N : Redirects) (s : Server) (r : DOIRequest) : M unit :=
  match GetContext (IdentifierDatabase s) (SelectKWhereV (req_doi r)) with
  | inl err =>
      if bool_decide (err = Canceled) then mret tt
      else modify_w (http_Error no_id_found StatusNotFound)
  | inr id =>
      let target := String.append "/id/" id in
      modify_w (Header_Set "Content-Type" "text/plain");;
      modify_w (http_Redirect N (req_method r) target StatusTemporaryRedirect)
  end.

End ckit.

(** * Package spindel *)

Module spindel.

(** ** Data *)

Record Unmatched_t : Type := {
  Unmatched_Citing : list bytes;
  Unmatched_Cited : list bytes
}.

Record Extra_t : Type := {
  Took : float;
  UnmatchedCitingCount : Z;
  UnmatchedCitedCount : Z;
  CitingCount : Z;
  CitedCount : Z;
  Cached : bool
}.

Record Response : Type := {
  ID : string;
  DOI : string;
  Citing : list bytes;
  Cited : list bytes;
  Unmatched : Unmatched_t;
  Extra : Extra_t
}.

(** [&Response{ID: id}] *)
Definition new_Response (id : string) : Response :=
  {| ID := id; DOI := ""; Citing := []; Cited := [];
     Unmatched := {| Unmatched_Citing := []; Unmatched_Cited := [] |};
     Extra := {| Took := 0%float; UnmatchedCitingCount := 0;
                 UnmatchedCitedCount := 0; CitingCount := 0; CitedCount := 0;
                 Cached := false |} |}.

Definition set_DOI (v : string) (r : Response) : Response :=
  {| ID := ID r; DOI := v; Citing := Citing r; Cited := Cited r;
     Unmatched := Unmatched r; Extra := Extra r |}.

Definition set_Citing (v : list bytes) (r : Response) : Response :=
  {| ID := ID r; DOI := DOI r; Citing := v; Cited := Cited r;
     Unmatched := Unmatched r; Extra := Extra r |}.

Definition set_Cited (v : list bytes) (r : Response) : Response :=
  {| ID := ID r; DOI := DOI r; Citing := Citing r; Cited := v;
     Unmatched := Unmatched r; Extra := Extra r |}.

Definition set_Unmatched_Citing (v : list bytes) (r : Response) : Response :=
  {| ID := ID r; DOI := DOI r; Citing := Citing r; Cited := Cited r;
     Unmatched := {| Unmatched_Citing := v;
                     Unmatched_Cited := Unmatched_Cited (Unmatched r) |};
     Extra := Extra r |}.

Definition set_Unmatched_Cited (v : list bytes) (r : Response) : Response :=
  {| ID := ID r; DOI := DOI r; Citing := Citing r; Cited := Cited r;
     Unmatched := {| Unmatched_Citing := Unmatched_Citing (Unmatched r);
                     Unmatched_Cited := v |};
     Extra := Extra r |}.

Definition set_Extra (v : Extra_t) (r : Response) : Response :=
  {| ID := ID r; DOI := DOI r; Citing := Citing r; Cited := Cited r;
     Unmatched := Unmatched r; Extra := v |}.

Definition set_Cached (v : bool) (r : Response) : Response :=
  let e := Extra r in
  set_Extra {| Took := Took e;
               UnmatchedCitingCount := UnmatchedCitingCount e;
               UnmatchedCitedCount := UnmatchedCitedCount e;
               CitingCount := CitingCount e; CitedCount := CitedCount e;
               Cached := v |} r.

Definition set_Took (v : float) (r : Response) : Response :=
  let e := Extra r in
  set_Extra {| Took := v;
               UnmatchedCitingCount := UnmatchedCitingCount e;
               UnmatchedCitedCount := UnmatchedCitedCount e;
               CitingCount := CitingCount e; CitedCount := CitedCount e;
               Cached := Cached e |} r.

(** [updateCounts] *)
Definition updateCounts (r : Response) : Response :=
  let e := Extra r in
  set_Extra {| Took := Took e;
               UnmatchedCitingCount := len (Unmatched_Citing (Unmatched r));
               UnmatchedCitedCount := len (Unmatched_Cited (Unmatched r));
               CitingCount := len (Citing r);
               CitedCount := len (Cited r);
               Cached := Cached e |} r.

(** ** The server and its collaborators *)

(** What the in-memory cache holds under a key: an [interface{}] that is
    a [[]byte] or something else. *)
Inductive item : Type :=
| ItemBytes (b : bytes)
| ItemOther.

(** The fields of [Server] a request reads; the [cache] field points to
    the store of [State]. *)
Record Server : Type := {
  IdentifierDatabase : DB;
  OciDatabase : DB;
  IndexData : Fetcher;
  CacheEnabled : bool;
  CacheTriggerDuration : Z
}.

(** What [time.Since(started)] returns, in nanoseconds, at the two
    places the handler calls it. *)
Record Clock : Type := {
  since_finalize : Z;
  since_cache_trigger : Z
}.

(** The libraries the package calls, each by what it returns. *)
Record Libs : Type := {
  sqlx_In : list string → option error;
  json_Marshal : Response → error + bytes;
  Sprintf_q : string → string;
  Slice_order : iteration;
  range_order : iteration
}.

Inductive event : Type :=
| EvSqlxIn (batch : list string)      (* sqlx.In called on a list *)
| EvSelectIn (batch : list string)    (* the IN statement sent to the identifier table *)
| EvMarshal (r : Response).           (* the response handed to the JSON encoder *)

Record State : Type := {
  w : ResponseWriter;
  cache : gmap string item;     (* the items of s.cache that have not expired *)
  trace : list event
}.

Abbreviation M := (Run State).

Definition modify_w (f : ResponseWriter → ResponseWriter) : M unit := λ st,
  (Ok tt, {| w := f (w st); cache := cache st; trace := trace st |}).

Definition modify_cache (f : gmap string item → gmap string item) : M unit := λ st,
  (Ok tt, {| w := w st; cache := f (cache st); trace := trace st |}).

Definition get_cache : M (gmap string item) := λ st, (Ok (cache st), st).

Definition emit (ev : event) : M unit := λ st,
  (Ok tt, {| w := w st; cache := cache st; trace := trace st ++ [ev] |}).

(** ** Helpers *)

(** [httpErrLogStatus] *)
Definition httpErrLogStatus (err : error) (status : Z) : M unit :=
  modify_w (http_Error (bytes_of (Error_text err)) status).

(** [httpErrLog] *)
Definition httpErrLog (err : error) : M unit :=
  if errors_Is err Canceled then mret tt
  else if errors_Is err ErrNoRows then httpErrLogStatus err StatusNotFound
  else httpErrLogStatus err StatusInternalServerError.

(** [edges] *)
Definition edges (s : Server) (doi : string) : error + (list Map * list Map) :=
  match SelectContext (OciDatabase s) (SelectAllWhereK doi) with
  | inl err => inl err
  | inr citing =>
      match SelectContext (OciDatabase s) (SelectAllWhereV doi) with
      | inl err => inl err
      | inr cited => inr (citing, cited)
      end
  end.

(** [mapToLocal]: one statement over all of [dois]. *)
Definition mapToLocal (L : Libs) (s : Server) (dois : list string)
    : M (error + list Map) :=
  emit (EvSqlxIn dois);;
  match sqlx_In L dois with
  | Some err => mret (inl err)
  | None =>
      emit (EvSelectIn dois);;
      match SelectContext (IdentifierDatabase s) (SelectAllWhereVIn dois) with
      | inl err => mret (inl err)
      | inr ids => mret (inr ids)
      end
  end.

(** ** The handler of [/id/{id}] *)

(** (0) *)
Definition cacheProbe (s : Server) (id : string) : M unit :=
  if CacheEnabled s then
    c ← get_cache;
    match c !! id with
    | Some (ItemBytes b) => modify_w (Write b);; return_
    | Some ItemOther => modify_cache (delete id)
    | None => mret tt
    end
  else mret tt.

(** (5): the synthetic blob of an unmatched DOI. *)
Definition unmatchedBlob (L : Libs) (k : string) : bytes :=
  bytes_of ("{" ++ dq ++ "doi" ++ dq ++ ": " ++ Sprintf_q L k ++ "}").

(** (5): the loop over [unmatchedSet], in the order [ks]. *)
Fixpoint recordUnmatched (L : Libs) (outbound : gset string)
    (ks : list string) (response : Response) : Response :=
  match ks with
  | [] => response
  | k :: ks' =>
      let b := unmatchedBlob L k in
      if set.Contains outbound k then
        recordUnmatched L outbound ks'
          (set_Unmatched_Cited (Unmatched_Cited (Unmatched response) ++ [b]) response)
      else
        recordUnmatched L outbound ks'
          (set_Unmatched_Citing (Unmatched_Citing (Unmatched response) ++ [b]) response)
  end.

(** (6): the loop over [ids]. *)
Fixpoint hydrate (s : Server) (outbound inbound : gset string)
    (ids : list Map) (response : Response) : M Response :=
  match ids with
  | [] => mret response
  | v :: ids' =>
      match IndexData s (Key v) with
      | inl err =>
          if errors_Is err ErrBlobNotFound then
            hydrate s outbound inbound ids' response
          else httpErrLog err;; return_
      | inr b =>
          if set.Contains outbound (Value v) then
            hydrate s outbound inbound ids' (set_Citing (Citing response ++ [b]) response)
          else if set.Contains inbound (Value v) then
            hydrate s outbound inbound ids' (set_Cited (Cited response ++ [b]) response)
          else hydrate s outbound inbound ids' response
      end
  end.

(** Steps (1) to (6) and the finalisation. *)
Definition assemble (L : Libs) (s : Server) (clk : Clock) (id : string) : M Response :=
  let response := new_Response id in
  match GetContext (IdentifierDatabase s) (SelectVWhereK (ID response)) with
  | inl err => httpErrLog err;; return_
  | inr doi =>
      let response := set_DOI doi response in
      match edges s (DOI response) with
      | inl err => httpErrLog err;; return_
      | inr (citing, cited) =>
          let outbound := foldl (λ acc v, set.Add (Value v) acc) set.New citing in
          let inbound := foldl (λ acc v, set.Add (Key v) acc) set.New cited in
          let ss := set.Union outbound inbound in
          if set.IsEmpty ss then modify_w (WriteHeader StatusNotFound);; return_
          else
            r ← mapToLocal L s (Slice_order L ss);
            match r with
            | inl err => httpErrLog err;; return_
            | inr ids =>
                let matched := foldl (λ acc v, acc ++ [Value v]) [] ids in
                let unmatchedSet := set.Difference ss (set.FromSlice matched) in
                let response :=
                  recordUnmatched L outbound (range_order L unmatchedSet) response in
                response ← hydrate s outbound inbound ids response;
                let response := updateCounts response in
                let response := set_Took (Seconds (since_finalize clk)) response in
                modify_w (Header_Add "Content-Type" "application/json");;
                mret response
            end
      end
  end.

(** (7) *)
Definition send (L : Libs) (s : Server) (clk : Clock) (response : Response) : M unit :=
  if CacheEnabled s && (CacheTriggerDuration s <? since_cache_trigger clk) then
    let response := set_Cached true response in
    emit (EvMarshal response);;
    match json_Marshal L response with
    | inl err => httpErrLog err;; return_
    | inr b =>
        modify_cache (insert (ID response) (ItemBytes b));;
        modify_w (Write b)
    end
  else
    emit (EvMarshal response);;
    match json_Marshal L response with
    | inl err => httpErrLog err;; return_
    | inr b => modify_w (Write (b ++ newline))
    end.

(** [handleLocalIdentifier] *)
Definition handleLocalIdentifier (L : Libs) (s : Server) (clk : Clock) (r : Request)
    : M unit :=
  cacheProbe s (req_id r);;
  response ← assemble L s clk (req_id r);
  send L s clk response.

(** A request served from a fresh writer. *)
Definition serve (L : Libs) (s : Server) (clk : Clock) (r : Request)
    (c : gmap string item) : result unit * State :=
  handleLocalIdentifier L s clk r {| w := new_writer; cache := c; trace := [] |}.

(** ** The handler of [/doi/{doi}] *)

(** [handleDOI] *)
Definition handleDOI (N : Redirects) (s : Server) (r : DOIRequest) : M unit :=
  match GetContext (IdentifierDatabase s) (SelectKWhereV (req_doi r)) with
  | inl err => httpErrLog err;; return_
  | inr id =>
      let target := String.append "/id/" id in
      modify_w (Header_Set "Content-Type" "text/plain");;
      modify_w (http_Redirect N (req_method r) target StatusTemporaryRedirect)
  end.

End spindel.

(** * Vocabulary of the properties *)

(** The rows of the identifier table an IN statement over [batch]
    selects. *)
Definition in_rows (db : DB) (batch : list string) : list Map :=
  List.filter (selects (SelectAllWhereVIn batch)) (table db).

(** The store accepts every IN statement: [sqlx.In] builds it and the
    table answers it. *)
Definition ckit_accepts (L : ckit.Libs) (s : ckit.Server) : Prop :=
  ∀ batch, ckit.sqlx_In L batch = None
           ∧ fault (ckit.IdentifierDatabase s) (SelectAllWhereVIn batch) = None.

(** What [mapToLocal] adds to the trace for a list of batches. *)
Definition in_events (batches : list (list string)) : list ckit.event :=
  concat (map (λ b, [ckit.EvSqlxIn b; ckit.EvSelectIn b]) batches).

Definition with_trace (st : ckit.State) (evs : list ckit.event) : ckit.State :=
  {| ckit.w := ckit.w st; ckit.cache := ckit.cache st;
     ckit.snippetPool := ckit.snippetPool st;
     ckit.trace := ckit.trace st ++ evs |}.

(** [n] distinct DOIs. *)
Definition many_dois (n : nat) : list string :=
  (λ i : nat, String.append "10.1000/" (pretty i)) <$> seq 0 n.

(** ** Sample collaborators *)

(** [%q] for a string of printable ASCII without quote or backslash. *)
Definition sample_q (k : string) : string := dq ++ k ++ dq.

(** Enumeration in the order of [elements]. *)
Definition sample_order : iteration :=
  {| iter := elements; iter_perm := λ s, reflexivity (elements s) |}.

Definition no_fault : query → option error := λ _, None.

(** [%f] for a finite value: six decimals, the exact value rounded half
    to even. *)
Definition sample_f (f : float) : string :=
  match Prim2SF f with
  | S754_zero s => (if s then "-" else "") ++ "0.000000"
  | S754_finite s m e =>
      let num := Z.pos m * 1000000 in
      let q :=
        if 0 <=? e then num * 2 ^ e
        else
          let den := 2 ^ (- e) in
          let q := num / den in
          let r := num mod den in
          if (den <? 2 * r) || ((den =? 2 * r) && Z.odd q) then q + 1 else q in
      (if s then "-" else "") ++ pretty (q / 1000000) ++ "."
        ++ String.substring 1 6 (pretty (1000000 + q mod 1000000))
  | S754_infinity s => if s then "-Inf" else "+Inf"
  | S754_nan => "NaN"
  end.

(** A blob whose [institution] key lists [isils]. *)
Definition blob_with (isils : list string) : bytes :=
  bytes_of ("{" ++ dq ++ "institution" ++ dq ++ ":["
            ++ String.concat "," (map sample_q isils) ++ "]}").

(** A blob without that key. *)
Definition blob_plain : bytes := bytes_of "{}".

(** What the JSON decoder finds in the blobs of the examples. *)
Definition sample_institution (b : bytes) : error + ckit.institution_key :=
  if bool_decide (b = blob_with ["DE-14"]) then inr (Some ["DE-14"])
  else if bool_decide (b = blob_with ["DE-15"]) then inr (Some ["DE-15"])
  else if bool_decide (b = blob_plain) then inr None
  else inl (Opaque "invalid character").

(** A stand-in for the JSON encoder: the id, the four arrays and the
    cached flag of a response, enough to tell the examples apart. *)
Definition sample_Marshal (r : ckit.Response) : error + bytes :=
  inr (bytes_of ("{" ++ dq ++ "id" ++ dq ++ ":" ++ sample_q (ckit.ID r) ++ ",")
       ++ concat (ckit.Citing r) ++ bytes_of "|" ++ concat (ckit.Cited r)
       ++ bytes_of "|" ++ concat (ckit.Unmatched_Citing (ckit.Unmatched r))
       ++ bytes_of "|" ++ concat (ckit.Unmatched_Cited (ckit.Unmatched r))
       ++ bytes_of (if ckit.Cached (ckit.Extra r) then "|cached}" else "|}")).

(** The sample libraries of package ckit: every IN statement is built,
    compression is the identity. *)
Definition ckit_sample_libs : ckit.Libs :=
  {| ckit.sqlx_In := λ _, None;
     ckit.json_institution := sample_institution;
     ckit.json_Marshal := sample_Marshal;
     ckit.json_Decode := λ _, inl (Opaque "unexpected end of JSON input");
     ckit.json_ErrorMessage := λ status _, inr (bytes_of (pretty status));
     ckit.zstd_NewReader := None;
     ckit.zstd_read := inr;
     ckit.replaced_before := λ _ _, [];
     ckit.json_Decode_failing := λ _ err, inl err;
     ckit.zstd_NewWriter := None;
     ckit.zstd_Close := inr;
     ckit.Sprintf_q := sample_q;
     ckit.Sprintf_f := sample_f;
     ckit.Slice_order := sample_order;
     ckit.range_order := sample_order |}.

Definition ckit_start : ckit.State :=
  {| ckit.w := new_writer; ckit.cache := None; ckit.snippetPool := [];
     ckit.trace := [] |}.

(** An identifier table with one row. *)
Definition one_row_server : ckit.Server :=
  {| ckit.IdentifierDatabase :=
       {| table := [ {| Key := "L1"; Value := "10.1/a" |} ]; fault := no_fault |};
     ckit.OciDatabase := {| table := []; fault := no_fault |};
     ckit.IndexData := λ _, inl ErrBlobNotFound;
     ckit.CacheTriggerDuration := 0 |}.

(** The sample stores of package spindel. *)
Definition spindel_sample_libs : spindel.Libs :=
  {| spindel.sqlx_In := λ _, None;
     spindel.json_Marshal := λ r, inr (bytes_of (spindel.ID r));
     spindel.Sprintf_q := sample_q;
     spindel.Slice_order := sample_order;
     spindel.range_order := sample_order |}.

Definition spindel_empty_server : spindel.Server :=
  {| spindel.IdentifierDatabase := {| table := []; fault := no_fault |};
     spindel.OciDatabase := {| table := []; fault := no_fault |};
     spindel.IndexData := λ _, inl ErrBlobNotFound;
     spindel.CacheEnabled := false;
     spindel.CacheTriggerDuration := 0 |}.

Definition spindel_start : spindel.State :=
  {| spindel.w := new_writer; spindel.cache := ∅; spindel.trace := [] |}.

(** ** The holdings filter in the words of the specification *)

(** The [institution] array of a blob: empty when the blob has no such
    key. *)
Definition institution_of (L : ckit.Libs) (b : bytes) : list string :=
  match ckit.json_institution L b with
  | inr (Some l) => l
  | _ => []
  end.

Definition held (L : ckit.Libs) (isil : string) (b : bytes) : bool :=
  ckit.sliceContains (institution_of L b) isil.

(** Section 4.7: an element stays when its array contains [isil] and
    moves to the unmatched array of its direction otherwise; the counts
    are recomputed and the tag is recorded. *)
Definition holdings_filter (L : ckit.Libs) (isil : string) (r : ckit.Response)
    : ckit.Response :=
  let u := ckit.Unmatched r in
  ckit.set_Extra_Institution isil
    (ckit.updateCounts
       {| ckit.ID := ckit.ID r; ckit.DOI := ckit.DOI r;
          ckit.Citing := List.filter (held L isil) (ckit.Citing r);
          ckit.Cited := List.filter (held L isil) (ckit.Cited r);
          ckit.Unmatched :=
            {| ckit.Unmatched_Citing :=
                 ckit.Unmatched_Citing u
                 ++ List.filter (λ b, negb (held L isil b)) (ckit.Citing r);
               ckit.Unmatched_Cited :=
                 ckit.Unmatched_Cited u
                 ++ List.filter (λ b, negb (held L isil b)) (ckit.Cited r) |};
          ckit.Extra := ckit.Extra r |}).

(** Every blob of the two matched arrays has an [institution] key. *)
Definition keyed (L : ckit.Libs) (r : ckit.Response) : Prop :=
  ∀ b, b ∈ ckit.Citing r ++ ckit.Cited r →
       ∃ l, ckit.json_institution L b = inr (Some l).

(** A response with the given matched arrays and nothing else. *)
Definition response_of (citing cited : list bytes) : ckit.Response :=
  ckit.set_Cited cited (ckit.set_Citing citing (ckit.new_Response "L1")).

(** The state in which the pool holds the given Snippets. *)
Definition ckit_pool (pool : list ckit.Snippet) : ckit.State :=
  {| ckit.w := new_writer; ckit.cache := None; ckit.snippetPool := pool;
     ckit.trace := [] |}.

(** A response after some elements of its matched arrays were kept and
    the others moved. *)
Definition rearranged (isil : string) (r : ckit.Response)
    (kept_citing moved_citing kept_cited moved_cited : list bytes) : ckit.Response :=
  ckit.set_Extra_Institution isil
    (ckit.updateCounts
       (ckit.set_Cited kept_cited
          (ckit.set_Citing kept_citing
             (ckit.set_Unmatched_Cited
                (ckit.Unmatched_Cited (ckit.Unmatched r) ++ moved_cited)
                (ckit.set_Unmatched_Citing
                   (ckit.Unmatched_Citing (ckit.Unmatched r) ++ moved_citing) r))))).

(** Two states that differ in the pool and the trace only. *)
Definition same_io (st st' : ckit.State) : Prop :=
  ckit.w st' = ckit.w st ∧ ckit.cache st' = ckit.cache st.

(** ** The assembled response in the words of the specification *)

(** The blob of a row of the identifier table, when the store has one. *)
Definition fetched (s : ckit.Server) (v : Map) : option bytes :=
  match ckit.IndexData s (Key v) with
  | inr b => Some b
  | inl _ => None
  end.

(** The rows whose DOI is outbound, and those whose DOI is inbound
    only. *)
Definition citing_rows (outbound : gset string) (ids : list Map) : list Map :=
  List.filter (λ v, bool_decide (Value v ∈ outbound)) ids.

Definition cited_rows (outbound inbound : gset string) (ids : list Map) : list Map :=
  List.filter (λ v, negb (bool_decide (Value v ∈ outbound))
                    && bool_decide (Value v ∈ inbound)) ids.

(** The unmatched DOIs of [ks] that are outbound, and those that are
    not. *)
Definition unmatched_citing (L : ckit.Libs) (outbound : gset string) (ks : list string)
    : list bytes :=
  map (ckit.unmatchedBlob L) (List.filter (λ k, bool_decide (k ∈ outbound)) ks).

Definition unmatched_cited (L : ckit.Libs) (outbound : gset string) (ks : list string)
    : list bytes :=
  map (ckit.unmatchedBlob L)
    (List.filter (λ k, negb (bool_decide (k ∈ outbound))) ks).

(** The response of steps (1) to (6) and the finalisation, from the DOI,
    the two edge lists and the rows of the reverse mapping. *)
Definition assembled (L : ckit.Libs) (s : ckit.Server) (clk : ckit.Clock)
    (id doi : string) (citing cited ids : list Map) : ckit.Response :=
  let outbound := ckit.collectOutbound citing in
  let inbound := ckit.collectInbound cited in
  let ks :=
    ckit.range_order L
      ((outbound ∪ inbound) ∖ list_to_set (Value <$> ids)) in
  ckit.set_Took (Seconds (ckit.since_finalize clk))
    (ckit.updateCounts
       (ckit.set_Cited (omap (fetched s) (cited_rows outbound inbound ids))
          (ckit.set_Citing (omap (fetched s) (citing_rows outbound ids))
             (ckit.set_Unmatched_Cited (unmatched_cited L outbound ks)
                (ckit.set_Unmatched_Citing (unmatched_citing L outbound ks)
                   (ckit.set_DOI doi (ckit.new_Response id))))))).

(** The state after [Cache.Set(k, z)] on the cache [c], with the
    encoding of [r] and the call recorded. *)
Definition after_cache_set (st : ckit.State) (c : ckit.Cache) (r : ckit.Response)
    (z : bytes) : ckit.State :=
  {| ckit.w := ckit.w st;
     ckit.cache := Some (ckit.Cache_Set c (ckit.ID r) z).1;
     ckit.snippetPool := ckit.snippetPool st;
     ckit.trace := ckit.trace st ++ [ckit.EvMarshal r; ckit.EvCacheSet (ckit.ID r) z] |}.

(** The state after the response [r], encoded as [b], went to the
    client. *)
Definition after_send (st : ckit.State) (r : ckit.Response) (b : bytes) : ckit.State :=
  {| ckit.w := Write (b ++ newline) (ckit.w st);
     ckit.cache := ckit.cache st;
     ckit.snippetPool := ckit.snippetPool st;
     ckit.trace := ckit.trace st ++ [ckit.EvMarshal r] |}.

(** The four counts of a response are the lengths of its arrays. *)
Definition counts_are_lengths (r : ckit.Response) : Prop :=
  ckit.CitingCount (ckit.Extra r) = len (ckit.Citing r)
  ∧ ckit.CitedCount (ckit.Extra r) = len (ckit.Cited r)
  ∧ ckit.UnmatchedCitingCount (ckit.Extra r)
    = len (ckit.Unmatched_Citing (ckit.Unmatched r))
  ∧ ckit.UnmatchedCitedCount (ckit.Extra r)
    = len (ckit.Unmatched_Cited (ckit.Unmatched r)).

(** ** Counting the DOIs *)

(** The rows of the identifier table whose DOI belongs to [ds]. *)
Definition universe_rows (s : ckit.Server) (ds : gset string) : list Map :=
  List.filter (λ r, bool_decide (Value r ∈ ds)) (table (ckit.IdentifierDatabase s)).

(** Every such row has a blob in the blob store. *)
Definition blobs_found (s : ckit.Server) (ds : gset string) : bool :=
  forallb (λ r, match fetched s r with Some _ => true | None => false end)
    (universe_rows s ds).

(** No DOI of [ds] has more than one row. *)
Definition one_row_per_doi (s : ckit.Server) (ds : gset string) : bool :=
  bool_decide (NoDup (Value <$> universe_rows s ds)).

(** ** Sample servers *)

Definition row (k v : string) : Map := {| Key := k; Value := v |}.

Definition sample_db (rows : list Map) : DB := {| table := rows; fault := no_fault |}.

(** A blob store given by a list of pairs. *)
Definition sample_blobs (blobs : list (string * bytes)) : Fetcher := λ k,
  match List.find (λ kb, String.eqb (fst kb) k) blobs with
  | Some kb => inr (snd kb)
  | None => inl ErrBlobNotFound
  end.

Definition sample_server (idents edges : list Map) (blobs : list (string * bytes))
    : ckit.Server :=
  {| ckit.IdentifierDatabase := sample_db idents;
     ckit.OciDatabase := sample_db edges;
     ckit.IndexData := sample_blobs blobs;
     ckit.CacheTriggerDuration := 1000000000 |}.

(** The record L1 with DOI D1 cites D2 and is cited by D3; both have a
    local record and a blob. *)
Definition happy_server : ckit.Server :=
  sample_server
    [row "L1" "10.1/d1"; row "L2" "10.1/d2"; row "L3" "10.1/d3"]
    [row "10.1/d1" "10.1/d2"; row "10.1/d3" "10.1/d1"]
    [("L2", blob_with ["DE-14"]); ("L3", blob_with ["DE-15"])].

(** The same, but the blob of L2 is missing. *)
Definition blob_missing_server : ckit.Server :=
  sample_server
    [row "L1" "10.1/d1"; row "L2" "10.1/d2"; row "L3" "10.1/d3"]
    [row "10.1/d1" "10.1/d2"; row "10.1/d3" "10.1/d1"]
    [("L3", blob_with ["DE-15"])].

(** The same, but D2 has the two local records L2 and L4. *)
Definition two_records_server : ckit.Server :=
  sample_server
    [row "L1" "10.1/d1"; row "L2" "10.1/d2"; row "L3" "10.1/d3"; row "L4" "10.1/d2"]
    [row "10.1/d1" "10.1/d2"; row "10.1/d3" "10.1/d1"]
    [("L2", blob_with ["DE-14"]); ("L3", blob_with ["DE-15"]);
     ("L4", blob_with ["DE-14"])].

(** D1 cites D2 and D2 cites D1. *)
Definition both_ways_server : ckit.Server :=
  sample_server
    [row "L1" "10.1/d1"; row "L2" "10.1/d2"]
    [row "10.1/d1" "10.1/d2"; row "10.1/d2" "10.1/d1"]
    [("L2", blob_with ["DE-14"])].

(** D1 cites D2, which has no local record. *)
Definition partial_server : ckit.Server :=
  sample_server
    [row "L1" "10.1/d1"]
    [row "10.1/d1" "10.1/d2"]
    [].

(** A request that takes half a second. *)
Definition quick : ckit.Clock :=
  {| ckit.since_cache_hit := 1000000;
     ckit.since_finalize := 500000000;
     ckit.since_cache_trigger := 500000000 |}.

(** A request that takes two and a half seconds. *)
Definition slow : ckit.Clock :=
  {| ckit.since_cache_hit := 1000000;
     ckit.since_finalize := 2500000000;
     ckit.since_cache_trigger := 2500000000 |}.

Definition request (id i : string) : Request := {| req_id := id; req_i := i |}.

Definition empty_cache : ckit.Cache :=
  {| ckit.store := ∅; ckit.readonly := false; ckit.set_fault := None |}.

(** The response a run handed to the JSON encoder last. *)
Definition last_marshalled (st : ckit.State) : option ckit.Response :=
  match last (ckit.trace st) with
  | Some (ckit.EvMarshal r) => Some r
  | _ => None
  end.

(** The sum of the two counts of the outbound direction, and of the
    inbound direction. *)
Definition citing_total (r : ckit.Response) : Z :=
  ckit.CitingCount (ckit.Extra r) + ckit.UnmatchedCitingCount (ckit.Extra r).

Definition cited_total (r : ckit.Response) : Z :=
  ckit.CitedCount (ckit.Extra r) + ckit.UnmatchedCitedCount (ckit.Extra r).

(** The server of package spindel over the same three stores, its cache
    switched off. *)
Definition spindel_server (idents edges : list Map) (blobs : list (string * bytes))
    (cache_enabled : bool) : spindel.Server :=
  {| spindel.IdentifierDatabase := sample_db idents;
     spindel.OciDatabase := sample_db edges;
     spindel.IndexData := sample_blobs blobs;
     spindel.CacheEnabled := cache_enabled;
     spindel.CacheTriggerDuration := 1000000000 |}.

(** D1 cites D2, which has no local record. *)
Definition spindel_partial_server : spindel.Server :=
  spindel_server [row "L1" "10.1/d1"] [row "10.1/d1" "10.1/d2"] [] false.

Definition spindel_quick : spindel.Clock :=
  {| spindel.since_finalize := 500000000;
     spindel.since_cache_trigger := 500000000 |}.

Definition spindel_last_marshalled (st : spindel.State) : option spindel.Response :=
  match last (spindel.trace st) with
  | Some (spindel.EvMarshal r) => Some r
  | _ => None
  end.

(** ** Errors of the identifier lookup *)


(** The JSON encoder accepts every error message. *)
Definition marshals (L : ckit.Libs) : Prop :=
  ∀ status err, ∃ b, ckit.json_ErrorMessage L status err = inr b.

(** The cache is absent or holds nothing under [id]. *)
Definition ckit_misses (c : option ckit.Cache) (id : string) : Prop :=
  match c with
  | Some c => ckit.store c !! id = None
  | None => True
  end.

Definition spindel_misses (s : spindel.Server) (c : gmap string spindel.item)
    (id : string) : Prop :=
  spindel.CacheEnabled s = false ∨ c !! id = None.

(** The writer of the ckit handler before it sends anything. *)
Definition ckit_fresh_writer : ResponseWriter :=
  Header_Add "Content-Type" "application/json" new_writer.

(** The servers of the happy path with an identifier table that fails
    every statement with [err]. *)
Definition failing_db (err : error) : DB := {| table := []; fault := λ _, Some err |}.



(** ** The cached took value *)

(** The number of places of [s] at which the took pattern matches. *)
Fixpoint count_matches (s : bytes) : nat :=
  match s with
  | [] => O
  | _ :: s' =>
      (match ckit.match_len s with Some _ => 1 | None => 0 end + count_matches s')%nat
  end.

(** [post] does not go on with a byte of the class [[0-9.]]. *)
Definition run_ends (post : bytes) : Prop :=
  match post with
  | c :: _ => ckit.is_num c = false
  | [] => True
  end.

(** A cached body that reports a took value of one and a half
    seconds. *)
Definition stale_body : bytes :=
  bytes_of ("{" ++ dq ++ "id" ++ dq ++ ":" ++ sample_q "L1" ++ ","
            ++ dq ++ "extra" ++ dq ++ ":{")
  ++ ckit.took_key ++ bytes_of "1.500000}}".

(** The body with the took value of a request that found it in the cache
    after a millisecond. *)
Definition fresh_body : bytes :=
  bytes_of ("{" ++ dq ++ "id" ++ dq ++ ":" ++ sample_q "L1" ++ ","
            ++ dq ++ "extra" ++ dq ++ ":{")
  ++ ckit.took_key ++ bytes_of "0.001000}}".

Definition spindel_caching_server : spindel.Server :=
  spindel_server [row "L1" "10.1/d1"] [row "10.1/d1" "10.1/d2"] [] true.

Definition stale_cache : ckit.Cache :=
  {| ckit.store := {["L1" := stale_body]}; ckit.readonly := false;
     ckit.set_fault := None |}.

(** ** The statement builder *)

(** [sqlx.In] as package sqlx has it, for a statement with one
    placeholder and one slice argument: an empty slice is refused, any
    other slice gives the statement with a placeholder for each value. *)
Definition sqlx_In_slice (batch : list string) : option error :=
  match batch with
  | [] => Some (Opaque "empty slice passed to 'in' query")
  | _ :: _ => None
  end.

(** The sample libraries with that builder. *)
Definition sqlx_libs : ckit.Libs :=
  {| ckit.sqlx_In := sqlx_In_slice;
     ckit.json_institution := sample_institution;
     ckit.json_Marshal := sample_Marshal;
     ckit.json_Decode := λ _, inl (Opaque "unexpected end of JSON input");
     ckit.json_ErrorMessage := λ status _, inr (bytes_of (pretty status));
     ckit.zstd_NewReader := None;
     ckit.zstd_read := inr;
     ckit.replaced_before := λ _ _, [];
     ckit.json_Decode_failing := λ _ err, inl err;
     ckit.zstd_NewWriter := None;
     ckit.zstd_Close := inr;
     ckit.Sprintf_q := sample_q;
     ckit.Sprintf_f := sample_f;
     ckit.Slice_order := sample_order;
     ckit.range_order := sample_order |}.

(** ** Wrapped errors of the identifier lookup *)


(** ** An expensive request over a blob without the key *)

(** The record L1 cites D2 and D4 and is cited by D3. The blob of L2
    lists DE-14, the blob of L4 is an object without the key, the blob
    of L3 lists DE-15. *)
Definition unkeyed_server : ckit.Server :=
  sample_server
    [row "L1" "10.1/d1"; row "L2" "10.1/d2"; row "L4" "10.1/d4"; row "L3" "10.1/d3"]
    [row "10.1/d1" "10.1/d2"; row "10.1/d1" "10.1/d4"; row "10.1/d3" "10.1/d1"]
    [("L2", blob_with ["DE-14"]); ("L4", blob_plain); ("L3", blob_with ["DE-15"])].

(** The state in which the ckit handler starts step (0). *)
Definition ckit_begin (c : option ckit.Cache) (pool : list ckit.Snippet) : ckit.State :=
  {| ckit.w := ckit_fresh_writer; ckit.cache := c; ckit.snippetPool := pool;
     ckit.trace := [] |}.


(** ** Vocabulary of the further properties *)

(** The JSON decoder refuses the blob. *)
Definition broken (L : ckit.Libs) (b : bytes) : Prop :=
  ∃ err, ckit.json_institution L b = inl err.

(** A response whose first citing blob is held by DE-14 and whose other
    two blobs are not. *)
Definition mixed_response : ckit.Response :=
  response_of [blob_with ["DE-14"]; blob_with ["DE-15"]] [blob_with ["DE-15"]].

(** A response with a blob that is no JSON text. *)
Definition broken_response : ckit.Response :=
  response_of [blob_with ["DE-14"]] [bytes_of "{"].

(** The DOIs a record cites or is cited by. *)
Definition universe (citing cited : list Map) : gset string :=
  ckit.collectOutbound citing ∪ ckit.collectInbound cited.

(** The citation table answers both statements for [doi], and has no
    row with [doi] on either side. *)
Definition no_edges (db : DB) (doi : string) : Prop :=
  fault db (SelectAllWhereK doi) = None
  ∧ fault db (SelectAllWhereV doi) = None
  ∧ ∀ row, row ∈ table db → Key row ≠ doi ∧ Value row ≠ doi.

(** The request misses the cache, its id has a DOI, and the DOI has the
    edges [citing] and [cited], not both empty: the ckit handler gets to
    step (4). *)
Definition ckit_passes_lookup (s : ckit.Server) (c : option ckit.Cache) (r : Request)
    (doi : string) (citing cited : list Map) : Prop :=
  ckit_misses c (req_id r)
  ∧ GetContext (ckit.IdentifierDatabase s) (SelectVWhereK (req_id r)) = inr doi
  ∧ ckit.edges s doi = inr (citing, cited)
  ∧ universe citing cited ≠ ∅.

(** A database that answers every statement but the IN statements,
    which end with [err]. *)
Definition failing_in (rows : list Map) (err : error) : DB :=
  {| table := rows;
     fault := λ q, match q with SelectAllWhereVIn _ => Some err | _ => None end |}.

(** The record L1 cites D2; the request is cancelled while the reverse
    mapping runs. *)
Definition cancelled_in_step4 : ckit.Server :=
  {| ckit.IdentifierDatabase := failing_in [row "L1" "10.1/d1"; row "L2" "10.1/d2"] Canceled;
     ckit.OciDatabase := sample_db [row "10.1/d1" "10.1/d2"];
     ckit.IndexData := sample_blobs [];
     ckit.CacheTriggerDuration := 1000000000 |}.

(** The record L1 cites D2, which is the record L2; the blob store is
    cancelled while it fetches. *)
Definition cancelled_in_step6 : ckit.Server :=
  {| ckit.IdentifierDatabase := sample_db [row "L1" "10.1/d1"; row "L2" "10.1/d2"];
     ckit.OciDatabase := sample_db [row "10.1/d1" "10.1/d2"];
     ckit.IndexData := λ _, inl Canceled;
     ckit.CacheTriggerDuration := 1000000000 |}.

(** A citation table that fails every statement with [err]. *)
Definition failing_edges (err : error) : ckit.Server :=
  {| ckit.IdentifierDatabase := sample_db [row "L1" "10.1/d1"];
     ckit.OciDatabase := failing_db err;
     ckit.IndexData := sample_blobs [];
     ckit.CacheTriggerDuration := 1000000000 |}.

(** The record L1 has a DOI and no citation. *)
Definition lonely_server : ckit.Server :=
  sample_server [row "L1" "10.1/d1"] [row "10.1/d8" "10.1/d9"] [].

Definition spindel_lonely_server : spindel.Server :=
  spindel_server [row "L1" "10.1/d1"] [row "10.1/d8" "10.1/d9"] [] true.

(** A fetch error that is not the not-found value, also when wrapped. *)
Definition fetch_fails (s : ckit.Server) (v : Map) : Prop :=
  ∃ err, ckit.IndexData s (Key v) = inl err ∧ errors_Is err ErrBlobNotFound = false.

(** The request is expensive: there is a cache and the request took
    longer than the trigger duration. *)
Definition expensive (s : ckit.Server) (clk : ckit.Clock) (c : option ckit.Cache) : Prop :=
  c ≠ None ∧ ckit.CacheTriggerDuration s < ckit.since_cache_trigger clk.

(** What the cache holds under a key, if there is a cache. *)
Definition stored (c : option ckit.Cache) (k : string) : option bytes :=
  match c with
  | Some c => ckit.store c !! k
  | None => None
  end.

(** A computation of the ckit handler that leaves the cache as it is,
    however it ends. *)
Definition keeps_cache {A : Type} (m : ckit.M A) : Prop :=
  ∀ st, ckit.cache (m st).2 = ckit.cache st.

(** The compression codec gives back what it was given. *)
Definition codec_round_trip (L : ckit.Libs) : Prop :=
  ∀ x z, ckit.zstd_Close L x = inr z → ckit.zstd_read L z = inr x.

(** A cache that cannot be written. *)
Definition readonly_cache : ckit.Cache :=
  {| ckit.store := ∅; ckit.readonly := true; ckit.set_fault := None |}.

(** A cache whose entry for L1 is a frame that breaks after its first
    byte, and whose entry for L2 decompresses to a text that is no JSON
    document. *)
Definition breaking_cache : ckit.Cache :=
  {| ckit.store := {["L1" := bytes_of "broken frame"; "L2" := bytes_of "not a document"]};
     ckit.readonly := false; ckit.set_fault := None |}.

(** A codec that reads the first byte of the broken frame and fails,
    and reads every other frame in full; a decoder that refuses every
    text. *)
Definition breaking_libs : ckit.Libs :=
  {| ckit.sqlx_In := λ _, None;
     ckit.json_institution := sample_institution;
     ckit.json_Marshal := sample_Marshal;
     ckit.json_Decode := λ _, inl (Opaque "invalid character");
     ckit.json_ErrorMessage := λ status _, inr (bytes_of (pretty status));
     ckit.zstd_NewReader := None;
     ckit.zstd_read := λ b,
       if bool_decide (b = bytes_of "broken frame") then inl (Opaque "unexpected EOF")
       else inr b;
     ckit.replaced_before := λ _ b,
       if bool_decide (b = bytes_of "broken frame") then bytes_of "{" else [];
     ckit.json_Decode_failing := λ _ err, inl err;
     ckit.zstd_NewWriter := None;
     ckit.zstd_Close := inr;
     ckit.Sprintf_q := sample_q;
     ckit.Sprintf_f := sample_f;
     ckit.Slice_order := sample_order;
     ckit.range_order := sample_order |}.

(** The citation table has at most 2^43 rows, so that the DOIs of one
    record fit into a slice. *)
Definition fits (oci : DB) : Prop := 2 * len (table oci) <= ckit.max_strings.

(** A run that ends in order: it goes on or returns, or it panics in
    the decoder of the institution filter while [tagged] holds. *)
Definition tame (tagged : Prop) {A : Type} (res : result A) : Prop :=
  match res with
  | Ok _ | Returned => True
  | Panicked msg => tagged ∧ msg = "internal data broken"
  | Diverged => False
  end.

(** A computation that neither panics nor runs out of fuel, whatever
    the state. *)
Definition quiet {A : Type} (m : ckit.M A) : Prop :=
  ∀ st, tame False (m st).1.

(** The DOIs that have a local record. *)
Definition local_dois (s : ckit.Server) : gset string :=
  list_to_set (Value <$> table (ckit.IdentifierDatabase s)).

(** The blobs of the rows of the identifier table that [p] selects, for
    the rows that have one. *)
Definition blobs_where (s : ckit.Server) (p : string → bool) : list bytes :=
  omap (fetched s) (List.filter (λ row, p (Value row)) (table (ckit.IdentifierDatabase s))).

(** What the redirect of [/doi/{doi}] leaves in the header. *)
Definition redirect_header (N : Redirects) (id : string) : list (string * string) :=
  [("Content-Type", "text/plain"); ("Location", Location N (String.append "/id/" id))].

(** What [http.Error] leaves in the header of a fresh writer. *)
Definition error_header : list (string * string) :=
  [("Content-Type", "text/plain; charset=utf-8"); ("X-Content-Type-Options", "nosniff")].

(** A stand-in for the redirect computations: the target as it is, and
    a link to it. *)
Definition sample_redirects : Redirects :=
  {| Location := λ url, url;
     snippet := λ url code, bytes_of ("<a href=" ++ url ++ ">Temporary Redirect</a>.") |}.

(** No two rows of the table have the same key. *)
Definition unique_keys (db : DB) : Prop := NoDup (Key <$> table db).




Definition spindel_slow : spindel.Clock :=
  {| spindel.since_finalize := 2500000000;
     spindel.since_cache_trigger := 2500000000 |}.



(** A cache that holds, for L1, a response with two citing blobs, and
    a decoder that reads it. *)
Definition tagged_body : bytes := bytes_of "cached response of L1".

Definition tagged_cache : ckit.Cache :=
  {| ckit.store := {["L1" := tagged_body]}; ckit.readonly := false;
     ckit.set_fault := None |}.

Definition decoding_libs : ckit.Libs :=
  {| ckit.sqlx_In := λ _, None;
     ckit.json_institution := sample_institution;
     ckit.json_Marshal := sample_Marshal;
     ckit.json_Decode := λ b,
       if bool_decide (b = tagged_body) then inr mixed_response
       else inl (Opaque "unexpected end of JSON input");
     ckit.json_ErrorMessage := λ status _, inr (bytes_of (pretty status));
     ckit.zstd_NewReader := None;
     ckit.zstd_read := inr;
     ckit.replaced_before := λ _ _, [];
     ckit.json_Decode_failing := λ _ err, inl err;
     ckit.zstd_NewWriter := None;
     ckit.zstd_Close := inr;
     ckit.Sprintf_q := sample_q;
     ckit.Sprintf_f := sample_f;
     ckit.Slice_order := sample_order;
     ckit.range_order := sample_order |}.

(** The blob of a row in the blob store of the spindel server, when it
    has one. *)
Definition spindel_fetched (s : spindel.Server) (v : Map) : option bytes :=
  match spindel.IndexData s (Key v) with
  | inr b => Some b
  | inl _ => None
  end.

(** The blobs of the rows of its identifier table that [p] selects, in
    table order. *)
Definition spindel_blobs_where (s : spindel.Server) (p : string → bool) : list bytes :=
  omap (spindel_fetched s)
    (List.filter (λ row, p (Value row)) (table (spindel.IdentifierDatabase s))).

(** The spindel server over the stores of the happy path. *)
Definition spindel_happy_server : spindel.Server :=
  spindel_server
    [row "L1" "10.1/d1"; row "L2" "10.1/d2"; row "L3" "10.1/d3"]
    [row "10.1/d1" "10.1/d2"; row "10.1/d3" "10.1/d1"]
    [("L2", blob_with ["DE-14"]); ("L3", blob_with ["DE-15"])] false.

(** The rows among [rows] that an IN statement over [batch] selects. *)
Definition in_rows_of (rows : list Map) (batch : list string) : list Map :=
  List.filter (selects (SelectAllWhereVIn batch)) rows.

(** The DOIs that have a local record in the identifier table of the
    spindel server. *)
Definition spindel_local_dois (s : spindel.Server) : gset string :=
  list_to_set (Value <$> table (spindel.IdentifierDatabase s)).


(** * Properties *)

(** ** Runs of the handler monad *)

Lemma bind_Ok {S A B : Type} (m : Run S A) (f : A → Run S B) st b st' :
  (m ≫= f) st = (Ok b, st') →
  ∃ a st1, m st = (Ok a, st1) ∧ f a st1 = (Ok b, st').
Proof.
  unfold mbind, Run_bind, bind. destruct (m st) as [[a| | |] st1]; try discriminate.
  intros H. by exists a, st1.
Qed.

Lemma bind_run {S A B : Type} (m : Run S A) (f : A → Run S B) st a st1 :
  m st = (Ok a, st1) → (m ≫= f) st = f a st1.
Proof. unfold mbind, Run_bind, bind. by intros ->. Qed.

(** ** batchedStrings *)

Lemma wrap64_small z : - 2 ^ 63 <= z < 2 ^ 63 → wrap64 z = z.
Proof.
  intros Hz. unfold wrap64.
  rewrite Z.mod_small by lia. lia.
Qed.

Lemma batchedStrings_loop_spec fuel : ∀ (ss : list string) (n : Z) (k : nat) acc,
  1 <= n →
  len ss <= ckit.max_strings →
  (k <= length ss)%nat →
  (length ss - k < fuel)%nat →
  ∃ bs,
    ckit.batchedStrings_loop fuel ss n (Z.of_nat k) (Z.of_nat k + n) acc = Done (acc ++ bs)
    ∧ concat bs = drop k ss
    ∧ Forall (λ b, len b <= n) bs
    ∧ (length ss <= k + Z.to_nat n → bs = [drop k ss])%nat.
Proof.
  induction fuel as [|fuel IH]; intros ss n k acc Hn Hmax Hk Hfuel; [lia|].
  unfold ckit.max_strings, len in *. cbn [ckit.batchedStrings_loop].
  destruct (Z.leb_spec (len ss) (Z.of_nat k + n)) as [Hle|Hgt]; unfold len in *.
  - unfold slice_from, len.
    replace ((0 <=? Z.of_nat k) && (Z.of_nat k <=? Z.of_nat (length ss))) with true
      by (symmetry; apply andb_true_intro; split; apply Z.leb_le; lia).
    rewrite Nat2Z.id. exists [drop k ss]. repeat split.
    + cbn. by rewrite app_nil_r.
    + constructor; [|constructor]. rewrite length_drop. lia.
  - unfold slice, len.
    replace ((0 <=? Z.of_nat k) && (Z.of_nat k <=? Z.of_nat k + n)
             && (Z.of_nat k + n <=? Z.of_nat (length ss))) with true
      by (symmetry; repeat (apply andb_true_intro; split); apply Z.leb_le; lia).
    rewrite Nat2Z.id.
    replace (Z.of_nat k + n - Z.of_nat k) with n by lia.
    rewrite wrap64_small by lia.
    replace (Z.of_nat k + n) with (Z.of_nat (k + Z.to_nat n)) by lia.
    destruct (IH ss n (k + Z.to_nat n)%nat (acc ++ [take (Z.to_nat n) (drop k ss)]))
      as (bs & Hrun & Hcat & Hall & _); try lia.
    exists (take (Z.to_nat n) (drop k ss) :: bs). repeat split.
    + rewrite Hrun. by rewrite <- app_assoc.
    + cbn. rewrite Hcat. rewrite <- drop_drop. apply take_drop.
    + constructor; [|done]. rewrite length_take. lia.
    + intros ?. lia.
Qed.

Lemma batchedStrings_spec (ss : list string) (n : Z) :
  1 <= n →
  len ss <= ckit.max_strings →
  ∃ bs, ckit.batchedStrings ss n = Done bs
        ∧ concat bs = ss
        ∧ Forall (λ b, len b <= n) bs.
Proof.
  intros Hn Hmax.
  destruct (batchedStrings_loop_spec (S (length ss)) ss n 0 [] Hn Hmax)
    as (bs & Hrun & Hcat & Hall & _); [lia..|].
  cbn in Hcat. exists bs. split; [exact Hrun|]. by split.
Qed.

Lemma batchedStrings_nil (n : Z) : 1 <= n → ckit.batchedStrings [] n = Done [[]].
Proof.
  intros Hn. unfold ckit.batchedStrings, ckit.batchedStrings_loop, len.
  cbn [length]. change (Z.of_nat 0) with 0.
  destruct (Z.leb_spec 0 n); [reflexivity|lia].
Qed.

(** What [mapToLocal] does on an empty list: its loop runs once, on the
    empty batch. It sends the statement if [sqlx.In] builds it, and
    returns the error of [sqlx.In], formatted, if not. *)
Lemma mapToLocal_nil (L : ckit.Libs) (s : ckit.Server) (st : ckit.State) :
  ckit.mapToLocal L s [] st
  = match ckit.sqlx_In L [] with
    | Some err =>
        (Ok (inl (Opaque ("query: " ++ Error_text err))),
         {| ckit.w := ckit.w st; ckit.cache := ckit.cache st;
            ckit.snippetPool := ckit.snippetPool st;
            ckit.trace := ckit.trace st ++ [ckit.EvSqlxIn []] |})
    | None =>
        (Ok (match SelectContext (ckit.IdentifierDatabase s) (SelectAllWhereVIn []) with
             | inl err => inl (Opaque ("select: " ++ Error_text err))
             | inr result => inr result
             end),
         {| ckit.w := ckit.w st; ckit.cache := ckit.cache st;
            ckit.snippetPool := ckit.snippetPool st;
            ckit.trace := ckit.trace st ++ [ckit.EvSqlxIn []; ckit.EvSelectIn []] |})
    end.
Proof.
  unfold ckit.mapToLocal, ckit.mapToLocal_sized.
  rewrite batchedStrings_nil by (unfold ckit.size; lia).
  cbn. unfold mbind, Run_bind, bind. cbn.
  destruct (ckit.sqlx_In L []); cbn; [done|].
  destruct (SelectContext _ _); cbn; by rewrite <- app_assoc.
Qed.

(** C10, as the code has it: for [n >= 1] the batches of
    [batchedStrings] concatenate to the input and none is longer than
    [n]; the empty slice gives one empty batch, so that [mapToLocal] on
    no DOIs runs its loop once and calls [sqlx.In] on the empty batch.
    [sqlx.In] refuses an empty slice: [mapToLocal] then returns that
    error, formatted, and sends no statement. *)
Theorem batchedStrings_covers_input (ss : list string) (n : Z) :
  1 <= n →
  len ss <= ckit.max_strings →
  (∃ bs, ckit.batchedStrings ss n = Done bs
         ∧ concat bs = ss
         ∧ Forall (λ b, len b <= n) bs)
  ∧ ckit.batchedStrings [] n = Done [[]]
  ∧ ∀ L s st err,
      ckit.sqlx_In L [] = Some err →
      (ckit.mapToLocal L s [] st).1 = Ok (inl (Opaque ("query: " ++ Error_text err)))
      ∧ ckit.trace (ckit.mapToLocal L s [] st).2 = ckit.trace st ++ [ckit.EvSqlxIn []]
      ∧ ∀ batch, ckit.EvSelectIn batch ∈ ckit.trace (ckit.mapToLocal L s [] st).2 →
                 ckit.EvSelectIn batch ∈ ckit.trace st.
Proof.
  intros Hn Hmax. split; [by apply batchedStrings_spec|].
  split; [by apply batchedStrings_nil|].
  intros L s st err Herr. rewrite mapToLocal_nil, Herr. cbn.
  split; [done|]. split; [done|].
  intros batch [Hin|Hin]%elem_of_app; [done|].
  apply list_elem_of_singleton in Hin. discriminate Hin.
Qed.

Lemma batchedStrings_covers_input_witness :
  (∃ bs, ckit.batchedStrings ["a"; "b"; "c"] 2 = Done bs
         ∧ concat bs = ["a"; "b"; "c"]
         ∧ Forall (λ b, len b <= 2) bs)
  ∧ ckit.batchedStrings ["a"; "b"; "c"] 2 = Done [["a"; "b"]; ["c"]]
  ∧ ckit.batchedStrings [] 2 = Done [[]]
  ∧ (ckit.mapToLocal sqlx_libs one_row_server [] ckit_start).1
    = Ok (inl (Opaque "query: empty slice passed to 'in' query")).
Proof.
  destruct (batchedStrings_covers_input ["a"; "b"; "c"] 2) as (H1 & H2 & H3).
  - lia.
  - unfold ckit.max_strings, len. cbn. lia.
  - split; [exact H1|]. split; [reflexivity|]. split; [exact H2|].
    exact (proj1 (H3 sqlx_libs one_row_server ckit_start _ eq_refl)).
Defined.

(** C10 as stated fails in its last part: with [sqlx.In] as package
    sqlx has it, [mapToLocal] on the empty list calls [sqlx.In] on the
    one empty batch, gets its refusal and returns; no IN statement
    reaches the identifier table. *)
Lemma mapToLocal_empty_list_sends_no_statement :
  let run := ckit.mapToLocal sqlx_libs one_row_server [] ckit_start in
  ckit.batchedStrings [] ckit.size = Done [[]]
  ∧ ckit.sqlx_In sqlx_libs [] = Some (Opaque "empty slice passed to 'in' query")
  ∧ run.1 = Ok (inl (Opaque "query: empty slice passed to 'in' query"))
  ∧ ckit.trace run.2 = [ckit.EvSqlxIn []]
  ∧ ¬ ∃ batch, ckit.EvSelectIn batch ∈ ckit.trace run.2.
Proof.
  cbn zeta. split; [reflexivity|]. split; [reflexivity|].
  split; [by vm_compute|]. split; [by vm_compute|].
  intros [batch Hin]. vm_compute in Hin.
  apply list_elem_of_singleton in Hin. discriminate Hin.
Qed.

(** ** mapToLocal *)

Lemma with_trace_nil st : with_trace st [] = st.
Proof. destruct st. unfold with_trace. cbn. by rewrite app_nil_r. Qed.

Lemma with_trace_app st evs1 evs2 :
  with_trace (with_trace st evs1) evs2 = with_trace st (evs1 ++ evs2).
Proof. unfold with_trace. cbn. by rewrite app_assoc. Qed.

Lemma emit_run ev st : ckit.emit ev st = (Ok tt, with_trace st [ev]).
Proof. reflexivity. Qed.

Lemma mapToLocal_loop_ok L s batches : ∀ ids st,
  ckit_accepts L s →
  ckit.mapToLocal_loop L s batches ids st
  = (Ok (inr (ids ++ concat (map (in_rows (ckit.IdentifierDatabase s)) batches))),
     with_trace st (in_events batches)).
Proof.
  induction batches as [|b batches IH]; intros ids st Hacc.
  - cbn. by rewrite app_nil_r, with_trace_nil.
  - destruct (Hacc b) as [Hin Hfault].
    cbn [ckit.mapToLocal_loop]. unfold mbind, Run_bind, bind.
    rewrite emit_run, Hin, emit_run.
    unfold SelectContext. rewrite Hfault.
    rewrite IH by done. rewrite with_trace_app, with_trace_app.
    cbn. unfold in_rows at 2. by rewrite <- app_assoc.
Qed.

(** Whatever the stores answer, the statements [mapToLocal] sends are
    those of the batches, in order, up to the first failure. *)
Lemma mapToLocal_loop_trace L s batches : ∀ ids st,
  ∃ evs, ckit.trace (ckit.mapToLocal_loop L s batches ids st).2 = ckit.trace st ++ evs
         ∧ evs `prefix_of` in_events batches.
Proof.
  induction batches as [|b batches IH]; intros ids st.
  - exists []. cbn. by rewrite app_nil_r.
  - cbn [ckit.mapToLocal_loop]. unfold mbind, Run_bind, bind.
    rewrite emit_run. destruct (ckit.sqlx_In L b).
    + exists [ckit.EvSqlxIn b]. split; [done|].
      by exists (ckit.EvSelectIn b :: in_events batches).
    + rewrite emit_run. destruct (SelectContext _ _) as [err|rows].
      * exists [ckit.EvSqlxIn b; ckit.EvSelectIn b]. split.
        -- cbn. by rewrite <- app_assoc.
        -- by exists (in_events batches).
      * destruct (IH (ids ++ rows)
                     (with_trace (with_trace st [ckit.EvSqlxIn b]) [ckit.EvSelectIn b]))
          as (evs & Htr & Hpre).
        exists (ckit.EvSqlxIn b :: ckit.EvSelectIn b :: evs). split.
        -- rewrite Htr. cbn. by rewrite <- !app_assoc.
        -- cbn. by do 2 apply prefix_cons.
Qed.

(** The reverse mapping of package ckit: batches of at most 500 values,
    sent one after the other, the rows of each appended as they come. *)
Lemma ckit_mapToLocal_batches (L : ckit.Libs) (s : ckit.Server) (dois : list string) st :
  len dois <= ckit.max_strings →
  ∃ batches,
    ckit.batchedStrings dois 500 = Done batches
    ∧ concat batches = dois
    ∧ Forall (λ b, len b <= 500) batches
    ∧ (∃ evs, ckit.trace (ckit.mapToLocal L s dois st).2 = ckit.trace st ++ evs
              ∧ evs `prefix_of` in_events batches)
    ∧ (ckit_accepts L s →
       ckit.mapToLocal L s dois st
       = (Ok (inr (concat (map (in_rows (ckit.IdentifierDatabase s)) batches))),
          with_trace st (in_events batches))).
Proof.
  intros Hmax.
  destruct (batchedStrings_spec dois 500) as (batches & Hb & Hcat & Hall); [lia|done|].
  exists batches. repeat split; try done.
  - unfold ckit.mapToLocal, ckit.mapToLocal_sized, ckit.size. rewrite Hb.
    apply mapToLocal_loop_trace.
  - intros Hacc. unfold ckit.mapToLocal, ckit.mapToLocal_sized, ckit.size. rewrite Hb.
    by rewrite mapToLocal_loop_ok.
Qed.

(** C5, package spindel: [mapToLocal] sends a single IN statement over
    all values it is given, here 501 of them. *)
Theorem spindel_mapToLocal_unbatched :
  spindel.trace
    (spindel.mapToLocal spindel_sample_libs spindel_empty_server (many_dois 501)
       spindel_start).2
  = [spindel.EvSqlxIn (many_dois 501); spindel.EvSelectIn (many_dois 501)]
  ∧ len (many_dois 501) = 501
  ∧ NoDup (many_dois 501).
Proof.
  split; [by vm_compute|]. split; [by vm_compute|].
  apply (bool_decide_unpack _). by vm_compute.
Qed.

(** ** Batching invariance *)

Lemma filter_split_perm {A : Type} (p q pq : A → bool) (l : list A) :
  (∀ x, pq x = p x || q x) →
  (∀ x, p x && q x = false) →
  List.filter pq l ≡ₚ List.filter p l ++ List.filter q l.
Proof.
  intros Hpq Hdisj. induction l as [|x l IH]; [done|].
  cbn. rewrite Hpq. specialize (Hdisj x).
  destruct (p x), (q x); try discriminate; cbn.
  - by constructor.
  - rewrite IH. apply Permutation_middle.
  - done.
Qed.

Lemma in_rows_app (db : DB) (b1 b2 : list string) :
  (∀ x, x ∈ b1 → x ∈ b2 → False) →
  in_rows db (b1 ++ b2) ≡ₚ in_rows db b1 ++ in_rows db b2.
Proof.
  intros Hdisj. unfold in_rows. apply filter_split_perm; intros r; cbn.
  - apply eq_bool_prop_intro. rewrite orb_True, !bool_decide_spec.
    apply elem_of_app.
  - destruct (bool_decide_reflect (Value r ∈ b1)), (bool_decide_reflect (Value r ∈ b2));
      try done. by destruct (Hdisj (Value r)).
Qed.

Lemma in_rows_nil (db : DB) : in_rows db [] = [].
Proof.
  unfold in_rows. induction (table db) as [|r l IH]; [done|].
  cbn. rewrite bool_decide_eq_false_2; [done|]. apply not_elem_of_nil.
Qed.

Lemma in_rows_concat (db : DB) (batches : list (list string)) :
  NoDup (concat batches) →
  concat (map (in_rows db) batches) ≡ₚ in_rows db (concat batches).
Proof.
  induction batches as [|b batches IH]; intros Hnd.
  - cbn. by rewrite in_rows_nil.
  - cbn in *. apply NoDup_app in Hnd as (_ & Hdisj & Hnd).
    rewrite in_rows_app by (intros x ??; by apply (Hdisj x)).
    by rewrite IH.
Qed.






(** ** The institution filter *)

Section FilterLoops.
Variables (L : ckit.Libs) (isil : string).

(** Taking a Snippet from the pool changes neither the writer, nor the
    cache, nor the trace. *)
Lemma snippetPool_Get_Ok st v st1 :
  ckit.snippetPool_Get st = (Ok v, st1) →
  same_io st st1 ∧ ckit.trace st1 = ckit.trace st.
Proof.
  unfold ckit.snippetPool_Get. destruct (ckit.snippetPool st);
    intros Hget; injection Hget as <- <-; by repeat split.
Qed.

Lemma snippetPool_Get_total st :
  ∃ v st1, ckit.snippetPool_Get st = (Ok v, st1).
Proof.
  unfold ckit.snippetPool_Get. destruct (ckit.snippetPool st); by eexists _, _.
Qed.

(** One round of either loop, read backwards: the Snippet is taken,
    the blob is decoded into it, the Snippet is put back. *)
Ltac loop_round Hrun v st1 v' :=
  apply bind_Ok in Hrun as (v & st1 & [[? ?] ?]%snippetPool_Get_Ok & Hrun);
  destruct (ckit.json_Unmarshal L _ v) as [?|v']; [discriminate|].

Ltac after_put Hrun IH kept moved :=
  apply bind_Ok in Hrun as ([] & ? & Hput & Hrun); injection Hput as <-;
  apply IH in Hrun as (kept & moved & -> & -> & ? & [? ?] & ?).

Lemma filterCiting_Ok bs : ∀ citing r st citing' r' st',
  ckit.filterCiting L isil bs citing r st = (Ok (citing', r'), st') →
  ∃ kept moved,
    citing' = citing ++ kept
    ∧ r' = ckit.set_Unmatched_Citing
             (ckit.Unmatched_Citing (ckit.Unmatched r) ++ moved) r
    ∧ (length kept + length moved = length bs)%nat
    ∧ same_io st st' ∧ ckit.trace st' = ckit.trace st.
Proof.
  induction bs as [|b bs IH]; intros citing r st citing' r' st' Hrun.
  - cbn in Hrun. injection Hrun as <- <- <-. exists [], [].
    rewrite !app_nil_r. destruct r as [? ? ? ? [? ?] ?]. by repeat split.
  - cbn [ckit.filterCiting] in Hrun. loop_round Hrun v st1 v'.
    destruct (ckit.sliceContains (ckit.Institution v') isil).
    + after_put Hrun IH kept moved.
      exists (b :: kept), moved. cbn in *. rewrite <- app_assoc.
      repeat split; try done; try lia; congruence.
    + after_put Hrun IH kept moved.
      exists kept, (b :: moved). cbn in *. rewrite <- app_assoc.
      repeat split; try done; try lia; congruence.
Qed.

Lemma filterCited_Ok bs : ∀ cited r st cited' r' st',
  ckit.filterCited L isil bs cited r st = (Ok (cited', r'), st') →
  ∃ kept moved,
    cited' = cited ++ kept
    ∧ r' = ckit.set_Unmatched_Cited
             (ckit.Unmatched_Cited (ckit.Unmatched r) ++ moved) r
    ∧ (length kept + length moved = length bs)%nat
    ∧ same_io st st' ∧ ckit.trace st' = ckit.trace st.
Proof.
  induction bs as [|b bs IH]; intros cited r st cited' r' st' Hrun.
  - cbn in Hrun. injection Hrun as <- <- <-. exists [], [].
    rewrite !app_nil_r. destruct r as [? ? ? ? [? ?] ?]. by repeat split.
  - cbn [ckit.filterCited] in Hrun. loop_round Hrun v st1 v'.
    destruct (ckit.sliceContains (ckit.Institution v') isil).
    + after_put Hrun IH kept moved.
      exists (b :: kept), moved. cbn in *. rewrite <- app_assoc.
      repeat split; try done; try lia; congruence.
    + after_put Hrun IH kept moved.
      exists kept, (b :: moved). cbn in *. rewrite <- app_assoc.
      repeat split; try done; try lia; congruence.
Qed.

(** Whatever the blobs hold, a filter call that returns has moved
    elements between the arrays of one direction and lost none. *)
Lemma applyInstitutionFilter_Ok r st r' st' :
  ckit.applyInstitutionFilter L r isil st = (Ok r', st') →
  ∃ kc mc kd md,
    r' = rearranged isil r kc mc kd md
    ∧ (length kc + length mc = length (ckit.Citing r))%nat
    ∧ (length kd + length md = length (ckit.Cited r))%nat
    ∧ same_io st st'
    ∧ ckit.trace st' = ckit.trace st ++ [ckit.EvFilter isil].
Proof.
  unfold ckit.applyInstitutionFilter. intros Hrun.
  apply bind_Ok in Hrun as ([] & st0 & Hemit & Hrun). injection Hemit as <-.
  apply bind_Ok in Hrun as ([citing r1] & st1 & H1 & Hrun).
  apply bind_Ok in Hrun as ([cited r2] & st2 & H2 & Hrun).
  injection Hrun as <- <-.
  apply filterCiting_Ok in H1 as (kc & mc & -> & -> & Hl1 & [Hw1 Hc1] & Ht1).
  apply filterCited_Ok in H2 as (kd & md & -> & -> & Hl2 & [Hw2 Hc2] & Ht2).
  exists kc, mc, kd, md. cbn in *. repeat split; try done; congruence.
Qed.

Lemma held_keyed b l v :
  ckit.json_institution L b = inr (Some l) →
  ckit.json_Unmarshal L b v = inr {| ckit.Institution := l |}
  ∧ held L isil b = ckit.sliceContains l isil.
Proof.
  intros Hkey. unfold ckit.json_Unmarshal, held, institution_of. by rewrite Hkey.
Qed.

(** One round of either loop, read forwards, on a blob that has the
    key. *)
Ltac keyed_round st b l Hl :=
  destruct (snippetPool_Get_total st) as (v & st1 & Hget);
  rewrite (bind_run _ _ _ _ _ Hget);
  destruct (held_keyed b l v Hl) as [-> ->]; cbn [ckit.Institution];
  destruct (ckit.sliceContains l isil); cbn [negb];
  erewrite bind_run by reflexivity.

Lemma filterCiting_keyed bs : ∀ citing r st,
  (∀ b, b ∈ bs → ∃ l, ckit.json_institution L b = inr (Some l)) →
  ∃ st',
    ckit.filterCiting L isil bs citing r st
    = (Ok (citing ++ List.filter (held L isil) bs,
           ckit.set_Unmatched_Citing
             (ckit.Unmatched_Citing (ckit.Unmatched r)
              ++ List.filter (λ b, negb (held L isil b)) bs) r), st').
Proof.
  induction bs as [|b bs IH]; intros citing r st Hkeyed.
  - exists st. cbn. rewrite !app_nil_r. by destruct r as [? ? ? ? [? ?] ?].
  - destruct (Hkeyed b) as [l Hl]; [by left|].
    assert (Hbs : ∀ b', b' ∈ bs → ∃ l', ckit.json_institution L b' = inr (Some l'))
      by (intros b' ?; apply Hkeyed; by right).
    cbn [ckit.filterCiting List.filter]. keyed_round st b l Hl.
    + edestruct (IH (citing ++ [b]) r) as [st' ->]; [done|].
      exists st'. by rewrite <- app_assoc.
    + edestruct (IH citing
                   (ckit.set_Unmatched_Citing
                      (ckit.Unmatched_Citing (ckit.Unmatched r) ++ [b]) r))
        as [st' ->]; [done|].
      exists st'. cbn. by rewrite <- app_assoc.
Qed.

Lemma filterCited_keyed bs : ∀ cited r st,
  (∀ b, b ∈ bs → ∃ l, ckit.json_institution L b = inr (Some l)) →
  ∃ st',
    ckit.filterCited L isil bs cited r st
    = (Ok (cited ++ List.filter (held L isil) bs,
           ckit.set_Unmatched_Cited
             (ckit.Unmatched_Cited (ckit.Unmatched r)
              ++ List.filter (λ b, negb (held L isil b)) bs) r), st').
Proof.
  induction bs as [|b bs IH]; intros cited r st Hkeyed.
  - exists st. cbn. rewrite !app_nil_r. by destruct r as [? ? ? ? [? ?] ?].
  - destruct (Hkeyed b) as [l Hl]; [by left|].
    assert (Hbs : ∀ b', b' ∈ bs → ∃ l', ckit.json_institution L b' = inr (Some l'))
      by (intros b' ?; apply Hkeyed; by right).
    cbn [ckit.filterCited List.filter]. keyed_round st b l Hl.
    + edestruct (IH (cited ++ [b]) r) as [st' ->]; [done|].
      exists st'. by rewrite <- app_assoc.
    + edestruct (IH cited
                   (ckit.set_Unmatched_Cited
                      (ckit.Unmatched_Cited (ckit.Unmatched r) ++ [b]) r))
        as [st' ->]; [done|].
      exists st'. cbn. by rewrite <- app_assoc.
Qed.

(** Where every blob carries the key, the code does what section 4.7
    says, whatever the pool holds. *)
Lemma applyInstitutionFilter_keyed r st :
  keyed L r →
  ∃ st', ckit.applyInstitutionFilter L r isil st = (Ok (holdings_filter L isil r), st').
Proof.
  intros Hkeyed. unfold ckit.applyInstitutionFilter.
  erewrite bind_run by reflexivity.
  edestruct (filterCiting_keyed (ckit.Citing r) [] r) as [st1 H1].
  { intros b Hb. apply Hkeyed. apply elem_of_app. by left. }
  erewrite bind_run by exact H1. cbn [ckit.set_Unmatched_Citing ckit.Cited].
  edestruct (filterCited_keyed (ckit.Cited r) []) as [st2 H2].
  { intros b Hb. apply Hkeyed. apply elem_of_app. by right. }
  erewrite bind_run by exact H2.
  exists st2. cbn. by destruct r as [? ? ? ? [? ?] ?].
Qed.
End FilterLoops.

Lemma filter_filter_same {A : Type} (p : A → bool) (l : list A) :
  List.filter p (List.filter p l) = List.filter p l
  ∧ List.filter (λ x, negb (p x)) (List.filter p l) = [].
Proof.
  induction l as [|x l [IH1 IH2]]; [done|].
  cbn. destruct (p x) eqn:Hp; [|done]. cbn. rewrite Hp. cbn. by rewrite IH1.
Qed.

(** The filter of section 4.7 is idempotent. *)
Lemma holdings_filter_idempotent L isil r :
  holdings_filter L isil (holdings_filter L isil r) = holdings_filter L isil r.
Proof.
  destruct r as [? ? citing cited [? ?] ?]. unfold holdings_filter. cbn.
  destruct (filter_filter_same (held L isil) citing) as [-> ->].
  destruct (filter_filter_same (held L isil) cited) as [-> ->].
  by rewrite !app_nil_r.
Qed.

(** C7, at a blob without the key: the Snippet taken from the pool still
    holds the array of the blob before, and the blob stays in [citing]
    where section 4.7 moves it to [unmatched.citing]. *)
Theorem applyInstitutionFilter_keeps_blob_without_key :
  let r := response_of [blob_with ["DE-14"]; blob_plain] [] in
  (ckit.applyInstitutionFilter ckit_sample_libs r "DE-14" (ckit_pool [])).1
  = Ok (rearranged "DE-14" r [blob_with ["DE-14"]; blob_plain] [] [] [])
  ∧ institution_of ckit_sample_libs blob_plain = []
  ∧ holdings_filter ckit_sample_libs "DE-14" r
    = rearranged "DE-14" r [blob_with ["DE-14"]] [blob_plain] [] [].
Proof. by vm_compute. Qed.

(** C8, from a pool that an earlier call left behind: the first call
    keeps the blob without the key, the second call moves it. *)
Theorem applyInstitutionFilter_twice_differs :
  let r := response_of [blob_plain; blob_with ["DE-15"]] [] in
  let left_behind :=
    (ckit.applyInstitutionFilter ckit_sample_libs
       (response_of [blob_with ["DE-14"]] []) "DE-14" (ckit_pool [])).2 in
  ckit.snippetPool left_behind = [ {| ckit.Institution := ["DE-14"] |} ]
  ∧ ∃ r1 st1 r2 st2,
      ckit.applyInstitutionFilter ckit_sample_libs r "DE-14"
        (ckit_pool (ckit.snippetPool left_behind)) = (Ok r1, st1)
      ∧ ckit.applyInstitutionFilter ckit_sample_libs r1 "DE-14" st1 = (Ok r2, st2)
      ∧ ckit.Citing r1 = [blob_plain]
      ∧ ckit.Citing r2 = []
      ∧ r2 ≠ r1.
Proof.
  split; [by vm_compute|].
  eexists _, _, _, _. split; [by vm_compute|]. split; [by vm_compute|].
  split; [by vm_compute|]. split; [by vm_compute|].
  intros Heq. apply (f_equal ckit.Citing) in Heq. vm_compute in Heq. discriminate Heq.
Qed.

(** ** The steps of the ckit handler *)

Lemma then_return_not_Ok {S A B : Type} (m : Run S A) st (b : B) st' :
  (m ≫= (λ _, return_)) st ≠ (Ok b, st').
Proof.
  unfold mbind, Run_bind, bind, return_. by destruct (m st) as [[a| | |] st1].
Qed.

Lemma serveCached_not_Ok L clk isil b st u st' :
  ckit.serveCached L clk isil b st ≠ (Ok u, st').
Proof.
  unfold ckit.serveCached. destruct (ckit.zstd_NewReader L); apply then_return_not_Ok.
Qed.

(** (0) lets the handler go on only when the cache is absent or misses;
    it has changed nothing then. *)
Lemma cacheProbe_Ok L clk id isil st u st' :
  ckit.cacheProbe L clk id isil st = (Ok u, st') →
  st' = st
  ∧ (ckit.cache st = None
     ∨ ∃ c err, ckit.cache st = Some c ∧ ckit.Cache_Get c id = inl err).
Proof.
  unfold ckit.cacheProbe. intros Hrun.
  apply bind_Ok in Hrun as (c & st1 & Hget & Hrun). injection Hget as <- <-.
  destruct (ckit.cache st) as [c|] eqn:Hc.
  - destruct (ckit.Cache_Get c id) as [err|b] eqn:Hg.
    + injection Hrun as <-. split; [done|]. right. by exists c, err.
    + by apply serveCached_not_Ok in Hrun.
  - injection Hrun as <-. split; [done|]. by left.
Qed.

Lemma resolveDOI_Ok L s id st doi st' :
  ckit.resolveDOI L s id st = (Ok doi, st') →
  st' = st ∧ GetContext (ckit.IdentifierDatabase s) (SelectVWhereK id) = inr doi.
Proof.
  unfold ckit.resolveDOI. destruct (GetContext _ _) as [err|d].
  - intros Hrun. by apply then_return_not_Ok in Hrun.
  - intros Hrun. by injection Hrun as <- <-.
Qed.

Lemma getEdges_Ok L s doi st ce st' :
  ckit.getEdges L s doi st = (Ok ce, st') →
  st' = st ∧ ckit.edges s doi = inr ce.
Proof.
  unfold ckit.getEdges. destruct (ckit.edges s doi) as [err|d].
  - intros Hrun. by apply then_return_not_Ok in Hrun.
  - intros Hrun. by injection Hrun as <- <-.
Qed.

Lemma mapToLocal_loop_inr L s batches : ∀ ids st ids' st',
  ckit.mapToLocal_loop L s batches ids st = (Ok (inr ids'), st') →
  ids' = ids ++ concat (map (in_rows (ckit.IdentifierDatabase s)) batches)
  ∧ st' = with_trace st (in_events batches).
Proof.
  induction batches as [|b batches IH]; intros ids st ids' st' Hrun.
  - cbn in Hrun. injection Hrun as <- <-. by rewrite app_nil_r, with_trace_nil.
  - cbn [ckit.mapToLocal_loop] in Hrun.
    apply bind_Ok in Hrun as ([] & st1 & Hemit & Hrun). injection Hemit as <-.
    destruct (ckit.sqlx_In L b); [discriminate|].
    apply bind_Ok in Hrun as ([] & st2 & Hemit & Hrun). injection Hemit as <-.
    unfold SelectContext in Hrun.
    destruct (fault _ _); [discriminate|].
    apply IH in Hrun as [-> ->]. split.
    + cbn. by rewrite <- app_assoc.
    + unfold with_trace. cbn. by rewrite <- !app_assoc.
Qed.

Lemma mapToLocal_inr L s dois st ids st' :
  ckit.mapToLocal L s dois st = (Ok (inr ids), st') →
  ∃ batches,
    ckit.batchedStrings dois 500 = Done batches
    ∧ ids = concat (map (in_rows (ckit.IdentifierDatabase s)) batches)
    ∧ st' = with_trace st (in_events batches).
Proof.
  unfold ckit.mapToLocal, ckit.mapToLocal_sized, ckit.size.
  destruct (ckit.batchedStrings dois 500) as [batches| |]; try discriminate.
  intros Hrun. apply mapToLocal_loop_inr in Hrun as [-> ->]. by exists batches.
Qed.

Lemma reverseMap_Ok L s ds st ids st' :
  ckit.reverseMap L s ds st = (Ok ids, st') →
  ckit.mapToLocal L s (ckit.Slice_order L ds) st = (Ok (inr ids), st').
Proof.
  unfold ckit.reverseMap. intros Hrun.
  apply bind_Ok in Hrun as ([err|ids'] & st1 & Hmap & Hrun).
  - by apply then_return_not_Ok in Hrun.
  - by injection Hrun as <- <-.
Qed.

(** The unmatched arrays after step (5) over the keys [ks]. *)
Lemma recordUnmatched_Ok L outbound inbound ks : ∀ response st response' st',
  ckit.recordUnmatched L outbound inbound ks response st = (Ok response', st') →
  st' = st
  ∧ response'
    = ckit.set_Unmatched_Cited
        (ckit.Unmatched_Cited (ckit.Unmatched response)
         ++ map (ckit.unmatchedBlob L)
              (List.filter (λ k, negb (bool_decide (k ∈ outbound))) ks))
        (ckit.set_Unmatched_Citing
           (ckit.Unmatched_Citing (ckit.Unmatched response)
            ++ map (ckit.unmatchedBlob L)
                 (List.filter (λ k, bool_decide (k ∈ outbound)) ks))
           response)
  ∧ Forall (λ k, k ∈ outbound ∨ k ∈ inbound) ks.
Proof.
  induction ks as [|k ks IH]; intros response st response' st' Hrun.
  - cbn in Hrun. injection Hrun as <- <-. cbn. rewrite !app_nil_r.
    destruct response as [? ? ? ? [? ?] ?]. by repeat split.
  - cbn [ckit.recordUnmatched] in Hrun. cbn [List.filter].
    destruct (bool_decide_reflect (k ∈ outbound)) as [Hout|Hout]; cbn [negb].
    + apply IH in Hrun as (-> & -> & Hall). split; [done|]. split.
      * cbn. by rewrite <- app_assoc.
      * constructor; [by left|done].
    + destruct (bool_decide_reflect (k ∈ inbound)) as [Hin|Hin]; [|discriminate].
      apply IH in Hrun as (-> & -> & Hall). split; [done|]. split.
      * cbn. by rewrite <- app_assoc.
      * constructor; [by right|done].
Qed.

Lemma recordUnmatched_total L outbound inbound ks : ∀ response st,
  Forall (λ k, k ∈ outbound ∨ k ∈ inbound) ks →
  ∃ response',
    ckit.recordUnmatched L outbound inbound ks response st = (Ok response', st).
Proof.
  induction ks as [|k ks IH]; intros response st Hall.
  - by eexists.
  - inversion Hall as [|? ? Hk Hks]; subst. cbn [ckit.recordUnmatched].
    destruct (bool_decide_reflect (k ∈ outbound)) as [Hout|Hout]; [by apply IH|].
    destruct (bool_decide_reflect (k ∈ inbound)) as [Hin|Hin]; [by apply IH|].
    by destruct Hk.
Qed.

Lemma recordUnmatched_panics L outbound inbound ks : ∀ response st,
  Exists (λ k, (k ∉ outbound) ∧ (k ∉ inbound)) ks →
  ckit.recordUnmatched L outbound inbound ks response st
  = (Panicked "cosmic rays detected (in-flight change of inbound or outbound values)", st).
Proof.
  induction ks as [|k ks IH]; intros response st Hex; [by inversion Hex|].
  cbn [ckit.recordUnmatched].
  destruct (bool_decide_reflect (k ∈ outbound)) as [Hout|Hout].
  - apply IH. inversion Hex as [? ? [? ?]|]; subst; done.
  - destruct (bool_decide_reflect (k ∈ inbound)) as [Hin|Hin]; [|done].
    apply IH. inversion Hex as [? ? [? ?]|]; subst; done.
Qed.

Lemma citing_rows_cons outbound v ids :
  citing_rows outbound (v :: ids)
  = if bool_decide (Value v ∈ outbound) then v :: citing_rows outbound ids
    else citing_rows outbound ids.
Proof. reflexivity. Qed.

Lemma cited_rows_cons outbound inbound v ids :
  cited_rows outbound inbound (v :: ids)
  = if negb (bool_decide (Value v ∈ outbound)) && bool_decide (Value v ∈ inbound)
    then v :: cited_rows outbound inbound ids
    else cited_rows outbound inbound ids.
Proof. reflexivity. Qed.

Lemma omap_fetched_cons s v rows :
  omap (fetched s) (v :: rows)
  = match ckit.IndexData s (Key v) with
    | inr b => b :: omap (fetched s) rows
    | inl _ => omap (fetched s) rows
    end.
Proof. cbn. unfold fetched at 1. by destruct (ckit.IndexData s (Key v)). Qed.

(** The matched arrays after step (6) over the rows [ids]: a row whose
    blob is missing adds nothing. *)
Lemma hydrate_Ok L s outbound inbound ids : ∀ response st response' st',
  ckit.hydrate L s outbound inbound ids response st = (Ok response', st') →
  st' = st
  ∧ response'
    = ckit.set_Cited
        (ckit.Cited response ++ omap (fetched s) (cited_rows outbound inbound ids))
        (ckit.set_Citing
           (ckit.Citing response ++ omap (fetched s) (citing_rows outbound ids))
           response).
Proof.
  induction ids as [|v ids IH]; intros response st response' st' Hrun.
  - cbn in Hrun. injection Hrun as <- <-. cbn. rewrite !app_nil_r.
    by destruct response.
  - cbn [ckit.hydrate] in Hrun. rewrite citing_rows_cons, cited_rows_cons.
    destruct (ckit.IndexData s (Key v)) as [err|b] eqn:Hfetch.
    + destruct (errors_Is err ErrBlobNotFound);
        [|by apply then_return_not_Ok in Hrun].
      apply IH in Hrun as [-> ->]. split; [done|].
      destruct (bool_decide (Value v ∈ outbound)),
               (bool_decide (Value v ∈ inbound)); cbn [negb andb];
        rewrite ?omap_fetched_cons, ?Hfetch; done.
    + destruct (bool_decide (Value v ∈ outbound)); cbn [negb andb].
      * apply IH in Hrun as [-> ->]. split; [done|].
        rewrite omap_fetched_cons, Hfetch. cbn. by rewrite <- app_assoc.
      * destruct (bool_decide (Value v ∈ inbound)).
        -- apply IH in Hrun as [-> ->]. split; [done|].
           rewrite omap_fetched_cons, Hfetch. cbn. by rewrite <- app_assoc.
        -- apply IH in Hrun as [-> ->]. by split.
Qed.

Lemma foldl_snoc_Value (ids : list Map) (acc : list string) :
  foldl (λ acc v, acc ++ [Value v]) acc ids = acc ++ (Value <$> ids).
Proof.
  revert acc. induction ids as [|v ids IH]; intros acc; cbn.
  - by rewrite app_nil_r.
  - rewrite IH. by rewrite <- app_assoc.
Qed.

(** Steps (1) to (6): a run that reaches step (7) has read the DOI, the
    edges and the rows of the reverse mapping, and has built the response
    from them; it has written nothing and sent the batches to the
    identifier table. *)
Lemma assemble_Ok L s clk id st response st' :
  ckit.assemble L s clk id st = (Ok response, st') →
  ∃ doi citing cited batches,
    let ds := ckit.collectOutbound citing ∪ ckit.collectInbound cited in
    let ids := concat (map (in_rows (ckit.IdentifierDatabase s)) batches) in
    GetContext (ckit.IdentifierDatabase s) (SelectVWhereK id) = inr doi
    ∧ ckit.edges s doi = inr (citing, cited)
    ∧ ds ≠ ∅
    ∧ ckit.batchedStrings (ckit.Slice_order L ds) 500 = Done batches
    ∧ response = assembled L s clk id doi citing cited ids
    ∧ st' = with_trace st (in_events batches).
Proof.
  unfold ckit.assemble. intros Hrun.
  apply bind_Ok in Hrun as (doi & st1 & Hdoi & Hrun).
  apply resolveDOI_Ok in Hdoi as [-> Hdoi].
  apply bind_Ok in Hrun as ([citing cited] & st2 & Hedges & Hrun).
  apply getEdges_Ok in Hedges as [-> Hedges]. cbn [ckit.set_DOI ckit.DOI] in Hedges.
  destruct (bool_decide_reflect
              (ckit.collectOutbound citing ∪ ckit.collectInbound cited = ∅))
    as [Hempty|Hne]; [by apply then_return_not_Ok in Hrun|].
  apply bind_Ok in Hrun as (ids & st3 & Hmap & Hrun).
  apply reverseMap_Ok, mapToLocal_inr in Hmap as (batches & Hb & -> & ->).
  apply bind_Ok in Hrun as (r5 & st4 & H5 & Hrun).
  apply recordUnmatched_Ok in H5 as (-> & -> & _).
  apply bind_Ok in Hrun as (r6 & st5 & H6 & Hrun).
  apply hydrate_Ok in H6 as (-> & ->).
  injection Hrun as <- <-.
  exists doi, citing, cited, batches. cbn zeta. repeat split; try done.
  unfold assembled, unmatched_citing, unmatched_cited.
  rewrite foldl_snoc_Value. reflexivity.
Qed.

(** (7): either nothing happens, or the response is stamped as cached
    and its compressed encoding is handed to the cache. *)
Lemma cacheExpensive_Ok L s clk response st response' st' :
  ckit.cacheExpensive L s clk response st = (Ok response', st') →
  (response' = response ∧ st' = st
   ∧ (ckit.cache st = None
      ∨ ckit.since_cache_trigger clk <= ckit.CacheTriggerDuration s))
  ∨ (∃ c b z,
       ckit.cache st = Some c
       ∧ ckit.CacheTriggerDuration s < ckit.since_cache_trigger clk
       ∧ response' = ckit.set_Cached true response
       ∧ ckit.json_Marshal L response' = inr b
       ∧ ckit.zstd_Close L (b ++ newline) = inr z
       ∧ ((ckit.Cache_Set c (ckit.ID response') z).2 = None
          ∨ (ckit.Cache_Set c (ckit.ID response') z).2 = Some ErrReadOnly)
       ∧ st' = after_cache_set st c response' z).
Proof.
  unfold ckit.cacheExpensive. intros Hrun.
  apply bind_Ok in Hrun as (c & st1 & Hget & Hrun). injection Hget as <- <-.
  destruct (ckit.cache st) as [c|] eqn:Hc; cbn [bool_decide andb] in Hrun.
  2: { injection Hrun as <- <-. left. repeat split; by left. }
  rewrite bool_decide_eq_true_2 in Hrun by done. cbn [andb] in Hrun.
  destruct (Z.ltb_spec (ckit.CacheTriggerDuration s) (ckit.since_cache_trigger clk))
    as [Hlt|Hge].
  2: { injection Hrun as <- <-. left. repeat split; by right. }
  right. apply bind_Ok in Hrun as (err & st2 & Hwrap & Hrun).
  destruct err as [err|]; [by apply then_return_not_Ok in Hrun|].
  injection Hrun as <- <-.
  unfold ckit.wrap in Hwrap.
  destruct (ckit.zstd_NewWriter L); [discriminate|].
  apply bind_Ok in Hwrap as ([] & st3 & Hemit & Hwrap). injection Hemit as <-.
  destruct (ckit.json_Marshal L _) as [?|b] eqn:Hb; [discriminate|].
  destruct (ckit.zstd_Close L _) as [?|z] eqn:Hz; [discriminate|].
  apply bind_Ok in Hwrap as (err & st4 & Hset & Hwrap).
  unfold ckit.Cache_Set_M in Hset. cbn [ckit.cache] in Hset. rewrite Hc in Hset.
  destruct (ckit.Cache_Set c _ z) as [c' e] eqn:Hcs.
  injection Hset as <- <-.
  exists c, b, z. rewrite Hcs. cbn [snd fst].
  assert (He : e = None ∨ e = Some ErrReadOnly).
  { destruct e as [e|]; [|by left]. right.
    destruct (bool_decide_reflect (e = ErrReadOnly)); [by subst|discriminate]. }
  assert (st2 = after_cache_set st c (ckit.set_Cached true response) z) as ->.
  { unfold after_cache_set. rewrite Hcs. cbn.
    destruct e as [e|]; [destruct (bool_decide (e = ErrReadOnly)); [|discriminate]|];
      injection Hwrap as <-; cbn; by rewrite <- app_assoc. }
  by repeat split.
Qed.

(** (8) and (9): the response, filtered when [i] is given, is encoded
    and written. *)
Lemma filterAndSend_Ok L isil response st u st' :
  ckit.filterAndSend L isil response st = (Ok u, st') →
  ∃ served st1 b,
    ((isil = "" ∧ served = response ∧ st1 = st)
     ∨ (isil ≠ "" ∧ ckit.applyInstitutionFilter L response isil st = (Ok served, st1)))
    ∧ ckit.json_Marshal L served = inr b
    ∧ st' = after_send st1 served b.
Proof.
  unfold ckit.filterAndSend. intros Hrun.
  apply bind_Ok in Hrun as (served & st1 & Hfilter & Hrun).
  apply bind_Ok in Hrun as (err & st2 & Henc & Hrun).
  destruct err as [err|]; [by apply then_return_not_Ok in Hrun|].
  injection Hrun as <-.
  unfold ckit.Encode in Henc.
  apply bind_Ok in Henc as ([] & st3 & Hemit & Henc). injection Hemit as <-.
  destruct (ckit.json_Marshal L served) as [?|b] eqn:Hb; [discriminate|].
  apply bind_Ok in Henc as ([] & st4 & Hw & Henc). injection Hw as <-.
  injection Henc as <-.
  exists served, st1, b. split; [|by split].
  destruct (bool_decide_reflect (isil ≠ "")) as [Hne|Heq].
  - right. by split.
  - left. injection Hfilter as <- <-. split; [|done].
    by destruct (decide (isil = "")).
Qed.

(** The state a request starts from. *)
Lemma serve_Ok L s clk r c pool st :
  ckit.serve L s clk r c pool = (Ok tt, st) →
  ∃ st0 st1 response response',
    st0 = {| ckit.w := Header_Add "Content-Type" "application/json" new_writer;
             ckit.cache := c; ckit.snippetPool := pool; ckit.trace := [] |}
    ∧ ckit.cacheProbe L clk (req_id r) (req_i r) st0 = (Ok tt, st0)
    ∧ ckit.assemble L s clk (req_id r) st0 = (Ok response, st1)
    ∧ ∃ st2, ckit.cacheExpensive L s clk response st1 = (Ok response', st2)
             ∧ ckit.filterAndSend L (req_i r) response' st2 = (Ok tt, st).
Proof.
  unfold ckit.serve, ckit.handleLocalIdentifier. intros Hrun.
  apply bind_Ok in Hrun as ([] & st0 & Hhdr & Hrun). injection Hhdr as <-.
  apply bind_Ok in Hrun as ([] & st0' & Hprobe & Hrun).
  pose proof (cacheProbe_Ok _ _ _ _ _ _ _ Hprobe) as [-> _].
  apply bind_Ok in Hrun as (response & st1 & Hasm & Hrun).
  apply bind_Ok in Hrun as (response' & st2 & Hexp & Hrun).
  eexists _, st1, response, response'. split; [reflexivity|].
  split; [done|]. split; [done|]. by exists st2.
Qed.

(** ** Counting *)

Lemma wrap64_le z : - 2 ^ 63 <= z → wrap64 z <= z.
Proof.
  intros Hz. unfold wrap64.
  pose proof (Z.mod_pos_bound (z + 2 ^ 63) (2 ^ 64) ltac:(lia)) as Hm.
  pose proof (Z.div_mod (z + 2 ^ 63) (2 ^ 64) ltac:(lia)) as Hd.
  assert (0 <= (z + 2 ^ 63) / 2 ^ 64) by (apply Z.div_pos; lia).
  nia.
Qed.

(** Whatever the sizes, batches that [batchedStrings] returns cover the
    input. *)
Lemma batchedStrings_loop_sound fuel : ∀ (ss : list string) n b e acc bs,
  1 <= n → 0 <= b → e <= b + n →
  ckit.batchedStrings_loop fuel ss n b e acc = Done bs →
  ∃ tl, bs = acc ++ tl
        ∧ concat tl = drop (Z.to_nat b) ss
        ∧ Forall (λ x, len x <= n) tl.
Proof.
  induction fuel as [|fuel IH]; intros ss n b e acc bs Hn Hb He Hrun; [discriminate|].
  cbn [ckit.batchedStrings_loop] in Hrun.
  destruct (Z.leb_spec (len ss) e) as [Hle|Hgt].
  - unfold slice_from in Hrun.
    destruct ((0 <=? b) && (b <=? len ss)) eqn:Hbounds; [|discriminate].
    apply andb_prop in Hbounds as [_ Hb2%Z.leb_le].
    injection Hrun as <-. exists [drop (Z.to_nat b) ss]. split; [done|]. split.
    + cbn. by rewrite app_nil_r.
    + constructor; [|constructor]. unfold len in *. rewrite length_drop. lia.
  - unfold slice in Hrun.
    destruct ((0 <=? b) && (b <=? e) && (e <=? len ss)) eqn:Hbounds; [|discriminate].
    apply andb_prop in Hbounds as [[_ Hbe%Z.leb_le]%andb_prop Hel%Z.leb_le].
    apply IH in Hrun as (tl & -> & Hcat & Hall); [|lia|lia|apply wrap64_le; lia].
    exists (take (Z.to_nat (e - b)) (drop (Z.to_nat b) ss) :: tl). split.
    + by rewrite <- app_assoc.
    + split.
      * cbn. rewrite Hcat.
        replace (Z.to_nat e) with (Z.to_nat b + Z.to_nat (e - b))%nat by lia.
        rewrite <- drop_drop. apply take_drop.
      * constructor; [|done]. unfold len. rewrite length_take. lia.
Qed.

Lemma batchedStrings_sound (ss : list string) n bs :
  1 <= n →
  ckit.batchedStrings ss n = Done bs →
  concat bs = ss ∧ Forall (λ x, len x <= n) bs.
Proof.
  intros Hn Hrun. unfold ckit.batchedStrings in Hrun.
  apply batchedStrings_loop_sound in Hrun as (tl & -> & Hcat & Hall); [|lia..].
  by split.
Qed.

Lemma universe_rows_in_rows s (ds : gset string) (xs : list string) :
  xs ≡ₚ elements ds →
  in_rows (ckit.IdentifierDatabase s) xs = universe_rows s ds.
Proof.
  intros Hp. unfold in_rows, universe_rows.
  induction (table (ckit.IdentifierDatabase s)) as [|r l IH]; [done|].
  cbn. rewrite IH.
  replace (bool_decide (Value r ∈ xs)) with (bool_decide (Value r ∈ ds)); [done|].
  apply bool_decide_ext. rewrite Hp. by rewrite elem_of_elements.
Qed.

(** The rows of the reverse mapping are the rows of the universe, in
    some order. *)
Lemma reverse_rows_perm L s (ds : gset string) batches :
  ckit.batchedStrings (ckit.Slice_order L ds) 500 = Done batches →
  concat (map (in_rows (ckit.IdentifierDatabase s)) batches) ≡ₚ universe_rows s ds.
Proof.
  intros Hb. apply batchedStrings_sound in Hb as [Hcat _]; [|lia].
  pose proof (iter_perm (ckit.Slice_order L) ds) as Hp.
  rewrite in_rows_concat.
  - rewrite Hcat. by rewrite (universe_rows_in_rows s ds).
  - rewrite Hcat, Hp. apply NoDup_elements.
Qed.

Lemma NoDup_List_filter {A : Type} (p : A → bool) (l : list A) :
  NoDup l → NoDup (List.filter p l).
Proof.
  induction 1 as [|x l Hx Hnd IH]; cbn; [constructor|].
  destruct (p x); [|done]. constructor; [|done].
  intros Hin. apply Hx. apply list_elem_of_In, filter_In in Hin as [Hin _].
  by apply list_elem_of_In.
Qed.

Lemma count_members (l : list string) (p : string → bool) (X : gset string) :
  NoDup l →
  (∀ x, x ∈ X ↔ x ∈ l ∧ p x = true) →
  length (List.filter p l) = size X.
Proof.
  intros Hnd HX. unfold size, set_size. cbn. apply Permutation_length.
  apply NoDup_Permutation.
  - by apply NoDup_List_filter.
  - apply NoDup_elements.
  - intros x. rewrite elem_of_elements, HX.
    rewrite list_elem_of_In, filter_In, <- list_elem_of_In. done.
Qed.

Lemma filter_Value (p : string → bool) (rows : list Map) :
  length (List.filter (λ r, p (Value r)) rows)
  = length (List.filter p (Value <$> rows)).
Proof.
  induction rows as [|r rows IH]; [done|]. cbn. destruct (p (Value r)); cbn; lia.
Qed.

Lemma omap_fetched_length s (rows : list Map) :
  Forall (λ r, fetched s r ≠ None) rows →
  length (omap (fetched s) rows) = length rows.
Proof.
  induction 1 as [|r rows Hr _ IH]; [done|]. cbn.
  destruct (fetched s r); [|done]. cbn. by rewrite IH.
Qed.

Lemma size_split (X M : gset string) : (size (X ∩ M) + size (X ∖ M) = size X)%nat.
Proof.
  rewrite <- size_union.
  - f_equal. apply set_eq. intros x.
    rewrite elem_of_union, elem_of_intersection, elem_of_difference.
    destruct (decide (x ∈ M)); tauto.
  - intros x. rewrite elem_of_intersection, elem_of_difference. tauto.
Qed.

(** With a blob for every row and one row for every DOI, the arrays of
    one direction hold one element for each DOI of that direction; a DOI
    of both directions counts as outbound. *)
Lemma assembled_sums L s clk id doi citing cited ids :
  let outbound := ckit.collectOutbound citing in
  let inbound := ckit.collectInbound cited in
  let r := assembled L s clk id doi citing cited ids in
  ids ≡ₚ universe_rows s (outbound ∪ inbound) →
  blobs_found s (outbound ∪ inbound) = true →
  one_row_per_doi s (outbound ∪ inbound) = true →
  len (ckit.Citing r) + len (ckit.Unmatched_Citing (ckit.Unmatched r))
  = Z.of_nat (size outbound)
  ∧ len (ckit.Cited r) + len (ckit.Unmatched_Cited (ckit.Unmatched r))
    = Z.of_nat (size (inbound ∖ outbound)).
Proof.
  intros outbound inbound r Hids Hfound Hone. subst r. unfold assembled. cbn.
  fold outbound inbound.
  set (M := list_to_set (Value <$> ids) : gset string).
  set (ks := ckit.range_order L ((outbound ∪ inbound) ∖ M)).
  assert (Hks : ks ≡ₚ elements ((outbound ∪ inbound) ∖ M)) by apply iter_perm.
  assert (Hks_nd : NoDup ks) by (rewrite Hks; apply NoDup_elements).
  assert (Hks_in : ∀ x, x ∈ ks ↔ x ∈ (outbound ∪ inbound) ∖ M)
    by (intros x; by rewrite Hks, elem_of_elements).
  assert (Hnd : NoDup (Value <$> ids)).
  { rewrite Hids. unfold one_row_per_doi in Hone. by apply bool_decide_eq_true in Hone. }
  assert (HM : ∀ x, x ∈ M ↔ x ∈ Value <$> ids)
    by (intros x; unfold M; by rewrite elem_of_list_to_set).
  assert (Hall : Forall (λ v, fetched s v ≠ None) ids).
  { rewrite Hids. unfold blobs_found in Hfound.
    rewrite forallb_forall in Hfound. apply Forall_forall. intros v Hv Hnone.
    apply list_elem_of_In, Hfound in Hv. by rewrite Hnone in Hv. }
  assert (Hsub : ∀ p, Forall (λ v, fetched s v ≠ None) (List.filter p ids)).
  { intros p. apply Forall_forall. intros v Hv.
    apply list_elem_of_In, filter_In in Hv as [Hv _].
    rewrite Forall_forall in Hall. by apply Hall, list_elem_of_In. }
  unfold len, unmatched_citing, unmatched_cited, citing_rows, cited_rows.
  rewrite !length_map, !omap_fetched_length by apply Hsub.
  assert (E1 : length (List.filter (λ v, bool_decide (Value v ∈ outbound)) ids)
               = size (outbound ∩ M)).
  { set (p := λ x : string, bool_decide (x ∈ outbound)).
    change (length (List.filter (λ v, p (Value v)) ids) = size (outbound ∩ M)).
    rewrite filter_Value. apply count_members; [done|]. intros x. subst p. cbn beta.
    rewrite bool_decide_eq_true, elem_of_intersection, HM. tauto. }
  assert (E2 : length (List.filter (λ k, bool_decide (k ∈ outbound)) ks)
               = size (outbound ∖ M)).
  { apply count_members; [done|]. intros x.
    rewrite bool_decide_eq_true, Hks_in, !elem_of_difference, elem_of_union. tauto. }
  assert (E3 : length (List.filter
                         (λ v, negb (bool_decide (Value v ∈ outbound))
                               && bool_decide (Value v ∈ inbound)) ids)
               = size ((inbound ∖ outbound) ∩ M)).
  { set (p := λ x : string,
               negb (bool_decide (x ∈ outbound)) && bool_decide (x ∈ inbound)).
    change (length (List.filter (λ v, p (Value v)) ids)
            = size ((inbound ∖ outbound) ∩ M)).
    rewrite filter_Value. apply count_members; [done|]. intros x. subst p. cbn beta.
    rewrite andb_true_iff, negb_true_iff, bool_decide_eq_false, bool_decide_eq_true,
      elem_of_intersection, elem_of_difference, HM. tauto. }
  assert (E4 : length (List.filter (λ k, negb (bool_decide (k ∈ outbound))) ks)
               = size ((inbound ∖ outbound) ∖ M)).
  { apply count_members; [done|]. intros x.
    rewrite negb_true_iff, bool_decide_eq_false, Hks_in, !elem_of_difference,
      elem_of_union. tauto. }
  rewrite E1, E2, E3, E4.
  pose proof (size_split outbound M). pose proof (size_split (inbound ∖ outbound) M).
  lia.
Qed.

Lemma rearranged_counts isil r kc mc kd md :
  (length kc + length mc = length (ckit.Citing r))%nat →
  (length kd + length md = length (ckit.Cited r))%nat →
  let r' := rearranged isil r kc mc kd md in
  counts_are_lengths r'
  ∧ ckit.CitingCount (ckit.Extra r') + ckit.UnmatchedCitingCount (ckit.Extra r')
    = len (ckit.Citing r) + len (ckit.Unmatched_Citing (ckit.Unmatched r))
  ∧ ckit.CitedCount (ckit.Extra r') + ckit.UnmatchedCitedCount (ckit.Extra r')
    = len (ckit.Cited r) + len (ckit.Unmatched_Cited (ckit.Unmatched r)).
Proof.
  intros Hc Hd. destruct r as [? ? citing cited [uc ud] ?].
  unfold rearranged, counts_are_lengths. cbn in *. unfold len.
  rewrite !length_app. repeat split; lia.
Qed.

Lemma assembled_counts L s clk id doi citing cited ids :
  counts_are_lengths (assembled L s clk id doi citing cited ids)
  ∧ counts_are_lengths
      (ckit.set_Cached true (assembled L s clk id doi citing cited ids)).
Proof. by repeat split. Qed.

(** C2, as the code has it: the four counts of a response built by the
    pipeline are the lengths of its four arrays; the two counts of the
    outbound direction add up to the number of distinct outbound DOIs,
    and those of the inbound direction to the number of distinct inbound
    DOIs that are not outbound as well, when every row of the identifier
    table for these DOIs has a blob and no DOI has two rows. *)
Theorem count_consistency (L : ckit.Libs) (s : ckit.Server) (clk : ckit.Clock)
    (r : Request) (c : option ckit.Cache) (pool : list ckit.Snippet) (st : ckit.State) :
  ckit.serve L s clk r c pool = (Ok tt, st) →
  ∃ doi citing cited served b,
    GetContext (ckit.IdentifierDatabase s) (SelectVWhereK (req_id r)) = inr doi
    ∧ ckit.edges s doi = inr (citing, cited)
    ∧ last (ckit.trace st) = Some (ckit.EvMarshal served)
    ∧ ckit.json_Marshal L served = inr b
    ∧ status (ckit.w st) = Some 200
    ∧ body (ckit.w st) = b ++ newline
    ∧ counts_are_lengths served
    ∧ (let outbound := ckit.collectOutbound citing in
       let inbound := ckit.collectInbound cited in
       blobs_found s (outbound ∪ inbound) = true →
       one_row_per_doi s (outbound ∪ inbound) = true →
       ckit.CitingCount (ckit.Extra served) + ckit.UnmatchedCitingCount (ckit.Extra served)
       = Z.of_nat (size outbound)
       ∧ ckit.CitedCount (ckit.Extra served) + ckit.UnmatchedCitedCount (ckit.Extra served)
         = Z.of_nat (size (inbound ∖ outbound))).
Proof.
  intros Hrun.
  apply serve_Ok in Hrun as (st0 & st1 & response & response' & -> & _ & Hasm & st2 & Hexp & Hsend).
  apply assemble_Ok in Hasm as (doi & citing & cited & batches & Hdoi & Hedges & _ & Hb & -> & ->).
  set (ids := concat (map (in_rows (ckit.IdentifierDatabase s)) batches)) in *.
  set (A := assembled L s clk (req_id r) doi citing cited ids) in *.
  pose proof (reverse_rows_perm L s _ _ Hb) as Hperm. fold ids in Hperm.
  pose proof (assembled_sums L s clk (req_id r) doi citing cited ids) as Hsums.
  cbn zeta in Hsums. fold A in Hsums. specialize (Hsums Hperm).
  destruct (assembled_counts L s clk (req_id r) doi citing cited ids) as [HcA HcA'].
  fold A in HcA, HcA'.
  apply filterAndSend_Ok in Hsend as (served & st3 & b & Hfilter & Hmar & ->).
  exists doi, citing, cited, served, b.
  split; [done|]. split; [done|].
  split; [unfold after_send; cbn [ckit.trace]; by rewrite last_snoc|]. split; [done|].
  assert (Hw2 : ckit.w st2 = Header_Add "Content-Type" "application/json" new_writer
                ∧ ckit.Citing response' = ckit.Citing A
                ∧ ckit.Cited response' = ckit.Cited A
                ∧ ckit.Unmatched response' = ckit.Unmatched A
                ∧ counts_are_lengths response').
  { apply cacheExpensive_Ok in Hexp
      as [(-> & -> & _)|(c0 & b0 & z0 & _ & _ & -> & _ & _ & _ & ->)];
      by repeat split. }
  destruct Hw2 as (Hw2 & HC & HD & HU & Hcl).
  assert (Hw3 : ckit.w st3 = ckit.w st2
                ∧ counts_are_lengths served
                ∧ ckit.CitingCount (ckit.Extra served)
                  + ckit.UnmatchedCitingCount (ckit.Extra served)
                  = len (ckit.Citing A) + len (ckit.Unmatched_Citing (ckit.Unmatched A))
                ∧ ckit.CitedCount (ckit.Extra served)
                  + ckit.UnmatchedCitedCount (ckit.Extra served)
                  = len (ckit.Cited A) + len (ckit.Unmatched_Cited (ckit.Unmatched A))).
  { destruct Hfilter as [(_ & -> & ->)|(_ & Hf)].
    - split; [done|]. split; [done|].
      destruct Hcl as (-> & -> & -> & ->). by rewrite HC, HD, HU.
    - apply applyInstitutionFilter_Ok in Hf
        as (kc & mc & kd & md & -> & Hl1 & Hl2 & [Hw _] & _).
      split; [done|].
      destruct (rearranged_counts (req_i r) response' kc mc kd md Hl1 Hl2)
        as (? & -> & ->).
      split; [done|]. by rewrite HC, HD, HU. }
  destruct Hw3 as (Hw3 & Hcs & Hs1 & Hs2).
  cbn [after_send ckit.w]. rewrite Hw3, Hw2.
  split; [done|]. split; [done|]. split; [done|].
  intros Hfound Hone. rewrite Hs1, Hs2. by apply Hsums.
Qed.

Lemma count_consistency_witness :
  let run :=
    ckit.serve ckit_sample_libs happy_server quick (request "L1" "") None [] in
  (∃ doi citing cited served b,
     GetContext (ckit.IdentifierDatabase happy_server) (SelectVWhereK "L1") = inr doi
     ∧ ckit.edges happy_server doi = inr (citing, cited)
     ∧ last (ckit.trace run.2) = Some (ckit.EvMarshal served)
     ∧ ckit.json_Marshal ckit_sample_libs served = inr b
     ∧ status (ckit.w run.2) = Some 200
     ∧ body (ckit.w run.2) = b ++ newline
     ∧ counts_are_lengths served
     ∧ (let outbound := ckit.collectOutbound citing in
        let inbound := ckit.collectInbound cited in
        blobs_found happy_server (outbound ∪ inbound) = true →
        one_row_per_doi happy_server (outbound ∪ inbound) = true →
        ckit.CitingCount (ckit.Extra served)
        + ckit.UnmatchedCitingCount (ckit.Extra served)
        = Z.of_nat (size outbound)
        ∧ ckit.CitedCount (ckit.Extra served)
          + ckit.UnmatchedCitedCount (ckit.Extra served)
          = Z.of_nat (size (inbound ∖ outbound))))
  ∧ blobs_found happy_server ({["10.1/d2"]} ∪ {["10.1/d3"]}) = true
  ∧ one_row_per_doi happy_server ({["10.1/d2"]} ∪ {["10.1/d3"]}) = true.
Proof.
  cbn zeta. split; [|split; vm_compute; reflexivity].
  apply (count_consistency ckit_sample_libs happy_server quick (request "L1" "") None []).
  vm_compute. reflexivity.
Defined.

(** C2 as stated fails in three ways: a row whose blob is missing is
    counted nowhere, a DOI with two local records is counted twice, and
    a DOI of both directions is counted as outbound only. *)
Lemma counts_differ_from_distinct_dois :
  (∃ st served,
     ckit.serve ckit_sample_libs blob_missing_server quick (request "L1" "") None []
     = (Ok tt, st)
     ∧ last_marshalled st = Some served
     ∧ citing_total served = 0
     ∧ size (ckit.collectOutbound [row "10.1/d1" "10.1/d2"]) = 1%nat)
  ∧ (∃ st served,
       ckit.serve ckit_sample_libs two_records_server quick (request "L1" "") None []
       = (Ok tt, st)
       ∧ last_marshalled st = Some served
       ∧ citing_total served = 2
       ∧ size (ckit.collectOutbound [row "10.1/d1" "10.1/d2"]) = 1%nat)
  ∧ (∃ st served,
       ckit.serve ckit_sample_libs both_ways_server quick (request "L1" "") None []
       = (Ok tt, st)
       ∧ last_marshalled st = Some served
       ∧ cited_total served = 0
       ∧ size (ckit.collectInbound [row "10.1/d2" "10.1/d1"]) = 1%nat).
Proof.
  repeat split; eexists _, _; (split; [by vm_compute|]); by vm_compute.
Qed.

(** ** Unmatched bookkeeping *)

(** Step (5) of package ckit: a key that is outbound goes to
    [Unmatched.Citing], one that is inbound only to [Unmatched.Cited],
    and a key that is neither makes the handler panic. *)
Lemma ckit_unmatched_classification (L : ckit.Libs) (outbound inbound : gset string)
    (ks : list string) (response : ckit.Response) (st : ckit.State) :
  (Forall (λ k, k ∈ outbound ∨ k ∈ inbound) ks →
   ∃ response',
     ckit.recordUnmatched L outbound inbound ks response st = (Ok response', st)
     ∧ ckit.Unmatched_Citing (ckit.Unmatched response')
       = ckit.Unmatched_Citing (ckit.Unmatched response)
         ++ unmatched_citing L outbound ks
     ∧ ckit.Unmatched_Cited (ckit.Unmatched response')
       = ckit.Unmatched_Cited (ckit.Unmatched response)
         ++ unmatched_cited L outbound ks)
  ∧ (Exists (λ k, (k ∉ outbound) ∧ (k ∉ inbound)) ks →
     (ckit.recordUnmatched L outbound inbound ks response st).1
     = Panicked "cosmic rays detected (in-flight change of inbound or outbound values)").
Proof.
  split.
  - intros Hall.
    destruct (recordUnmatched_total L outbound inbound ks response st Hall)
      as [response' Hrun].
    exists response'. split; [done|].
    apply recordUnmatched_Ok in Hrun as (_ & -> & _). by split.
  - intros Hex. by rewrite recordUnmatched_panics.
Qed.

(** The keys the ckit handler classifies are DOIs of the universe, so
    that the panic of step (5) is out of reach. *)
Lemma ckit_unmatched_keys_in_universe (L : ckit.Libs) (outbound inbound M : gset string) :
  Forall (λ k, k ∈ outbound ∨ k ∈ inbound)
    (ckit.range_order L ((outbound ∪ inbound) ∖ M)).
Proof.
  apply Forall_forall. intros k Hk.
  rewrite (iter_perm (ckit.range_order L)), elem_of_elements in Hk.
  apply elem_of_difference in Hk as [Hk _]. by apply elem_of_union in Hk.
Qed.

(** Step (5) of package spindel: a key that is outbound goes to
    [Unmatched.Cited], every other key to [Unmatched.Citing]. *)
Lemma spindel_unmatched_classification (L : spindel.Libs) (outbound : gset string)
    (ks : list string) : ∀ response : spindel.Response,
  let response' := spindel.recordUnmatched L outbound ks response in
  spindel.Unmatched_Cited (spindel.Unmatched response')
  = spindel.Unmatched_Cited (spindel.Unmatched response)
    ++ map (spindel.unmatchedBlob L) (List.filter (λ k, bool_decide (k ∈ outbound)) ks)
  ∧ spindel.Unmatched_Citing (spindel.Unmatched response')
    = spindel.Unmatched_Citing (spindel.Unmatched response)
      ++ map (spindel.unmatchedBlob L)
           (List.filter (λ k, negb (bool_decide (k ∈ outbound))) ks).
Proof.
  induction ks as [|k ks IH]; intros response; cbn zeta.
  - cbn. by rewrite !app_nil_r.
  - cbn [spindel.recordUnmatched List.filter].
    destruct (bool_decide (k ∈ outbound)); cbn [negb map].
    + destruct (IH (spindel.set_Unmatched_Cited
                      (spindel.Unmatched_Cited (spindel.Unmatched response)
                       ++ [spindel.unmatchedBlob L k]) response)) as [H1 H2].
      cbn zeta in H1, H2. rewrite H1, H2. cbn. by rewrite <- app_assoc.
    + destruct (IH (spindel.set_Unmatched_Citing
                      (spindel.Unmatched_Citing (spindel.Unmatched response)
                       ++ [spindel.unmatchedBlob L k]) response)) as [H1 H2].
      cbn zeta in H1, H2. rewrite H1, H2. cbn. by rewrite <- app_assoc.
Qed.

(** C1, package spindel: the record L1 cites D2, which has no local
    record; the handler of package spindel lists D2 under
    [unmatched.cited], the handler of package ckit under
    [unmatched.citing]. *)
Theorem spindel_outbound_unmatched_listed_as_cited :
  let run :=
    spindel.serve spindel_sample_libs spindel_partial_server spindel_quick
      (request "L1" "") ∅ in
  let run' := ckit.serve ckit_sample_libs partial_server quick (request "L1" "") None [] in
  "10.1/d2" ∈ ckit.collectOutbound [row "10.1/d1" "10.1/d2"]
  ∧ (∃ served,
       run.1 = Ok tt
       ∧ spindel_last_marshalled run.2 = Some served
       ∧ spindel.Unmatched_Cited (spindel.Unmatched served)
         = [spindel.unmatchedBlob spindel_sample_libs "10.1/d2"]
       ∧ spindel.Unmatched_Citing (spindel.Unmatched served) = [])
  ∧ (∃ served,
       run'.1 = Ok tt
       ∧ last_marshalled run'.2 = Some served
       ∧ ckit.Unmatched_Citing (ckit.Unmatched served)
         = [ckit.unmatchedBlob ckit_sample_libs "10.1/d2"]
       ∧ ckit.Unmatched_Cited (ckit.Unmatched served) = []).
Proof.
  cbn zeta. split; [apply (bool_decide_unpack _); by vm_compute|].
  split; eexists; (split; [by vm_compute|]); by vm_compute.
Qed.

(** ** Errors of the identifier lookup *)

Lemma bind_Returned {S A B : Type} (m : Run S A) (f : A → Run S B) st st' :
  m st = (Returned, st') → (m ≫= f) st = (Returned, st').
Proof. unfold mbind, Run_bind, bind. by intros ->. Qed.


Lemma GetContext_fault (db : DB) (q : query) (err : error) :
  fault db q = Some err → GetContext db q = inl err.
Proof. intros Hfault. unfold GetContext. by rewrite Hfault. Qed.

Lemma ckit_cacheProbe_miss L clk id isil st :
  ckit_misses (ckit.cache st) id →
  ckit.cacheProbe L clk id isil st = (Ok tt, st).
Proof.
  intros Hmiss. unfold ckit.cacheProbe, ckit.get_cache.
  erewrite bind_run by reflexivity.
  destruct (ckit.cache st) as [c|]; [|done].
  unfold ckit.Cache_Get. cbn in Hmiss. by rewrite Hmiss.
Qed.


Lemma spindel_cacheProbe_miss s id st :
  spindel_misses s (spindel.cache st) id →
  spindel.cacheProbe s id st = (Ok tt, st).
Proof.
  intros [Hoff|Hmiss]; unfold spindel.cacheProbe.
  - by rewrite Hoff.
  - destruct (spindel.CacheEnabled s); [|done].
    unfold spindel.get_cache. erewrite bind_run by reflexivity. by rewrite Hmiss.
Qed.




Lemma sample_libs_marshal : marshals ckit_sample_libs.
Proof. intros status err. by eexists. Qed.



(** ** Caching and filtering *)

(** An expensive request with an institution tag that is answered: the
    cache is handed the compressed encoding of the response as steps (1)
    to (7) built it from the stores, stamped as cached and not filtered.
    Before that call the handler has sent the statements of the reverse
    mapping and nothing else; after it the filter runs, once, on that
    response, and the body is the encoding of what the filter returns.
    Where every blob has the key, that is the response section 4.7
    describes. *)
Lemma ckit_expensive_tagged_run (L : ckit.Libs) (s : ckit.Server)
    (clk : ckit.Clock) (r : Request) (c : ckit.Cache) (pool : list ckit.Snippet)
    (st : ckit.State) :
  ckit.serve L s clk r (Some c) pool = (Ok tt, st) →
  ckit.CacheTriggerDuration s < ckit.since_cache_trigger clk →
  req_i r ≠ "" →
  ∃ doi citing cited batches b z served b' st3,
    let ds := ckit.collectOutbound citing ∪ ckit.collectInbound cited in
    let ids := concat (map (in_rows (ckit.IdentifierDatabase s)) batches) in
    let unfiltered :=
      ckit.set_Cached true (assembled L s clk (req_id r) doi citing cited ids) in
    let stored :=
      after_cache_set (with_trace (ckit_begin (Some c) pool) (in_events batches))
        c unfiltered z in
    GetContext (ckit.IdentifierDatabase s) (SelectVWhereK (req_id r)) = inr doi
    ∧ ckit.edges s doi = inr (citing, cited)
    ∧ ckit.batchedStrings (ckit.Slice_order L ds) 500 = Done batches
    ∧ ckit.json_Marshal L unfiltered = inr b
    ∧ ckit.zstd_Close L (b ++ newline) = inr z
    ∧ ckit.Extra_Institution (ckit.Extra unfiltered) = ""
    ∧ ckit.applyInstitutionFilter L unfiltered (req_i r) stored = (Ok served, st3)
    ∧ (keyed L unfiltered → served = holdings_filter L (req_i r) unfiltered)
    ∧ ckit.json_Marshal L served = inr b'
    ∧ ckit.trace st
      = in_events batches
        ++ [ckit.EvMarshal unfiltered; ckit.EvCacheSet (req_id r) z;
            ckit.EvFilter (req_i r); ckit.EvMarshal served]
    ∧ ckit.cache st = Some (ckit.Cache_Set c (req_id r) z).1
    ∧ (ckit.readonly c = false → ckit.set_fault c = None →
       ∃ c', ckit.cache st = Some c' ∧ ckit.store c' !! req_id r = Some z)
    ∧ body (ckit.w st) = b' ++ newline
    ∧ status (ckit.w st) = Some 200.
Proof.
  intros Hrun Hslow Hisil.
  apply serve_Ok in Hrun
    as (st0 & st1 & response & response' & -> & _ & Hasm & st2 & Hexp & Hsend).
  apply assemble_Ok in Hasm
    as (doi & citing & cited & batches & Hdoi & Hedges & _ & Hbatches & -> & ->).
  apply cacheExpensive_Ok in Hexp
    as [(_ & _ & [Hnone|Hquick])|(c0 & b & z & Hc0 & _ & -> & Hb & Hz & Hset & ->)];
    [discriminate Hnone|lia|].
  cbn in Hc0. injection Hc0 as <-.
  apply filterAndSend_Ok in Hsend as (served & st3 & b' & [(Hempty & _)|(_ & Hf)] & Hb' & ->);
    [done|].
  pose proof (applyInstitutionFilter_Ok _ _ _ _ _ _ Hf)
    as (kc & mc & kd & md & Hserved & _ & _ & [Hw Hc] & Htr).
  exists doi, citing, cited, batches, b, z, served, b', st3.
  cbn zeta. split; [done|]. split; [done|]. split; [done|].
  split; [done|]. split; [done|]. split; [done|]. split; [exact Hf|].
  split; [|split; [done|split; [|split; [|split; [|split]]]]].
  - intros Hkeyed.
    destruct (applyInstitutionFilter_keyed L (req_i r) _
                (after_cache_set
                   (with_trace (ckit_begin (Some c) pool) (in_events batches)) c
                   (ckit.set_Cached true
                      (assembled L s clk (req_id r) doi citing cited
                         (concat (map (in_rows (ckit.IdentifierDatabase s)) batches))))
                   z) Hkeyed) as [st' Hk].
    unfold ckit_begin, ckit_fresh_writer in Hk. rewrite Hf in Hk. by injection Hk.
  - unfold after_send. cbn [ckit.trace]. rewrite Htr. cbn. by rewrite <- !app_assoc.
  - unfold after_send. cbn [ckit.cache]. by rewrite Hc.
  - intros Hro Hsf. eexists. split.
    + unfold after_send. cbn [ckit.cache]. rewrite Hc. reflexivity.
    + cbn. unfold ckit.Cache_Set. rewrite Hro, Hsf. cbn. apply lookup_insert_eq.
  - unfold after_send. cbn [ckit.w]. by rewrite Hw.
  - unfold after_send. cbn [ckit.w]. by rewrite Hw.
Qed.

(** C4, at a blob without the key: the record L1 cites L2, held by
    DE-14, and L4, whose blob has no institution key, and is cited by
    L3, held by DE-15. The request for DE-14 is expensive. The cache gets
    the encoding of the unfiltered response, and the filter runs after
    that; but the body keeps the blob of L4 under [citing], where the
    filter of section 4.7 moves it to [unmatched.citing]. *)
Theorem expensive_request_serves_blob_without_key :
  let L := ckit_sample_libs in
  let run := ckit.serve L unkeyed_server slow (request "L1" "DE-14") (Some empty_cache) [] in
  let held := blob_with ["DE-14"] in
  let other := blob_with ["DE-15"] in
  ∃ unfiltered served b z b' batch,
    run.1 = Ok tt
    ∧ unfiltered
      = ckit.set_Cached true
          (assembled L unkeyed_server slow "L1" "10.1/d1"
             [row "10.1/d1" "10.1/d2"; row "10.1/d1" "10.1/d4"] [row "10.1/d3" "10.1/d1"]
             [row "L2" "10.1/d2"; row "L4" "10.1/d4"; row "L3" "10.1/d3"])
    ∧ ckit.Citing unfiltered = [held; blob_plain]
    ∧ ckit.Cited unfiltered = [other]
    ∧ ckit.Unmatched unfiltered
      = {| ckit.Unmatched_Citing := []; ckit.Unmatched_Cited := [] |}
    ∧ ckit.json_Marshal L unfiltered = inr b
    ∧ ckit.zstd_Close L (b ++ newline) = inr z
    ∧ ckit.trace run.2
      = [ckit.EvSqlxIn batch; ckit.EvSelectIn batch;
         ckit.EvMarshal unfiltered; ckit.EvCacheSet "L1" z;
         ckit.EvFilter "DE-14"; ckit.EvMarshal served]
    ∧ ckit.cache run.2
      = Some {| ckit.store := {["L1" := z]}; ckit.readonly := false;
                ckit.set_fault := None |}
    ∧ ckit.json_Marshal L served = inr b'
    ∧ body (ckit.w run.2) = b' ++ newline
    ∧ served = rearranged "DE-14" unfiltered [held; blob_plain] [] [] [other]
    ∧ institution_of L blob_plain = []
    ∧ holdings_filter L "DE-14" unfiltered
      = rearranged "DE-14" unfiltered [held] [blob_plain] [] [other]
    ∧ served ≠ holdings_filter L "DE-14" unfiltered.
Proof.
  cbn zeta. eexists _, _, _, _, _, _.
  split; [by vm_compute|]. split; [reflexivity|].
  split; [by vm_compute|]. split; [by vm_compute|]. split; [by vm_compute|].
  split; [by vm_compute|]. split; [by vm_compute|]. split; [by vm_compute|].
  split; [by vm_compute|]. split; [by vm_compute|]. split; [by vm_compute|].
  split; [by vm_compute|]. split; [by vm_compute|]. split; [by vm_compute|].
  intros Heq. apply (f_equal ckit.Citing) in Heq. vm_compute in Heq. discriminate Heq.
Qed.

(** ** The cached took value *)

Lemma strip_prefix_Some (p s rest : bytes) :
  ckit.strip_prefix p s = Some rest → s = p ++ rest.
Proof.
  revert s. induction p as [|a p IH]; intros s Hs.
  - cbn in Hs. by injection Hs as ->.
  - destruct s as [|c s]; [discriminate|]. cbn in Hs.
    destruct (Ascii.eqb_spec a c) as [->|]; [|discriminate].
    cbn. f_equal. by apply IH.
Qed.

Lemma num_run_spec (s : bytes) :
  ∃ num post,
    s = num ++ post
    ∧ length num = ckit.num_run s
    ∧ forallb ckit.is_num num = true
    ∧ run_ends post.
Proof.
  induction s as [|c s (num & post & Hs & Hlen & Hall & Hend)].
  - by exists [], [].
  - cbn [ckit.num_run]. destruct (ckit.is_num c) eqn:Hc.
    + exists (c :: num), post. cbn. rewrite Hc, Hall, <- Hs, Hlen. done.
    + exists [], (c :: s). by cbn.
Qed.

Lemma match_len_Some (s : bytes) (m : nat) :
  ckit.match_len s = Some m →
  ∃ num post,
    s = ckit.took_key ++ num ++ post
    ∧ m = (length ckit.took_key + length num)%nat
    ∧ num ≠ []
    ∧ forallb ckit.is_num num = true
    ∧ run_ends post.
Proof.
  unfold ckit.match_len. intros Hm.
  destruct (ckit.strip_prefix ckit.took_key s) as [rest|] eqn:Hp; [|discriminate].
  apply strip_prefix_Some in Hp as ->.
  destruct (num_run_spec rest) as (num & post & -> & Hlen & Hall & Hend).
  destruct (ckit.num_run (num ++ post)) as [|k] eqn:Hk; [discriminate|].
  injection Hm as <-. exists num, post. rewrite Hlen.
  repeat split; try done. by destruct num.
Qed.

Lemma replace_all_skip (new : bytes) (s : bytes) : ∀ k,
  ckit.replace_all new k s = ckit.replace_all new O (drop k s).
Proof.
  induction s as [|c s IH]; intros [|k]; try done. cbn [ckit.replace_all drop]. apply IH.
Qed.

Lemma count_matches_drop (s : bytes) : ∀ k,
  count_matches s = O → count_matches (drop k s) = O.
Proof.
  induction s as [|c s IH]; intros [|k] Hs; try done.
  cbn [drop]. apply IH. cbn [count_matches] in Hs. lia.
Qed.

Lemma replace_all_none (new : bytes) (s : bytes) :
  count_matches s = O → ckit.replace_all new O s = s.
Proof.
  induction s as [|c s IH]; [done|]. intros Hs. cbn [count_matches] in Hs.
  cbn [ckit.replace_all]. destruct (ckit.match_len (c :: s)); [lia|].
  f_equal. apply IH. lia.
Qed.

(** Where the pattern matches at one place only, the digits at that
    place give way to the new value and every other byte stays. *)
Lemma RegexpString_took_single (new : bytes) (data : bytes) :
  count_matches data = 1%nat →
  ∃ pre num post,
    data = pre ++ ckit.took_key ++ num ++ post
    ∧ num ≠ []
    ∧ forallb ckit.is_num num = true
    ∧ run_ends post
    ∧ ckit.RegexpString_took new data = pre ++ new ++ post.
Proof.
  unfold ckit.RegexpString_took.
  induction data as [|c data IH]; [discriminate|]. intros Hone.
  cbn [count_matches] in Hone. cbn [ckit.replace_all].
  destruct (ckit.match_len (c :: data)) as [m|] eqn:Hm.
  - assert (Hrest : count_matches data = O) by lia.
    destruct (match_len_Some _ _ Hm) as (num & post & Hs & -> & Hnum & Hall & Hend).
    exists [], num, post. repeat split; try done.
    rewrite replace_all_skip, replace_all_none by (by apply count_matches_drop).
    cbn [app]. f_equal.
    change data with (drop 1 (c :: data)). rewrite Hs, drop_drop.
    rewrite app_assoc. apply drop_app_length'. rewrite length_app.
    change (length ckit.took_key) with 7%nat. lia.
  - destruct IH as (pre & num & post & -> & Hnum & Hall & Hend & ->); [lia|].
    by exists (c :: pre), num, post.
Qed.

Lemma ckit_cacheProbe_hit L clk id isil st c b :
  ckit.cache st = Some c →
  ckit.store c !! id = Some b →
  ckit.cacheProbe L clk id isil st = ckit.serveCached L clk isil b st.
Proof.
  intros Hc Hb. unfold ckit.cacheProbe, ckit.get_cache, mbind, Run_bind, bind.
  rewrite Hc. unfold ckit.Cache_Get. by rewrite Hb.
Qed.

(** Package ckit on a cache hit without institution tag: the body is
    the cached text with the digits of its took value replaced by the
    seconds this request took. *)
Lemma ckit_cache_hit_rewrites_took (L : ckit.Libs) (s : ckit.Server) (clk : ckit.Clock)
    (r : Request) (c : ckit.Cache) (pool : list ckit.Snippet) (cached data : bytes) :
  ckit.store c !! req_id r = Some cached →
  req_i r = "" →
  ckit.zstd_NewReader L = None →
  ckit.zstd_read L cached = inr data →
  count_matches data = 1%nat →
  ∃ pre num post,
    data = pre ++ ckit.took_key ++ num ++ post
    ∧ num ≠ []
    ∧ forallb ckit.is_num num = true
    ∧ run_ends post
    ∧ let run := ckit.serve L s clk r (Some c) pool in
      run.1 = Returned
      ∧ status (ckit.w run.2) = Some 200
      ∧ body (ckit.w run.2)
        = pre ++ ckit.took_key
          ++ bytes_of (ckit.Sprintf_f L (Seconds (ckit.since_cache_hit clk)))
          ++ post
      ∧ ckit.cache run.2 = Some c
      ∧ ckit.trace run.2 = [].
Proof.
  intros Hhit Hisil Hnr Hread Hone.
  destruct (RegexpString_took_single (ckit.took_text L (ckit.since_cache_hit clk))
              data Hone) as (pre & num & post & Hdata & Hnum & Hall & Hend & Hrw).
  exists pre, num, post. repeat (split; [done|]). cbn zeta.
  unfold ckit.serve, ckit.handleLocalIdentifier.
  erewrite bind_run by reflexivity.
  assert (Hserved :
    ckit.serveCached L clk (req_i r) cached
      {| ckit.w := ckit_fresh_writer; ckit.cache := Some c;
         ckit.snippetPool := pool; ckit.trace := [] |}
    = (Returned,
       {| ckit.w :=
            Write (pre ++ ckit.took_text L (ckit.since_cache_hit clk) ++ post)
              ckit_fresh_writer;
          ckit.cache := Some c; ckit.snippetPool := pool; ckit.trace := [] |})).
  { unfold ckit.serveCached. rewrite Hnr, Hread, Hisil, Hrw.
    rewrite bool_decide_eq_false_2 by (intros Hne; by apply Hne).
    unfold ckit.took_text, ckit.took_key. by destruct pre. }
  erewrite bind_Returned.
  2: { erewrite ckit_cacheProbe_hit by (cbn; done). cbn. exact Hserved. }
  cbn. unfold ckit.took_text. by rewrite <- !app_assoc.
Qed.

(** C3, package spindel: a cache hit sends the stored bytes as they
    are, with the took value of the request that stored them, whatever
    time this request takes; package ckit sends the same bytes with the
    took value replaced. *)
Theorem spindel_cache_hit_keeps_stored_took (clk : spindel.Clock) :
  let run :=
    spindel.serve spindel_sample_libs spindel_caching_server clk (request "L1" "")
      {["L1" := spindel.ItemBytes stale_body]} in
  let run' :=
    ckit.serve ckit_sample_libs partial_server quick (request "L1" "")
      (Some stale_cache) [] in
  count_matches stale_body = 1%nat
  ∧ run.1 = Returned
  ∧ status (spindel.w run.2) = Some 200
  ∧ body (spindel.w run.2) = stale_body
  ∧ run'.1 = Returned
  ∧ status (ckit.w run'.2) = Some 200
  ∧ body (ckit.w run'.2) = fresh_body.
Proof.
  cbn zeta. split; [by vm_compute|]. split; [by vm_compute|].
  split; [by vm_compute|]. split; [by vm_compute|]. by vm_compute.
Qed.

(** Package spindel on a cache hit: the stored bytes are the body,
    whatever they hold and whatever time the request takes. *)
Lemma spindel_cache_hit_verbatim (L : spindel.Libs) (s : spindel.Server)
    (clk : spindel.Clock) (r : Request) (c : gmap string spindel.item) (cached : bytes) :
  spindel.CacheEnabled s = true →
  c !! req_id r = Some (spindel.ItemBytes cached) →
  let run := spindel.serve L s clk r c in
  run.1 = Returned
  ∧ status (spindel.w run.2) = Some 200
  ∧ body (spindel.w run.2) = cached
  ∧ spindel.cache run.2 = c.
Proof.
  intros Hon Hhit. cbn zeta.
  unfold spindel.serve, spindel.handleLocalIdentifier, spindel.cacheProbe.
  rewrite Hon. unfold mbind, Run_bind, bind, spindel.get_cache. cbn.
  rewrite Hhit. by cbn.
Qed.

(** Package spindel: the reverse mapping is one statement over all the
    values, however many. *)
Lemma spindel_mapToLocal_single_statement (L : spindel.Libs) (s : spindel.Server)
    (dois : list string) (st : spindel.State) :
  spindel.sqlx_In L dois = None →
  spindel.trace (spindel.mapToLocal L s dois st).2
  = spindel.trace st ++ [spindel.EvSqlxIn dois; spindel.EvSelectIn dois].
Proof.
  intros Hin. unfold spindel.mapToLocal, mbind, Run_bind, bind. cbn. rewrite Hin. cbn.
  destruct (SelectContext _ _); cbn; by rewrite <- app_assoc.
Qed.

(** * Further properties of the code *)

(** ** The helpers *)

(** X1: [sliceContains ss v] holds exactly when [v] is an element of
    [ss]. *)
Theorem sliceContains_iff (ss : list string) (v : string) :
  ckit.sliceContains ss v = true ↔ v ∈ ss.
Proof.
  induction ss as [|s ss IH]; cbn.
  - split; [discriminate|]. by intros ?%elem_of_nil.
  - rewrite elem_of_cons. destruct (String.eqb_spec v s) as [->|Hne].
    + split; [by left|done].
    + rewrite IH. split; [by right|]. by intros [?|?].
Qed.

Lemma concat_full_length (full : list (list string)) (n : Z) :
  Forall (λ b, len b = n) full → len (concat full) = n * len full.
Proof.
  induction 1 as [|b full Hb _ IH]; unfold len in *; cbn; [lia|].
  rewrite length_app. lia.
Qed.

Lemma batchedStrings_loop_full fuel : ∀ (ss : list string) (n : Z) (k : nat) acc,
  1 <= n →
  len ss <= ckit.max_strings →
  (k <= length ss)%nat →
  (length ss - k < fuel)%nat →
  ∃ full last,
    ckit.batchedStrings_loop fuel ss n (Z.of_nat k) (Z.of_nat k + n) acc
    = Done (acc ++ full ++ [last])
    ∧ Forall (λ b, len b = n) full
    ∧ len last <= n
    ∧ ((k < length ss)%nat → 1 <= len last)
    ∧ concat full ++ last = drop k ss.
Proof.
  induction fuel as [|fuel IH]; intros ss n k acc Hn Hmax Hk Hfuel; [lia|].
  unfold ckit.max_strings, len in *. cbn [ckit.batchedStrings_loop].
  destruct (Z.leb_spec (len ss) (Z.of_nat k + n)) as [Hle|Hgt]; unfold len in *.
  - unfold slice_from, len.
    replace ((0 <=? Z.of_nat k) && (Z.of_nat k <=? Z.of_nat (length ss))) with true
      by (symmetry; apply andb_true_intro; split; apply Z.leb_le; lia).
    rewrite Nat2Z.id. exists [], (drop k ss). rewrite length_drop.
    repeat split; try done; lia.
  - unfold slice, len.
    replace ((0 <=? Z.of_nat k) && (Z.of_nat k <=? Z.of_nat k + n)
             && (Z.of_nat k + n <=? Z.of_nat (length ss))) with true
      by (symmetry; repeat (apply andb_true_intro; split); apply Z.leb_le; lia).
    rewrite Nat2Z.id.
    replace (Z.of_nat k + n - Z.of_nat k) with n by lia.
    rewrite wrap64_small by lia.
    replace (Z.of_nat k + n) with (Z.of_nat (k + Z.to_nat n)) by lia.
    destruct (IH ss n (k + Z.to_nat n)%nat (acc ++ [take (Z.to_nat n) (drop k ss)]))
      as (full & last & Hrun & Hfull & Hlast & Hne & Hcat); try lia.
    exists (take (Z.to_nat n) (drop k ss) :: full), last. repeat split.
    + rewrite Hrun. by rewrite <- app_assoc.
    + constructor; [|done]. rewrite length_take, length_drop. lia.
    + done.
    + intros _. apply Hne. lia.
    + cbn. rewrite <- app_assoc, Hcat. rewrite <- drop_drop. apply take_drop.
Qed.

(** X2: for [n >= 1], every batch of [batchedStrings] but the last holds
    exactly [n] values, and the last one holds between 1 and [n] of them
    unless the input is empty: a short batch comes last, and values are
    never spread over more statements than needed. *)
Theorem batchedStrings_full_batches (ss : list string) (n : Z) :
  1 <= n →
  len ss <= ckit.max_strings →
  ∃ full last,
    ckit.batchedStrings ss n = Done (full ++ [last])
    ∧ Forall (λ b, len b = n) full
    ∧ len last <= n
    ∧ (ss ≠ [] → 1 <= len last)
    ∧ concat full ++ last = ss
    ∧ len ss = n * len full + len last.
Proof.
  intros Hn Hmax.
  destruct (batchedStrings_loop_full (S (length ss)) ss n 0 [] Hn Hmax)
    as (full & last & Hrun & Hfull & Hlast & Hne & Hcat); [lia..|].
  cbn in Hcat. exists full, last. split; [exact Hrun|].
  split; [done|]. split; [done|]. split.
  - intros Hss. apply Hne. destruct ss; [done|cbn; lia].
  - split; [done|]. rewrite <- Hcat at 1. unfold len. rewrite length_app.
    pose proof (concat_full_length full n Hfull) as Hlen. unfold len in Hlen. lia.
Qed.

Lemma batchedStrings_full_batches_witness :
  ∃ full last,
    ckit.batchedStrings ["a"; "b"; "c"; "d"; "e"] 2 = Done (full ++ [last])
    ∧ Forall (λ b, len b = 2) full
    ∧ len last <= 2
    ∧ (["a"; "b"; "c"; "d"; "e"] ≠ [] → 1 <= len last)
    ∧ concat full ++ last = ["a"; "b"; "c"; "d"; "e"]
    ∧ len ["a"; "b"; "c"; "d"; "e"] = 2 * len full + len last.
Proof.
  apply batchedStrings_full_batches; [lia|].
  unfold ckit.max_strings, len. cbn. lia.
Defined.

Lemma batchedStrings_loop_zero (ss : list string) fuel : ∀ acc,
  ss ≠ [] → ckit.batchedStrings_loop fuel ss 0 0 0 acc = OutOfFuel.
Proof.
  induction fuel as [|fuel IH]; intros acc Hss; [done|].
  cbn [ckit.batchedStrings_loop].
  destruct (Z.leb_spec (len ss) 0) as [Hle|Hgt].
  - destruct ss; [done|]. unfold len in Hle. cbn in Hle. lia.
  - unfold slice. cbn [Z.leb andb].
    replace (0 <=? len ss) with true by (symmetry; apply Z.leb_le; lia).
    cbn. change (wrap64 0) with 0. by apply IH.
Qed.

(** X3: [batchedStrings] does not guard its size argument. With a
    negative [n] the first slice expression panics, whatever the input;
    with [n = 0] and a non-empty input the loop appends empty batches and
    never returns; with [n = 0] and an empty input it returns one empty
    batch. *)
Theorem batchedStrings_nonpositive_size (ss : list string) :
  (∀ n, n < 0 → ckit.batchedStrings ss n = Panic "slice bounds out of range")
  ∧ (ss ≠ [] → ∀ fuel acc, ckit.batchedStrings_loop fuel ss 0 0 0 acc = OutOfFuel)
  ∧ ckit.batchedStrings [] 0 = Done [[]].
Proof.
  split; [|split; [|done]].
  - intros n Hn. unfold ckit.batchedStrings. cbn [ckit.batchedStrings_loop].
    destruct (Z.leb_spec (len ss) n) as [Hle|Hgt]; [unfold len in Hle; lia|].
    unfold slice. cbn [Z.leb andb].
    replace (0 <=? n) with false by (symmetry; apply Z.leb_gt; lia). done.
  - intros Hss fuel acc. by apply batchedStrings_loop_zero.
Qed.

(** ** The reverse mapping *)

Lemma elem_of_in_rows (db : DB) (batch : list string) (row : Map) :
  row ∈ in_rows db batch ↔ row ∈ table db ∧ Value row ∈ batch.
Proof.
  unfold in_rows. rewrite list_elem_of_In, filter_In, <- list_elem_of_In. cbn.
  by rewrite bool_decide_eq_true.
Qed.

Lemma elem_of_in_rows_concat (db : DB) (batches : list (list string)) (row : Map) :
  row ∈ concat (map (in_rows db) batches)
  ↔ row ∈ table db ∧ Value row ∈ concat batches.
Proof.
  induction batches as [|b batches IH]; cbn.
  - rewrite !elem_of_nil. tauto.
  - rewrite !elem_of_app, IH, elem_of_in_rows. tauto.
Qed.

Lemma mapToLocal_loop_result L s batches : ∀ ids st,
  ∃ res st',
    ckit.mapToLocal_loop L s batches ids st = (Ok res, st')
    ∧ match res with
      | inr ids' => ids' = ids ++ concat (map (in_rows (ckit.IdentifierDatabase s)) batches)
      | inl err => ∃ msg, err = Opaque msg
      end.
Proof.
  induction batches as [|b batches IH]; intros ids st.
  - eexists _, _. split; [reflexivity|]. cbn. by rewrite app_nil_r.
  - cbn [ckit.mapToLocal_loop]. unfold mbind, Run_bind, bind. rewrite emit_run.
    destruct (ckit.sqlx_In L b).
    + eexists _, _. split; [reflexivity|]. by eexists.
    + rewrite emit_run. unfold SelectContext.
      destruct (fault _ _).
      * eexists _, _. split; [reflexivity|]. by eexists.
      * destruct (IH (ids ++ List.filter (selects (SelectAllWhereVIn b))
                                 (table (ckit.IdentifierDatabase s)))
                     (with_trace (with_trace st [ckit.EvSqlxIn b]) [ckit.EvSelectIn b]))
          as (res & st' & Hrun & Hres).
        exists res, st'. split; [exact Hrun|].
        destruct res as [err|ids']; [done|]. rewrite Hres. cbn.
        by rewrite <- app_assoc.
Qed.

Lemma mapToLocal_returns L s dois st :
  len dois <= ckit.max_strings →
  ∃ res st', ckit.mapToLocal L s dois st = (Ok res, st').
Proof.
  intros Hmax.
  destruct (batchedStrings_spec dois 500) as (batches & Hb & _); [lia|done|].
  unfold ckit.mapToLocal, ckit.mapToLocal_sized, ckit.size. rewrite Hb.
  destruct (mapToLocal_loop_result L s batches [] st) as (res & st' & Hrun & _).
  by exists res, st'.
Qed.

(** X4: [mapToLocal] of package ckit always returns. The rows it
    returns are, as a set, the rows of the identifier table whose DOI is
    among the values asked for, also when a value is asked for twice; an
    error it returns is a new value made from the text of the cause, so
    that it is never the cancellation error itself; and it returns rows
    whenever the store accepts every statement. *)
Theorem mapToLocal_result (L : ckit.Libs) (s : ckit.Server) (dois : list string)
    (st : ckit.State) :
  len dois <= ckit.max_strings →
  ∃ res st',
    ckit.mapToLocal L s dois st = (Ok res, st')
    ∧ match res with
      | inr ids =>
          ∀ row, row ∈ ids
                 ↔ row ∈ table (ckit.IdentifierDatabase s) ∧ Value row ∈ dois
      | inl err => ∃ msg, err = Opaque msg
      end
    ∧ (ckit_accepts L s → ∃ ids, res = inr ids).
Proof.
  intros Hmax.
  destruct (batchedStrings_spec dois 500) as (batches & Hb & Hcat & _); [lia|done|].
  unfold ckit.mapToLocal, ckit.mapToLocal_sized, ckit.size. rewrite Hb.
  destruct (mapToLocal_loop_result L s batches [] st) as (res & st' & Hrun & Hres).
  exists res, st'. split; [exact Hrun|]. split.
  - destruct res as [err|ids]; [done|]. subst ids. intros row.
    cbn [app]. by rewrite elem_of_in_rows_concat, Hcat.
  - intros Hacc. rewrite mapToLocal_loop_ok in Hrun by done.
    injection Hrun as <- _. by eexists.
Qed.

Lemma mapToLocal_result_witness :
  ∃ res st',
    ckit.mapToLocal ckit_sample_libs one_row_server ["10.1/a"; "10.1/b"; "10.1/a"]
      ckit_start = (Ok res, st')
    ∧ match res with
      | inr ids =>
          ∀ row, row ∈ ids
                 ↔ row ∈ table (ckit.IdentifierDatabase one_row_server)
                   ∧ Value row ∈ ["10.1/a"; "10.1/b"; "10.1/a"]
      | inl err => ∃ msg, err = Opaque msg
      end
    ∧ (ckit_accepts ckit_sample_libs one_row_server → ∃ ids, res = inr ids).
Proof.
  apply mapToLocal_result. unfold ckit.max_strings, len. cbn. lia.
Defined.

(** ** The institution filter, whatever the pool holds *)

Lemma bind_Panicked {S A B : Type} (m : Run S A) (f : A → Run S B) st msg st' :
  m st = (Panicked msg, st') → (m ≫= f) st = (Panicked msg, st').
Proof. unfold mbind, Run_bind, bind. by intros ->. Qed.

Section FilterInvariants.
Variables (L : ckit.Libs) (isil : string).

Lemma filterCiting_split bs : ∀ citing r st citing' r' st',
  ckit.filterCiting L isil bs citing r st = (Ok (citing', r'), st') →
  ∃ kept moved,
    citing' = citing ++ kept
    ∧ r' = ckit.set_Unmatched_Citing
             (ckit.Unmatched_Citing (ckit.Unmatched r) ++ moved) r
    ∧ kept ++ moved ≡ₚ bs
    ∧ kept `sublist_of` bs.
Proof.
  induction bs as [|b bs IH]; intros citing r st citing' r' st' Hrun.
  - cbn in Hrun. injection Hrun as <- <- <-. exists [], [].
    rewrite !app_nil_r. destruct r as [? ? ? ? [? ?] ?]. by repeat split.
  - cbn [ckit.filterCiting] in Hrun.
    apply bind_Ok in Hrun as (v & st1 & _ & Hrun).
    destruct (ckit.json_Unmarshal L b v) as [?|v']; [discriminate|].
    destruct (ckit.sliceContains (ckit.Institution v') isil).
    + apply bind_Ok in Hrun as ([] & ? & _ & Hrun).
      apply IH in Hrun as (kept & moved & -> & -> & Hp & Hs).
      exists (b :: kept), moved. cbn. rewrite <- app_assoc.
      repeat split; try done.
      * by constructor.
      * by apply sublist_skip.
    + apply bind_Ok in Hrun as ([] & ? & _ & Hrun).
      apply IH in Hrun as (kept & moved & -> & -> & Hp & Hs).
      exists kept, (b :: moved). cbn. rewrite <- app_assoc.
      repeat split; try done.
      * rewrite <- Permutation_middle. by constructor.
      * by apply sublist_cons.
Qed.

Lemma filterCited_split bs : ∀ cited r st cited' r' st',
  ckit.filterCited L isil bs cited r st = (Ok (cited', r'), st') →
  ∃ kept moved,
    cited' = cited ++ kept
    ∧ r' = ckit.set_Unmatched_Cited
             (ckit.Unmatched_Cited (ckit.Unmatched r) ++ moved) r
    ∧ kept ++ moved ≡ₚ bs
    ∧ kept `sublist_of` bs.
Proof.
  induction bs as [|b bs IH]; intros cited r st cited' r' st' Hrun.
  - cbn in Hrun. injection Hrun as <- <- <-. exists [], [].
    rewrite !app_nil_r. destruct r as [? ? ? ? [? ?] ?]. by repeat split.
  - cbn [ckit.filterCited] in Hrun.
    apply bind_Ok in Hrun as (v & st1 & _ & Hrun).
    destruct (ckit.json_Unmarshal L b v) as [?|v']; [discriminate|].
    destruct (ckit.sliceContains (ckit.Institution v') isil).
    + apply bind_Ok in Hrun as ([] & ? & _ & Hrun).
      apply IH in Hrun as (kept & moved & -> & -> & Hp & Hs).
      exists (b :: kept), moved. cbn. rewrite <- app_assoc.
      repeat split; try done.
      * by constructor.
      * by apply sublist_skip.
    + apply bind_Ok in Hrun as ([] & ? & _ & Hrun).
      apply IH in Hrun as (kept & moved & -> & -> & Hp & Hs).
      exists kept, (b :: moved). cbn. rewrite <- app_assoc.
      repeat split; try done.
      * rewrite <- Permutation_middle. by constructor.
      * by apply sublist_cons.
Qed.

Lemma json_Unmarshal_broken b v :
  broken L b → ∃ err, ckit.json_Unmarshal L b v = inl err.
Proof. intros [err Herr]. exists err. unfold ckit.json_Unmarshal. by rewrite Herr. Qed.

(** Either loop ends by falling through or by the panic of the decoder. *)
Lemma filterCiting_outcome bs : ∀ citing r st,
  (∃ x st', ckit.filterCiting L isil bs citing r st = (Ok x, st'))
  ∨ (∃ st', ckit.filterCiting L isil bs citing r st
            = (Panicked "internal data broken", st')).
Proof.
  induction bs as [|b bs IH]; intros citing r st.
  - left. by eexists _, _.
  - cbn [ckit.filterCiting].
    destruct (snippetPool_Get_total st) as (v & st1 & Hget).
    rewrite (bind_run _ _ _ _ _ Hget).
    destruct (ckit.json_Unmarshal L b v) as [?|v']; [right; by eexists|].
    destruct (ckit.sliceContains (ckit.Institution v') isil);
      (erewrite bind_run by reflexivity); apply IH.
Qed.

Lemma filterCiting_broken bs : ∀ citing r st,
  Exists (broken L) bs →
  ∃ st', ckit.filterCiting L isil bs citing r st
         = (Panicked "internal data broken", st').
Proof.
  induction bs as [|b bs IH]; intros citing r st Hex; [by inversion Hex|].
  cbn [ckit.filterCiting].
  destruct (snippetPool_Get_total st) as (v & st1 & Hget).
  rewrite (bind_run _ _ _ _ _ Hget).
  destruct (ckit.json_Unmarshal L b v) as [?|v'] eqn:Hv; [by eexists|].
  assert (Htl : Exists (broken L) bs).
  { inversion Hex as [? ? Hb|]; subst; [|done].
    destruct (json_Unmarshal_broken b v Hb) as [err Herr]. congruence. }
  destruct (ckit.sliceContains (ckit.Institution v') isil);
    (erewrite bind_run by reflexivity); by apply IH.
Qed.

Lemma filterCited_broken bs : ∀ cited r st,
  Exists (broken L) bs →
  ∃ st', ckit.filterCited L isil bs cited r st
         = (Panicked "internal data broken", st').
Proof.
  induction bs as [|b bs IH]; intros cited r st Hex; [by inversion Hex|].
  cbn [ckit.filterCited].
  destruct (snippetPool_Get_total st) as (v & st1 & Hget).
  rewrite (bind_run _ _ _ _ _ Hget).
  destruct (ckit.json_Unmarshal L b v) as [?|v'] eqn:Hv; [by eexists|].
  assert (Htl : Exists (broken L) bs).
  { inversion Hex as [? ? Hb|]; subst; [|done].
    destruct (json_Unmarshal_broken b v Hb) as [err Herr]. congruence. }
  destruct (ckit.sliceContains (ckit.Institution v') isil);
    (erewrite bind_run by reflexivity); by apply IH.
Qed.

Lemma applyInstitutionFilter_broken r st :
  Exists (broken L) (ckit.Citing r ++ ckit.Cited r) →
  ∃ st', ckit.applyInstitutionFilter L r isil st
         = (Panicked "internal data broken", st').
Proof.
  intros Hex. unfold ckit.applyInstitutionFilter.
  erewrite bind_run by reflexivity.
  destruct (filterCiting_outcome (ckit.Citing r) [] r
              (with_trace st [ckit.EvFilter isil]))
    as [([citing r1] & st1 & H1)|(st1 & H1)].
  - rewrite (bind_run _ _ _ _ _ H1).
    apply Exists_app in Hex as [Hex|Hex].
    + destruct (filterCiting_broken (ckit.Citing r) [] r
                  (with_trace st [ckit.EvFilter isil]) Hex) as [st2 H2].
      unfold with_trace in *. congruence.
    + apply filterCiting_Ok in H1 as (kc & mc & _ & -> & _).
      destruct (filterCited_broken (ckit.Cited r) []
                  (ckit.set_Unmatched_Citing
                     (ckit.Unmatched_Citing (ckit.Unmatched r) ++ mc) r) st1 Hex)
        as [st2 H2].
      exists st2. by apply bind_Panicked.
  - exists st1. by apply bind_Panicked.
Qed.
End FilterInvariants.

(** X5: a call of [applyInstitutionFilter] that returns has lost and
    invented no blob: in each direction the matched array is a
    subsequence of the one before, the unmatched array is the one before
    with the moved blobs appended, and kept and moved blobs together are
    the matched blobs of before. The four counts are the lengths of the
    four arrays, the tag is recorded, and nothing else of the response,
    of the writer or of the cache changes. This holds whatever the pool
    holds. *)
Theorem applyInstitutionFilter_conserves (L : ckit.Libs) (isil : string)
    (r r' : ckit.Response) (st : ckit.State) :
  (ckit.applyInstitutionFilter L r isil st).1 = Ok r' →
  ∃ moved_citing moved_cited,
    ckit.Unmatched_Citing (ckit.Unmatched r')
    = ckit.Unmatched_Citing (ckit.Unmatched r) ++ moved_citing
    ∧ ckit.Unmatched_Cited (ckit.Unmatched r')
      = ckit.Unmatched_Cited (ckit.Unmatched r) ++ moved_cited
    ∧ ckit.Citing r' ++ moved_citing ≡ₚ ckit.Citing r
    ∧ ckit.Cited r' ++ moved_cited ≡ₚ ckit.Cited r
    ∧ ckit.Citing r' `sublist_of` ckit.Citing r
    ∧ ckit.Cited r' `sublist_of` ckit.Cited r
    ∧ counts_are_lengths r'
    ∧ ckit.ID r' = ckit.ID r ∧ ckit.DOI r' = ckit.DOI r
    ∧ ckit.Took (ckit.Extra r') = ckit.Took (ckit.Extra r)
    ∧ ckit.Cached (ckit.Extra r') = ckit.Cached (ckit.Extra r)
    ∧ ckit.Extra_Institution (ckit.Extra r') = isil
    ∧ same_io st (ckit.applyInstitutionFilter L r isil st).2.
Proof.
  destruct (ckit.applyInstitutionFilter L r isil st) as [res st'] eqn:Hrun.
  cbn [fst snd]. intros ->.
  pose proof (applyInstitutionFilter_Ok _ _ _ _ _ _ Hrun) as (_ & _ & _ & _ & _ & _ & _ & Hio & _).
  unfold ckit.applyInstitutionFilter in Hrun.
  apply bind_Ok in Hrun as ([] & st0 & _ & Hrun).
  apply bind_Ok in Hrun as ([citing r1] & st1 & H1 & Hrun).
  apply bind_Ok in Hrun as ([cited r2] & st2 & H2 & Hrun).
  injection Hrun as <- <-.
  apply filterCiting_split in H1 as (kc & mc & -> & -> & Hp1 & Hs1).
  apply filterCited_split in H2 as (kd & md & -> & -> & Hp2 & Hs2).
  exists mc, md. destruct r as [? ? citing cited [uc ud] e]. cbn in *.
  destruct Hio. repeat split; done.
Qed.

Lemma applyInstitutionFilter_conserves_witness :
  ∃ moved_citing moved_cited,
    ckit.Unmatched_Citing (ckit.Unmatched (holdings_filter ckit_sample_libs "DE-14" mixed_response))
    = ckit.Unmatched_Citing (ckit.Unmatched mixed_response) ++ moved_citing
    ∧ ckit.Unmatched_Cited (ckit.Unmatched (holdings_filter ckit_sample_libs "DE-14" mixed_response))
      = ckit.Unmatched_Cited (ckit.Unmatched mixed_response) ++ moved_cited
    ∧ ckit.Citing (holdings_filter ckit_sample_libs "DE-14" mixed_response) ++ moved_citing
      ≡ₚ ckit.Citing mixed_response
    ∧ ckit.Cited (holdings_filter ckit_sample_libs "DE-14" mixed_response) ++ moved_cited
      ≡ₚ ckit.Cited mixed_response
    ∧ ckit.Citing (holdings_filter ckit_sample_libs "DE-14" mixed_response)
      `sublist_of` ckit.Citing mixed_response
    ∧ ckit.Cited (holdings_filter ckit_sample_libs "DE-14" mixed_response)
      `sublist_of` ckit.Cited mixed_response
    ∧ counts_are_lengths (holdings_filter ckit_sample_libs "DE-14" mixed_response)
    ∧ ckit.ID (holdings_filter ckit_sample_libs "DE-14" mixed_response)
      = ckit.ID mixed_response
    ∧ ckit.DOI (holdings_filter ckit_sample_libs "DE-14" mixed_response)
      = ckit.DOI mixed_response
    ∧ ckit.Took (ckit.Extra (holdings_filter ckit_sample_libs "DE-14" mixed_response))
      = ckit.Took (ckit.Extra mixed_response)
    ∧ ckit.Cached (ckit.Extra (holdings_filter ckit_sample_libs "DE-14" mixed_response))
      = ckit.Cached (ckit.Extra mixed_response)
    ∧ ckit.Extra_Institution
        (ckit.Extra (holdings_filter ckit_sample_libs "DE-14" mixed_response)) = "DE-14"
    ∧ same_io (ckit_pool [])
        (ckit.applyInstitutionFilter ckit_sample_libs mixed_response "DE-14"
           (ckit_pool [])).2.
Proof.
  apply (applyInstitutionFilter_conserves ckit_sample_libs "DE-14" mixed_response
           (holdings_filter ckit_sample_libs "DE-14" mixed_response) (ckit_pool [])).
  vm_compute. reflexivity.
Defined.

(** X6: when a blob of the matched arrays is not valid JSON,
    [applyInstitutionFilter] panics, whatever the tag and whatever the
    pool holds. *)
Theorem applyInstitutionFilter_panics_on_broken_blob (L : ckit.Libs) (isil : string)
    (r : ckit.Response) (st : ckit.State) :
  Exists (broken L) (ckit.Citing r ++ ckit.Cited r) →
  (ckit.applyInstitutionFilter L r isil st).1 = Panicked "internal data broken".
Proof.
  intros Hex. destruct (applyInstitutionFilter_broken L isil r st Hex) as [st' ->]. done.
Qed.

Lemma applyInstitutionFilter_panics_on_broken_blob_witness :
  (ckit.applyInstitutionFilter ckit_sample_libs broken_response "DE-14" (ckit_pool [])).1
  = Panicked "internal data broken".
Proof.
  apply applyInstitutionFilter_panics_on_broken_blob.
  apply Exists_cons_tl, Exists_cons_hd. eexists. vm_compute. reflexivity.
Defined.

Lemma keyed_holdings_filter L isil r : keyed L r → keyed L (holdings_filter L isil r).
Proof.
  intros Hk b Hb. apply Hk. cbn in Hb.
  apply elem_of_app in Hb as [Hb|Hb]; apply elem_of_app; [left|right];
    apply list_elem_of_In, filter_In in Hb as [Hb _]; by apply list_elem_of_In.
Qed.

(** X7: on a response whose matched blobs all carry the [institution]
    key, [applyInstitutionFilter] computes the filter of section 4.7 of
    the specification whatever the pool holds, and a second call with the
    same tag changes nothing. *)
Theorem applyInstitutionFilter_keyed_idempotent (L : ckit.Libs) (isil : string)
    (r : ckit.Response) (st : ckit.State) :
  keyed L r →
  ∃ st1 st2,
    ckit.applyInstitutionFilter L r isil st = (Ok (holdings_filter L isil r), st1)
    ∧ ckit.applyInstitutionFilter L (holdings_filter L isil r) isil st1
      = (Ok (holdings_filter L isil r), st2).
Proof.
  intros Hk.
  destruct (applyInstitutionFilter_keyed L isil r st Hk) as [st1 H1].
  destruct (applyInstitutionFilter_keyed L isil (holdings_filter L isil r) st1
              (keyed_holdings_filter L isil r Hk)) as [st2 H2].
  exists st1, st2. split; [done|]. by rewrite holdings_filter_idempotent in H2.
Qed.

Lemma sample_keyed : keyed ckit_sample_libs mixed_response.
Proof.
  intros b Hb.
  change (b ∈ [blob_with ["DE-14"]; blob_with ["DE-15"]; blob_with ["DE-15"]]) in Hb.
  repeat (apply elem_of_cons in Hb as [->|Hb]); [..|by apply elem_of_nil in Hb];
    eexists; vm_compute; reflexivity.
Qed.

Lemma applyInstitutionFilter_keyed_idempotent_witness :
  ∃ st1 st2,
    ckit.applyInstitutionFilter ckit_sample_libs mixed_response "DE-14"
      (ckit_pool [ {| ckit.Institution := ["DE-14"] |} ])
    = (Ok (holdings_filter ckit_sample_libs "DE-14" mixed_response), st1)
    ∧ ckit.applyInstitutionFilter ckit_sample_libs
        (holdings_filter ckit_sample_libs "DE-14" mixed_response) "DE-14" st1
      = (Ok (holdings_filter ckit_sample_libs "DE-14" mixed_response), st2).
Proof.
  apply applyInstitutionFilter_keyed_idempotent. exact sample_keyed.
Defined.

(** ** The ways the ckit handler ends early *)

(** An error reply changes the writer only. *)
Lemma ckit_httpErrLog_run L code err st :
  marshals L →
  ∃ b, ckit.httpErrLog L code err st
       = (Ok tt, {| ckit.w := http_Error b code (ckit.w st); ckit.cache := ckit.cache st;
                    ckit.snippetPool := ckit.snippetPool st;
                    ckit.trace := ckit.trace st |}).
Proof.
  intros Hmar. destruct (Hmar code err) as [b Hb]. exists b.
  unfold ckit.httpErrLog. by rewrite Hb.
Qed.

Lemma ckit_serve_miss L s clk r c pool :
  ckit_misses c (req_id r) →
  ckit.serve L s clk r c pool
  = (response ← ckit.assemble L s clk (req_id r);
     response ← ckit.cacheExpensive L s clk response;
     ckit.filterAndSend L (req_i r) response) (ckit_begin c pool).
Proof.
  intros Hmiss. unfold ckit.serve, ckit.handleLocalIdentifier.
  erewrite bind_run by reflexivity.
  erewrite bind_run by (by apply ckit_cacheProbe_miss). done.
Qed.

Lemma ckit_serve_assemble_Returned L s clk r c pool st' :
  ckit_misses c (req_id r) →
  ckit.assemble L s clk (req_id r) (ckit_begin c pool) = (Returned, st') →
  ckit.serve L s clk r c pool = (Returned, st').
Proof.
  intros Hmiss Hasm. rewrite ckit_serve_miss by done. by apply bind_Returned.
Qed.

Lemma filter_none {A : Type} (p : A → bool) (l : list A) :
  (∀ x, x ∈ l → p x = false) → List.filter p l = [].
Proof.
  induction l as [|x l IH]; intros Hp; [done|]. cbn.
  rewrite Hp by (by left). apply IH. intros y Hy. apply Hp. by right.
Qed.

Lemma no_edges_select (db : DB) (doi : string) :
  no_edges db doi →
  SelectContext db (SelectAllWhereK doi) = inr []
  ∧ SelectContext db (SelectAllWhereV doi) = inr [].
Proof.
  intros (Hk & Hv & Hrows). unfold SelectContext. rewrite Hk, Hv.
  split; f_equal; apply filter_none; intros row Hrow; cbn;
    apply bool_decide_eq_false; by apply Hrows.
Qed.

(** X8: a record whose DOI has no row in the citation table, on either
    side, gets status 404 and no body from both handlers; neither sends
    a statement to the identifier table for the reverse mapping, and
    neither touches its cache. *)
Theorem no_citations_404
    (L : ckit.Libs) (s : ckit.Server) (clk : ckit.Clock) (c : option ckit.Cache)
    (pool : list ckit.Snippet)
    (L' : spindel.Libs) (s' : spindel.Server) (clk' : spindel.Clock)
    (c' : gmap string spindel.item) (r : Request) (doi doi' : string) :
  ckit_misses c (req_id r) →
  GetContext (ckit.IdentifierDatabase s) (SelectVWhereK (req_id r)) = inr doi →
  no_edges (ckit.OciDatabase s) doi →
  spindel_misses s' c' (req_id r) →
  GetContext (spindel.IdentifierDatabase s') (SelectVWhereK (req_id r)) = inr doi' →
  no_edges (spindel.OciDatabase s') doi' →
  let run := ckit.serve L s clk r c pool in
  let run' := spindel.serve L' s' clk' r c' in
  (run.1 = Returned
   ∧ status (ckit.w run.2) = Some 404 ∧ body (ckit.w run.2) = []
   ∧ ckit.cache run.2 = c ∧ ckit.trace run.2 = [])
  ∧ (run'.1 = Returned
     ∧ status (spindel.w run'.2) = Some 404 ∧ body (spindel.w run'.2) = []
     ∧ spindel.cache run'.2 = c' ∧ spindel.trace run'.2 = []).
Proof.
  intros Hmiss Hdoi [Hk Hv]%no_edges_select Hmiss' Hdoi' [Hk' Hv']%no_edges_select.
  cbn zeta. split.
  - erewrite ckit_serve_assemble_Returned; [|done|].
    2: { unfold ckit.assemble, ckit.resolveDOI. cbn [ckit.new_Response ckit.ID].
         rewrite Hdoi. erewrite bind_run by reflexivity.
         unfold ckit.getEdges, ckit.edges. cbn [ckit.set_DOI ckit.DOI].
         rewrite Hk, Hv. erewrite bind_run by reflexivity. cbv beta iota zeta.
         unfold ckit.collectOutbound, ckit.collectInbound. cbn [foldl].
         rewrite bool_decide_eq_true_2 by apply union_empty_l_L.
         reflexivity. }
    by cbn.
  - unfold spindel.serve, spindel.handleLocalIdentifier.
    erewrite bind_run by (by apply spindel_cacheProbe_miss).
    unfold spindel.assemble. cbn [spindel.new_Response spindel.ID].
    rewrite Hdoi'. unfold spindel.edges. cbn [spindel.set_DOI spindel.DOI].
    rewrite Hk', Hv'. by cbn.
Qed.

Lemma no_edges_decide (db : DB) (doi : string) :
  fault db (SelectAllWhereK doi) = None →
  fault db (SelectAllWhereV doi) = None →
  forallb (λ row, negb (String.eqb (Key row) doi) && negb (String.eqb (Value row) doi))
    (table db) = true →
  no_edges db doi.
Proof.
  intros Hk Hv Hall. split; [done|]. split; [done|].
  rewrite forallb_forall in Hall. intros row Hrow.
  apply list_elem_of_In, Hall, andb_prop in Hrow as [H1 H2].
  apply negb_true_iff, String.eqb_neq in H1, H2. done.
Qed.

Lemma no_citations_404_witness :
  let run := ckit.serve ckit_sample_libs lonely_server quick (request "L1" "") None [] in
  let run' :=
    spindel.serve spindel_sample_libs spindel_lonely_server spindel_quick
      (request "L1" "") ∅ in
  (run.1 = Returned
   ∧ status (ckit.w run.2) = Some 404 ∧ body (ckit.w run.2) = []
   ∧ ckit.cache run.2 = None ∧ ckit.trace run.2 = [])
  ∧ (run'.1 = Returned
     ∧ status (spindel.w run'.2) = Some 404 ∧ body (spindel.w run'.2) = []
     ∧ spindel.cache run'.2 = ∅ ∧ spindel.trace run'.2 = []).
Proof.
  apply (no_citations_404 ckit_sample_libs lonely_server quick None []
           spindel_sample_libs spindel_lonely_server spindel_quick ∅
           (request "L1" "") "10.1/d1" "10.1/d1").
  - exact I.
  - reflexivity.
  - by apply no_edges_decide.
  - by right.
  - reflexivity.
  - by apply no_edges_decide.
Defined.

(** X9: when one of the two statements of [edges] fails, the ckit
    handler returns without a body if the error is the cancellation
    value itself, and answers 500 on every other error; in both cases it
    sends no further statement and leaves the cache alone. *)
Theorem ckit_edges_failure (L : ckit.Libs) (s : ckit.Server) (clk : ckit.Clock)
    (r : Request) (c : option ckit.Cache) (pool : list ckit.Snippet)
    (doi : string) (err : error) :
  marshals L →
  ckit_misses c (req_id r) →
  GetContext (ckit.IdentifierDatabase s) (SelectVWhereK (req_id r)) = inr doi →
  ckit.edges s doi = inl err →
  let run := ckit.serve L s clk r c pool in
  run.1 = Returned
  ∧ (err = Canceled → ckit.w run.2 = ckit_fresh_writer)
  ∧ (err ≠ Canceled → status (ckit.w run.2) = Some 500)
  ∧ ckit.cache run.2 = c ∧ ckit.trace run.2 = [].
Proof.
  intros Hmar Hmiss Hdoi Hedges. cbn zeta.
  assert (Hasm : ∃ st',
    ckit.assemble L s clk (req_id r) (ckit_begin c pool) = (Returned, st')
    ∧ (err = Canceled → ckit.w st' = ckit_fresh_writer)
    ∧ (err ≠ Canceled → status (ckit.w st') = Some 500)
    ∧ ckit.cache st' = c ∧ ckit.trace st' = []).
  { unfold ckit.assemble, ckit.resolveDOI. cbn [ckit.new_Response ckit.ID].
    rewrite Hdoi. erewrite bind_run by reflexivity.
    unfold ckit.getEdges. cbn [ckit.set_DOI ckit.DOI]. rewrite Hedges.
    destruct (bool_decide_reflect (err = Canceled)) as [->|Hne].
    - eexists. split; [reflexivity|]. by cbn.
    - destruct (ckit_httpErrLog_run L StatusInternalServerError (Wrapped "edges" err)
                  (ckit_begin c pool) Hmar) as [b Hb].
      unfold ckit.httpErrLogf. eexists. split.
      + erewrite bind_Returned; [reflexivity|].
        erewrite bind_run by exact Hb. reflexivity.
      + cbn. repeat split; try done. }
  destruct Hasm as (st' & Hasm & Hw).
  by rewrite (ckit_serve_assemble_Returned _ _ _ _ _ _ _ Hmiss Hasm).
Qed.

Lemma ckit_edges_failure_witness :
  let run :=
    ckit.serve ckit_sample_libs (failing_edges (Wrapped "oci" Canceled)) quick
      (request "L1" "") None [] in
  run.1 = Returned
  ∧ (Wrapped "oci" Canceled = Canceled → ckit.w run.2 = ckit_fresh_writer)
  ∧ (Wrapped "oci" Canceled ≠ Canceled → status (ckit.w run.2) = Some 500)
  ∧ ckit.cache run.2 = None ∧ ckit.trace run.2 = [].
Proof.
  apply (ckit_edges_failure ckit_sample_libs (failing_edges (Wrapped "oci" Canceled))
           quick (request "L1" "") None [] "10.1/d1" (Wrapped "oci" Canceled)).
  - exact sample_libs_marshal.
  - exact I.
  - reflexivity.
  - reflexivity.
Defined.

Lemma ckit_assemble_step4 L s clk id doi citing cited st :
  GetContext (ckit.IdentifierDatabase s) (SelectVWhereK id) = inr doi →
  ckit.edges s doi = inr (citing, cited) →
  universe citing cited ≠ ∅ →
  ckit.assemble L s clk id st
  = (ids ← ckit.reverseMap L s (universe citing cited);
     response ←
       ckit.recordUnmatched L (ckit.collectOutbound citing) (ckit.collectInbound cited)
         (ckit.range_order L
            (universe citing cited
             ∖ list_to_set (foldl (λ acc v, acc ++ [Value v]) [] ids)))
         (ckit.set_DOI doi (ckit.new_Response id));
     response ←
       ckit.hydrate L s (ckit.collectOutbound citing) (ckit.collectInbound cited)
         ids response;
     mret (ckit.set_Took (Seconds (ckit.since_finalize clk))
             (ckit.updateCounts response))) st.
Proof.
  intros Hdoi Hedges Hne.
  unfold ckit.assemble, ckit.resolveDOI. cbn [ckit.new_Response ckit.ID].
  rewrite Hdoi. erewrite bind_run by reflexivity.
  unfold ckit.getEdges. cbn [ckit.set_DOI ckit.DOI]. rewrite Hedges.
  erewrite bind_run by reflexivity. cbv beta iota zeta.
  fold (universe citing cited). by rewrite bool_decide_eq_false_2.
Qed.

(** The reverse mapping adds to the trace and changes nothing else. *)
Lemma mapToLocal_loop_io L s batches : ∀ ids st,
  same_io st (ckit.mapToLocal_loop L s batches ids st).2
  ∧ ckit.snippetPool (ckit.mapToLocal_loop L s batches ids st).2 = ckit.snippetPool st.
Proof.
  induction batches as [|b batches IH]; intros ids st; [done|].
  cbn [ckit.mapToLocal_loop]. unfold mbind, Run_bind, bind. rewrite emit_run.
  destruct (ckit.sqlx_In L b); [done|]. rewrite emit_run.
  destruct (SelectContext _ _); [done|].
  destruct (IH (ids ++ l)
              (with_trace (with_trace st [ckit.EvSqlxIn b]) [ckit.EvSelectIn b]))
    as [[Hw Hc] Hp].
  by repeat split.
Qed.

Lemma mapToLocal_io L s dois st :
  same_io st (ckit.mapToLocal L s dois st).2
  ∧ ckit.snippetPool (ckit.mapToLocal L s dois st).2 = ckit.snippetPool st.
Proof.
  unfold ckit.mapToLocal, ckit.mapToLocal_sized.
  destruct (ckit.batchedStrings dois ckit.size); [|done..].
  apply mapToLocal_loop_io.
Qed.

Lemma mapToLocal_error_opaque L s dois st err :
  (ckit.mapToLocal L s dois st).1 = Ok (inl err) → ∃ msg, err = Opaque msg.
Proof.
  unfold ckit.mapToLocal, ckit.mapToLocal_sized.
  destruct (ckit.batchedStrings dois ckit.size) as [batches| |]; [|done..].
  destruct (mapToLocal_loop_result L s batches [] st) as (res & st' & -> & Hres).
  cbn. intros [= ->]. exact Hres.
Qed.

(** X10: every error of [mapToLocal] makes the ckit handler answer 500,
    the cancellation of the request included: the error that comes back
    is a new value, not the cancellation value the handler compares
    with. Nothing is encoded or cached after the failing statement. *)
Theorem ckit_reverse_mapping_failure (L : ckit.Libs) (s : ckit.Server)
    (clk : ckit.Clock) (r : Request) (c : option ckit.Cache) (pool : list ckit.Snippet)
    (doi : string) (citing cited : list Map) (err : error) :
  marshals L →
  ckit_passes_lookup s c r doi citing cited →
  let mapped :=
    ckit.mapToLocal L s (ckit.Slice_order L (universe citing cited)) (ckit_begin c pool) in
  mapped.1 = Ok (inl err) →
  let run := ckit.serve L s clk r c pool in
  err ≠ Canceled
  ∧ run.1 = Returned
  ∧ status (ckit.w run.2) = Some 500
  ∧ ckit.cache run.2 = c
  ∧ ckit.trace run.2 = ckit.trace mapped.2.
Proof.
  intros Hmar (Hmiss & Hdoi & Hedges & Hne). cbn zeta. intros Hmap.
  destruct (mapToLocal_error_opaque _ _ _ _ _ Hmap) as [msg ->].
  split; [done|].
  destruct (mapToLocal_io L s (ckit.Slice_order L (universe citing cited))
              (ckit_begin c pool)) as [[Hw Hc] _].
  destruct (ckit.mapToLocal L s _ (ckit_begin c pool)) as [res st1] eqn:Hrun.
  cbn [fst snd] in *. subst res.
  destruct (ckit_httpErrLog_run L StatusInternalServerError
              (Wrapped "map" (Opaque msg)) st1 Hmar) as [b Hb].
  erewrite ckit_serve_assemble_Returned; [|done|].
  2: { rewrite (ckit_assemble_step4 _ _ _ _ _ _ _ _ Hdoi Hedges Hne).
       apply bind_Returned. unfold ckit.reverseMap.
       erewrite bind_run by exact Hrun. cbn [bool_decide decide_rel].
       rewrite bool_decide_eq_false_2 by done.
       unfold ckit.httpErrLogf. erewrite bind_run by exact Hb. reflexivity. }
  cbn. rewrite Hw, Hc. by cbn.
Qed.

Lemma ckit_reverse_mapping_failure_witness :
  let mapped :=
    ckit.mapToLocal ckit_sample_libs cancelled_in_step4
      (ckit.Slice_order ckit_sample_libs (universe [row "10.1/d1" "10.1/d2"] []))
      (ckit_begin None []) in
  let run :=
    ckit.serve ckit_sample_libs cancelled_in_step4 quick (request "L1" "") None [] in
  Opaque "select: context canceled" ≠ Canceled
  ∧ run.1 = Returned
  ∧ status (ckit.w run.2) = Some 500
  ∧ ckit.cache run.2 = None
  ∧ ckit.trace run.2 = ckit.trace mapped.2.
Proof.
  apply (ckit_reverse_mapping_failure ckit_sample_libs cancelled_in_step4 quick
           (request "L1" "") None [] "10.1/d1" [row "10.1/d1" "10.1/d2"] []).
  - exact sample_libs_marshal.
  - split; [exact I|]. split; [reflexivity|]. split; [reflexivity|].
    intros Hempty. apply (f_equal elements) in Hempty. vm_compute in Hempty.
    discriminate Hempty.
  - vm_compute. reflexivity.
Defined.

Lemma hydrate_fails L s outbound inbound ids : ∀ response st,
  marshals L →
  Exists (fetch_fails s) ids →
  ∃ b, ckit.hydrate L s outbound inbound ids response st
       = (Returned,
          {| ckit.w := http_Error b StatusInternalServerError (ckit.w st);
             ckit.cache := ckit.cache st; ckit.snippetPool := ckit.snippetPool st;
             ckit.trace := ckit.trace st |}).
Proof.
  induction ids as [|v ids IH]; intros response st Hmar Hex; [by inversion Hex|].
  cbn [ckit.hydrate].
  destruct (ckit.IndexData s (Key v)) as [err|b] eqn:Hfetch.
  - destruct (errors_Is err ErrBlobNotFound) eqn:Hnf.
    + apply IH; [done|]. inversion Hex as [? ? (err' & Herr' & Hnf')|]; subst; [|done].
      congruence.
    + destruct (ckit_httpErrLog_run L StatusInternalServerError
                  (Wrapped "index data fetch" err) st Hmar) as [b Hb].
      exists b. unfold ckit.httpErrLogf. erewrite bind_run by exact Hb. reflexivity.
  - assert (Htl : Exists (fetch_fails s) ids).
    { inversion Hex as [? ? (err' & Herr' & _)|]; subst; [congruence|done]. }
    destruct (bool_decide (Value v ∈ outbound)); [by apply IH|].
    destruct (bool_decide (Value v ∈ inbound)); by apply IH.
Qed.

(** X11: when the blob store fails for a row of the reverse mapping
    with an error that is not the not-found value, the ckit handler
    answers 500, the cancellation of the request included; it encodes
    nothing and does not call the cache. *)
Theorem ckit_fetch_failure (L : ckit.Libs) (s : ckit.Server)
    (clk : ckit.Clock) (r : Request) (c : option ckit.Cache) (pool : list ckit.Snippet)
    (doi : string) (citing cited ids : list Map) :
  marshals L →
  ckit_passes_lookup s c r doi citing cited →
  let mapped :=
    ckit.mapToLocal L s (ckit.Slice_order L (universe citing cited)) (ckit_begin c pool) in
  mapped.1 = Ok (inr ids) →
  Exists (fetch_fails s) ids →
  let run := ckit.serve L s clk r c pool in
  run.1 = Returned
  ∧ status (ckit.w run.2) = Some 500
  ∧ ckit.cache run.2 = c
  ∧ ckit.trace run.2 = ckit.trace mapped.2.
Proof.
  intros Hmar (Hmiss & Hdoi & Hedges & Hne). cbn zeta. intros Hmap Hex.
  destruct (mapToLocal_io L s (ckit.Slice_order L (universe citing cited))
              (ckit_begin c pool)) as [[Hw Hc] _].
  destruct (ckit.mapToLocal L s _ (ckit_begin c pool)) as [res st1] eqn:Hrun.
  cbn [fst snd] in *. subst res.
  set (ks := ckit.range_order L
               (universe citing cited
                ∖ list_to_set (foldl (λ acc v, acc ++ [Value v]) [] ids))).
  destruct (recordUnmatched_total L (ckit.collectOutbound citing)
              (ckit.collectInbound cited) ks
              (ckit.set_DOI doi (ckit.new_Response (req_id r))) st1)
    as [r5 H5]; [apply ckit_unmatched_keys_in_universe|].
  destruct (hydrate_fails L s (ckit.collectOutbound citing) (ckit.collectInbound cited)
              ids r5 st1 Hmar Hex) as [b H6].
  erewrite ckit_serve_assemble_Returned; [|done|].
  2: { rewrite (ckit_assemble_step4 _ _ _ _ _ _ _ _ Hdoi Hedges Hne).
       unfold ckit.reverseMap. unfold mbind at 1, Run_bind at 1, bind at 1.
       unfold mbind at 1, Run_bind at 1, bind at 1. rewrite Hrun.
       cbn [mret Run_ret ret]. fold ks.
       erewrite bind_run by exact H5. apply bind_Returned. exact H6. }
  cbn. rewrite Hw, Hc. by cbn.
Qed.

Lemma ckit_fetch_failure_witness :
  let mapped :=
    ckit.mapToLocal ckit_sample_libs cancelled_in_step6
      (ckit.Slice_order ckit_sample_libs (universe [row "10.1/d1" "10.1/d2"] []))
      (ckit_begin None []) in
  let run :=
    ckit.serve ckit_sample_libs cancelled_in_step6 quick (request "L1" "") None [] in
  run.1 = Returned
  ∧ status (ckit.w run.2) = Some 500
  ∧ ckit.cache run.2 = None
  ∧ ckit.trace run.2 = ckit.trace mapped.2.
Proof.
  apply (ckit_fetch_failure ckit_sample_libs cancelled_in_step6 quick
           (request "L1" "") None [] "10.1/d1" [row "10.1/d1" "10.1/d2"] []
           [row "L2" "10.1/d2"]).
  - exact sample_libs_marshal.
  - split; [exact I|]. split; [reflexivity|]. split; [reflexivity|].
    intros Hempty. apply (f_equal elements) in Hempty. vm_compute in Hempty.
    discriminate Hempty.
  - vm_compute. reflexivity.
  - apply Exists_cons_hd. exists Canceled. by split.
Defined.

(** ** The cache of package ckit *)

Lemma in_events_kind (batches : list (list string)) (ev : ckit.event) :
  ev ∈ in_events batches → ∃ b, ev = ckit.EvSqlxIn b ∨ ev = ckit.EvSelectIn b.
Proof.
  induction batches as [|b batches IH]; cbn; [by intros ?%elem_of_nil|].
  rewrite !elem_of_cons. intros [->|[->|Hev]]; [by eexists; left|by eexists; right|].
  by apply IH.
Qed.

Lemma rearranged_Cached isil r kc mc kd md :
  ckit.Cached (ckit.Extra (rearranged isil r kc mc kd md)) = ckit.Cached (ckit.Extra r).
Proof. by destruct r as [? ? ? ? [? ?] ?]. Qed.

(** X12: in a response the ckit handler computes, [extra.cached] is
    true exactly when the request was expensive, which is exactly when
    the handler called [Cache.Set], under the id of the request. The flag
    does not say that the entry is stored: with a read-only cache the
    call changes nothing and the flag is true all the same. *)
Theorem ckit_cached_flag (L : ckit.Libs) (s : ckit.Server) (clk : ckit.Clock)
    (r : Request) (c : option ckit.Cache) (pool : list ckit.Snippet) (st : ckit.State) :
  ckit.serve L s clk r c pool = (Ok tt, st) →
  ∃ served,
    last_marshalled st = Some served
    ∧ (ckit.Cached (ckit.Extra served) = true ↔ expensive s clk c)
    ∧ ((∃ k z, ckit.EvCacheSet k z ∈ ckit.trace st) ↔ expensive s clk c)
    ∧ (∀ k z, ckit.EvCacheSet k z ∈ ckit.trace st → k = req_id r)
    ∧ (∀ c0, c = Some c0 → ckit.readonly c0 = true → ckit.cache st = c).
Proof.
  intros Hrun.
  apply serve_Ok in Hrun
    as (st0 & st1 & response & response' & -> & _ & Hasm & st2 & Hexp & Hsend).
  apply assemble_Ok in Hasm
    as (doi & citing & cited & batches & _ & _ & _ & _ & -> & ->).
  apply filterAndSend_Ok in Hsend as (served & st3 & b' & Hfilter & _ & ->).
  exists served. split; [unfold last_marshalled, after_send; cbn; by rewrite last_snoc|].
  assert (Hserved : ckit.Cached (ckit.Extra served) = ckit.Cached (ckit.Extra response')
                    ∧ ckit.cache st3 = ckit.cache st2
                    ∧ ∃ evs, ckit.trace st3 = ckit.trace st2 ++ evs
                             ∧ ∀ k z, ckit.EvCacheSet k z ∉ evs).
  { destruct Hfilter as [(_ & -> & ->)|(_ & Hf)].
    - split; [done|]. split; [done|]. exists []. rewrite app_nil_r. split; [done|].
      intros k z. apply not_elem_of_nil.
    - apply applyInstitutionFilter_Ok in Hf
        as (kc & mc & kd & md & -> & _ & _ & [_ Hc] & Htr).
      split; [apply rearranged_Cached|]. split; [done|].
      eexists. split; [exact Htr|]. intros k z [=]%list_elem_of_singleton. }
  destruct Hserved as (HC & Hc3 & evs & Htr & Hevs).
  unfold after_send. cbn [ckit.trace ckit.cache]. rewrite HC, Hc3, Htr.
  assert (Hin : ∀ k z, ckit.EvCacheSet k z ∉ in_events batches).
  { intros k z [b [?|?]]%in_events_kind; discriminate. }
  apply cacheExpensive_Ok in Hexp
    as [(-> & -> & Hcheap)|(c0 & b & z & Hc0 & Hslow & -> & _ & _ & Hset & ->)].
  - cbn in Hcheap. cbn [with_trace ckit.trace ckit.cache app].
    assert (Hno : ¬ expensive s clk c) by (intros [? ?]; destruct Hcheap; [done|lia]).
    split; [split; [discriminate|done]|]. split; [|split].
    + split; [|done]. intros (k & z & Hev).
      rewrite !elem_of_app in Hev. destruct Hev as [[Hev|Hev]|Hev].
      * by apply Hin in Hev.
      * by apply Hevs in Hev.
      * by apply list_elem_of_singleton in Hev.
    + intros k z Hev. rewrite !elem_of_app in Hev. destruct Hev as [[Hev|Hev]|Hev].
      * by apply Hin in Hev.
      * by apply Hevs in Hev.
      * by apply list_elem_of_singleton in Hev.
    + done.
  - cbn in Hc0. subst c.
    assert (Hyes : expensive s clk (Some c0)) by (by split).
    cbn [after_cache_set with_trace ckit.trace ckit.cache app].
    split; [done|]. split; [|split].
    + split; [done|]. intros _. exists (req_id r), z.
      rewrite !elem_of_app. left. left. right. apply elem_of_cons. right. by left.
    + intros k z' Hev. rewrite !elem_of_app in Hev.
      destruct Hev as [[[Hev|Hev]|Hev]|Hev].
      * by apply Hin in Hev.
      * apply elem_of_cons in Hev as [?|Hev]; [done|].
        apply list_elem_of_singleton in Hev. by injection Hev as -> _.
      * by apply Hevs in Hev.
      * by apply list_elem_of_singleton in Hev.
    + intros c1 [= <-] Hro. unfold ckit.Cache_Set. by rewrite Hro.
Qed.

Lemma ckit_cached_flag_witness :
  let run :=
    ckit.serve ckit_sample_libs happy_server slow (request "L1" "DE-14")
      (Some readonly_cache) [] in
  ∃ served,
    last_marshalled run.2 = Some served
    ∧ (ckit.Cached (ckit.Extra served) = true
       ↔ expensive happy_server slow (Some readonly_cache))
    ∧ ((∃ k z, ckit.EvCacheSet k z ∈ ckit.trace run.2)
       ↔ expensive happy_server slow (Some readonly_cache))
    ∧ (∀ k z, ckit.EvCacheSet k z ∈ ckit.trace run.2 → k = "L1")
    ∧ (∀ c0, Some readonly_cache = Some c0 → ckit.readonly c0 = true
             → ckit.cache run.2 = Some readonly_cache).
Proof.
  apply (ckit_cached_flag ckit_sample_libs happy_server slow (request "L1" "DE-14")
           (Some readonly_cache) []).
  vm_compute. reflexivity.
Defined.

Lemma keeps_ret {A : Type} (a : A) : keeps_cache (mret a).
Proof. by intros st. Qed.

Lemma keeps_bind {A B : Type} (m : ckit.M A) (f : A → ckit.M B) :
  keeps_cache m → (∀ a, keeps_cache (f a)) → keeps_cache (m ≫= f).
Proof.
  intros Hm Hf st. unfold mbind, Run_bind, bind. specialize (Hm st).
  destruct (m st) as [[a| | |] st1]; cbn in *; [|done..].
  by rewrite Hf.
Qed.

Lemma keeps_return {A : Type} : keeps_cache (@return_ ckit.State A).
Proof. by intros st. Qed.

Lemma keeps_panic {A : Type} msg : keeps_cache (@panic ckit.State A msg).
Proof. by intros st. Qed.

Lemma keeps_diverge {A : Type} : keeps_cache (@diverge ckit.State A).
Proof. by intros st. Qed.

Lemma keeps_modify_w f : keeps_cache (ckit.modify_w f).
Proof. by intros st. Qed.

Lemma keeps_emit ev : keeps_cache (ckit.emit ev).
Proof. by intros st. Qed.

Lemma keeps_snippetPool_Get : keeps_cache ckit.snippetPool_Get.
Proof. intros st. unfold ckit.snippetPool_Get. by destruct (ckit.snippetPool st). Qed.

Lemma keeps_snippetPool_Put v : keeps_cache (ckit.snippetPool_Put v).
Proof. by intros st. Qed.

Lemma keeps_get_cache : keeps_cache ckit.get_cache.
Proof. by intros st. Qed.

(** One step of a proof that a computation keeps the cache. *)
Ltac keeps_step :=
  first
    [ apply keeps_ret | apply keeps_return | apply keeps_panic | apply keeps_diverge
    | apply keeps_modify_w | apply keeps_emit | apply keeps_snippetPool_Get
    | apply keeps_snippetPool_Put | apply keeps_get_cache
    | apply keeps_bind; [|intros ?]
    | match goal with
      | |- keeps_cache (match ?x with _ => _ end) => destruct x
      | |- keeps_cache (let '(_, _) := ?x in _) => destruct x
      end ].

Lemma keeps_httpErrLog L code err : keeps_cache (ckit.httpErrLog L code err).
Proof. unfold ckit.httpErrLog. repeat keeps_step. Qed.

Lemma keeps_httpErrLogf L code msg err : keeps_cache (ckit.httpErrLogf L code msg err).
Proof. apply keeps_httpErrLog. Qed.

Lemma keeps_filterCiting L isil bs : ∀ citing r,
  keeps_cache (ckit.filterCiting L isil bs citing r).
Proof.
  induction bs as [|b bs IH]; intros citing r; cbn [ckit.filterCiting];
    repeat first [apply IH | keeps_step].
Qed.

Lemma keeps_filterCited L isil bs : ∀ cited r,
  keeps_cache (ckit.filterCited L isil bs cited r).
Proof.
  induction bs as [|b bs IH]; intros cited r; cbn [ckit.filterCited];
    repeat first [apply IH | keeps_step].
Qed.

Lemma keeps_applyInstitutionFilter L r isil :
  keeps_cache (ckit.applyInstitutionFilter L r isil).
Proof.
  unfold ckit.applyInstitutionFilter.
  repeat first [apply keeps_filterCiting | apply keeps_filterCited | keeps_step].
Qed.

Lemma keeps_Encode L r : keeps_cache (ckit.Encode L r).
Proof. unfold ckit.Encode. repeat keeps_step. Qed.

Lemma keeps_serveCached L clk isil b : keeps_cache (ckit.serveCached L clk isil b).
Proof.
  unfold ckit.serveCached, ckit.Copy.
  repeat first [apply keeps_httpErrLogf | apply keeps_applyInstitutionFilter
               | apply keeps_Encode | keeps_step].
Qed.

Lemma keeps_cacheProbe L clk id isil : keeps_cache (ckit.cacheProbe L clk id isil).
Proof.
  unfold ckit.cacheProbe. repeat first [apply keeps_serveCached | keeps_step].
Qed.

Lemma keeps_mapToLocal L s dois : keeps_cache (ckit.mapToLocal L s dois).
Proof. intros st. by destruct (mapToLocal_io L s dois st) as [[_ ?] _]. Qed.

Lemma keeps_recordUnmatched L outbound inbound ks : ∀ response,
  keeps_cache (ckit.recordUnmatched L outbound inbound ks response).
Proof.
  induction ks as [|k ks IH]; intros response; cbn [ckit.recordUnmatched];
    repeat first [apply IH | keeps_step].
Qed.

Lemma keeps_hydrate L s outbound inbound ids : ∀ response,
  keeps_cache (ckit.hydrate L s outbound inbound ids response).
Proof.
  induction ids as [|v ids IH]; intros response; cbn [ckit.hydrate];
    repeat first [apply IH | apply keeps_httpErrLogf | keeps_step].
Qed.

Lemma keeps_assemble L s clk id : keeps_cache (ckit.assemble L s clk id).
Proof.
  unfold ckit.assemble, ckit.resolveDOI, ckit.getEdges, ckit.reverseMap.
  repeat first [apply keeps_httpErrLogf | apply keeps_mapToLocal
               | apply keeps_recordUnmatched | apply keeps_hydrate | keeps_step].
Qed.

Lemma keeps_filterAndSend L isil response :
  keeps_cache (ckit.filterAndSend L isil response).
Proof.
  unfold ckit.filterAndSend.
  repeat first [apply keeps_httpErrLogf | apply keeps_applyInstitutionFilter
               | apply keeps_Encode | keeps_step].
Qed.

Lemma bind_cache_after {A B : Type} (m : ckit.M A) (f : A → ckit.M B) st :
  (∀ a, keeps_cache (f a)) →
  ckit.cache ((m ≫= f) st).2 = ckit.cache (m st).2.
Proof.
  intros Hf. unfold mbind, Run_bind, bind.
  destruct (m st) as [[a| | |] st1]; cbn; [apply Hf|done..].
Qed.

(** The closure of step (7) changes the cache by one call of
    [Cache.Set] at most. *)
Lemma wrap_cache L response st :
  ckit.cache (ckit.wrap L response st).2 = ckit.cache st
  ∨ ∃ c0 z, ckit.cache st = Some c0
            ∧ ckit.cache (ckit.wrap L response st).2
              = Some (ckit.Cache_Set c0 (ckit.ID response) z).1.
Proof.
  unfold ckit.wrap. destruct (ckit.zstd_NewWriter L); [by left|].
  erewrite bind_run by reflexivity.
  destruct (ckit.json_Marshal L response) as [?|b]; [by left|].
  destruct (ckit.zstd_Close L (b ++ newline)) as [?|z]; [by left|].
  rewrite bind_cache_after.
  2: { intros [e|]; [destruct (bool_decide (e = ErrReadOnly))|]; apply keeps_ret. }
  unfold ckit.Cache_Set_M. cbn [ckit.cache].
  destruct (ckit.cache st) as [c0|]; [|by left].
  right. exists c0, z. split; [done|].
  by destruct (ckit.Cache_Set c0 (ckit.ID response) z).
Qed.

Lemma cacheExpensive_cache L s clk response st :
  let st' := (ckit.cacheExpensive L s clk response st).2 in
  ckit.cache st' = ckit.cache st
  ∨ ∃ c0 z, ckit.cache st = Some c0
            ∧ ckit.CacheTriggerDuration s < ckit.since_cache_trigger clk
            ∧ ckit.cache st' = Some (ckit.Cache_Set c0 (ckit.ID response) z).1.
Proof.
  cbn zeta. unfold ckit.cacheExpensive, ckit.get_cache.
  erewrite bind_run by reflexivity.
  destruct (bool_decide (ckit.cache st ≠ None)); cbn [andb]; [|by left].
  destruct (Z.ltb_spec (ckit.CacheTriggerDuration s) (ckit.since_cache_trigger clk))
    as [Hlt|Hge]; [|by left].
  rewrite bind_cache_after.
  2: { intros [e|]; repeat first [apply keeps_httpErrLog | keeps_step]. }
  destruct (wrap_cache L (ckit.set_Cached true response) st) as [?|(c0 & z & ? & ?)];
    [by left|].
  right. by exists c0, z.
Qed.

Lemma Cache_Set_frame c0 k z k' :
  k' ≠ k → ckit.store (ckit.Cache_Set c0 k z).1 !! k' = ckit.store c0 !! k'.
Proof.
  intros Hne. unfold ckit.Cache_Set.
  destruct (ckit.readonly c0); [done|]. destruct (ckit.set_fault c0); [done|].
  cbn. by apply lookup_insert_ne.
Qed.

(** X13: however a request to the ckit handler ends, the cache is as
    before or has gone through one [Cache.Set] under the id of the
    request, and the latter only when the request was expensive. The
    entries of other ids are never touched, and a request that is served
    from the cache, that fails before step (7) or that is not expensive
    leaves the cache as it was. *)
Theorem ckit_cache_frame (L : ckit.Libs) (s : ckit.Server) (clk : ckit.Clock)
    (r : Request) (c : option ckit.Cache) (pool : list ckit.Snippet) :
  let run := ckit.serve L s clk r c pool in
  (ckit.cache run.2 = c
   ∨ ∃ c0 z, c = Some c0
             ∧ ckit.CacheTriggerDuration s < ckit.since_cache_trigger clk
             ∧ ckit.cache run.2 = Some (ckit.Cache_Set c0 (req_id r) z).1)
  ∧ (∀ k, k ≠ req_id r → stored (ckit.cache run.2) k = stored c k)
  ∧ (¬ expensive s clk c → ckit.cache run.2 = c).
Proof.
  cbn zeta.
  assert (Hmain :
    ckit.cache (ckit.serve L s clk r c pool).2 = c
    ∨ ∃ c0 z, c = Some c0
              ∧ ckit.CacheTriggerDuration s < ckit.since_cache_trigger clk
              ∧ ckit.cache (ckit.serve L s clk r c pool).2
                = Some (ckit.Cache_Set c0 (req_id r) z).1).
  { remember (ckit.cache (ckit.serve L s clk r c pool).2) as fin eqn:Hfin.
    change (ckit.serve L s clk r c pool)
      with ((ckit.cacheProbe L clk (req_id r) (req_i r);;
             response ← ckit.assemble L s clk (req_id r);
             response ← ckit.cacheExpensive L s clk response;
             ckit.filterAndSend L (req_i r) response) (ckit_begin c pool)) in Hfin.
    set (st0 := ckit_begin c pool) in Hfin.
    assert (Hst0 : ckit.cache st0 = c) by done.
    pose proof (keeps_cacheProbe L clk (req_id r) (req_i r) st0) as Hprobe.
    unfold mbind at 1, Run_bind at 1, bind at 1 in Hfin.
    destruct (ckit.cacheProbe L clk (req_id r) (req_i r) st0) as [[[]| | |] st0'];
      cbn [snd] in Hprobe, Hfin; [|left; congruence..].
    pose proof (keeps_assemble L s clk (req_id r) st0') as Hasm.
    unfold mbind at 1, Run_bind at 1, bind at 1 in Hfin.
    destruct (ckit.assemble L s clk (req_id r) st0') as [[response| | |] st1] eqn:Hrun;
      cbn [snd] in Hasm, Hfin; [|left; congruence..].
    assert (HID : ckit.ID response = req_id r).
    { apply assemble_Ok in Hrun as (? & ? & ? & ? & _ & _ & _ & _ & -> & _). done. }
    pose proof (cacheExpensive_cache L s clk response st1) as Hexp. cbn zeta in Hexp.
    unfold mbind at 1, Run_bind at 1, bind at 1 in Hfin.
    destruct (ckit.cacheExpensive L s clk response st1) as [[response'| | |] st2];
      cbn [snd] in Hexp, Hfin.
    1: rewrite keeps_filterAndSend in Hfin.
    all: destruct Hexp as [Hexp|(c0 & z & Hc0 & Hslow & Hexp)];
      [left; congruence|right; exists c0, z; rewrite <- HID;
       split; [congruence|]; split; [done|congruence]]. }
  split; [exact Hmain|]. split.
  - intros k Hk. destruct Hmain as [->|(c0 & z & -> & _ & ->)]; [done|].
    cbn. by apply Cache_Set_frame.
  - intros Hno. destruct Hmain as [->|(c0 & z & -> & Hslow & _)]; [done|].
    destruct Hno. by split.
Qed.

Lemma took_text_nonempty L d : ckit.took_text L d ≠ [].
Proof. unfold ckit.took_text. by vm_compute. Qed.

Lemma replace_all_nonempty (new s : bytes) :
  new ≠ [] → s ≠ [] → ckit.replace_all new O s ≠ [].
Proof.
  intros Hnew Hs. destruct s as [|c s]; [done|]. cbn [ckit.replace_all].
  destruct (ckit.match_len (c :: s)); [|done].
  destruct new; [done|]. done.
Qed.

(** A cache hit without tag: what the handler does with the stored
    frame when it decompresses to a text that is not empty. *)
Lemma ckit_hit_plain L s clk r c pool cached data :
  ckit.store c !! req_id r = Some cached →
  req_i r = "" →
  ckit.zstd_NewReader L = None →
  ckit.zstd_read L cached = inr data →
  data ≠ [] →
  ckit.serve L s clk r (Some c) pool
  = (Returned,
     {| ckit.w :=
          Write (ckit.RegexpString_took (ckit.took_text L (ckit.since_cache_hit clk)) data)
            ckit_fresh_writer;
        ckit.cache := Some c; ckit.snippetPool := pool; ckit.trace := [] |}).
Proof.
  intros Hhit Hisil Hnr Hread Hdata.
  unfold ckit.serve, ckit.handleLocalIdentifier.
  erewrite bind_run by reflexivity.
  apply bind_Returned.
  erewrite ckit_cacheProbe_hit by (cbn; done).
  unfold ckit.serveCached. rewrite Hnr, Hread, Hisil.
  rewrite bool_decide_eq_false_2 by (intros Hne; by apply Hne).
  pose proof (replace_all_nonempty (ckit.took_text L (ckit.since_cache_hit clk)) data
                (took_text_nonempty L _) Hdata) as Hne.
  unfold ckit.RegexpString_took in *.
  destruct (ckit.replace_all _ O data); [done|]. reflexivity.
Qed.

(** X14: after an expensive request without tag has stored its
    response in a writable cache, the next request for the same id is
    answered from the cache alone, whatever the stores hold then: its
    body is the body of the first answer with the took value rewritten,
    and the cache stays as it is. The codec is assumed to give back what
    it was given. *)
Theorem ckit_cache_round_trip (L : ckit.Libs) (s s' : ckit.Server)
    (clk clk' : ckit.Clock) (r : Request) (c : ckit.Cache)
    (pool pool' : list ckit.Snippet) (st : ckit.State) :
  ckit.serve L s clk r (Some c) pool = (Ok tt, st) →
  ckit.CacheTriggerDuration s < ckit.since_cache_trigger clk →
  ckit.readonly c = false →
  ckit.set_fault c = None →
  req_i r = "" →
  ckit.zstd_NewReader L = None →
  codec_round_trip L →
  let run' := ckit.serve L s' clk' r (ckit.cache st) pool' in
  run'.1 = Returned
  ∧ status (ckit.w run'.2) = Some 200
  ∧ body (ckit.w run'.2)
    = ckit.RegexpString_took (ckit.took_text L (ckit.since_cache_hit clk'))
        (body (ckit.w st))
  ∧ ckit.cache run'.2 = ckit.cache st
  ∧ ckit.trace run'.2 = [].
Proof.
  intros Hrun Hslow Hro Hsf Hisil Hnr Hcodec. cbn zeta.
  apply serve_Ok in Hrun
    as (st0 & st1 & response & response' & -> & _ & Hasm & st2 & Hexp & Hsend).
  apply assemble_Ok in Hasm
    as (doi & citing & cited & batches & _ & _ & _ & _ & -> & ->).
  apply cacheExpensive_Ok in Hexp
    as [(_ & _ & [Hnone|Hquick])|(c0 & b & z & Hc0 & _ & -> & Hb & Hz & _ & ->)];
    [discriminate Hnone|lia|].
  cbn in Hc0. injection Hc0 as <-.
  apply filterAndSend_Ok in Hsend
    as (served & st3 & b' & [(_ & -> & ->)|(Hne & _)] & Hb' & ->); [|done].
  rewrite Hb in Hb'. injection Hb' as <-.
  set (cached := {| ckit.store := <[req_id r := z]> (ckit.store c);
                    ckit.readonly := false; ckit.set_fault := None |}).
  assert (Hcache : ckit.cache
                     (after_send
                        (after_cache_set
                           (with_trace
                              {| ckit.w := Header_Add "Content-Type" "application/json"
                                             new_writer;
                                 ckit.cache := Some c; ckit.snippetPool := pool;
                                 ckit.trace := [] |} (in_events batches))
                           c (ckit.set_Cached true
                                (assembled L s clk (req_id r) doi citing cited
                                   (concat (map (in_rows (ckit.IdentifierDatabase s))
                                              batches)))) z)
                        (ckit.set_Cached true
                           (assembled L s clk (req_id r) doi citing cited
                              (concat (map (in_rows (ckit.IdentifierDatabase s))
                                         batches)))) b)
                   = Some cached).
  { cbn. unfold ckit.Cache_Set. by rewrite Hro, Hsf. }
  rewrite Hcache.
  rewrite (ckit_hit_plain L s' clk' r cached pool' z (b ++ newline)).
  - cbn. repeat split; done.
  - apply lookup_insert_eq.
  - done.
  - done.
  - by apply Hcodec.
  - by destruct b.
Qed.

Lemma ckit_cache_round_trip_witness :
  let first :=
    ckit.serve ckit_sample_libs happy_server slow (request "L1" "")
      (Some empty_cache) [] in
  let run' :=
    ckit.serve ckit_sample_libs partial_server quick (request "L1" "")
      (ckit.cache first.2) [] in
  run'.1 = Returned
  ∧ status (ckit.w run'.2) = Some 200
  ∧ body (ckit.w run'.2)
    = ckit.RegexpString_took
        (ckit.took_text ckit_sample_libs (ckit.since_cache_hit quick))
        (body (ckit.w first.2))
  ∧ ckit.cache run'.2 = ckit.cache first.2
  ∧ ckit.trace run'.2 = [].
Proof.
  apply (ckit_cache_round_trip ckit_sample_libs happy_server partial_server slow quick
           (request "L1" "") empty_cache [] []).
  - vm_compute. reflexivity.
  - vm_compute. reflexivity.
  - reflexivity.
  - reflexivity.
  - reflexivity.
  - reflexivity.
  - intros x z Hz. injection Hz as <-. reflexivity.
Defined.

(** A cache hit is answered by [serveCached] alone. *)
Lemma ckit_serve_hit L s clk r c pool cached st' :
  ckit.store c !! req_id r = Some cached →
  ckit.serveCached L clk (req_i r) cached (ckit_begin (Some c) pool) = (Returned, st') →
  ckit.serve L s clk r (Some c) pool = (Returned, st').
Proof.
  intros Hhit Hserved. unfold ckit.serve, ckit.handleLocalIdentifier.
  erewrite bind_run by reflexivity.
  apply bind_Returned.
  erewrite ckit_cacheProbe_hit by (cbn; done). exact Hserved.
Qed.

(** X15: a request that finds a bad entry in the cache returns without
    asking the stores and leaves the entry where it is. An entry that
    decompresses in full, to a text the JSON decoder refuses, is sent as
    it is, with status 200, to a request without tag, and is answered
    with 500 to a request with a tag. An entry whose read fails is
    answered with 500 when nothing of it came through; without a tag,
    the part that came through has been sent by then: the status is 200
    and the error message follows that part in the body. *)
Theorem ckit_bad_cache_entry (L : ckit.Libs) (s : ckit.Server)
    (clk : ckit.Clock) (r : Request) (c : ckit.Cache) (pool : list ckit.Snippet)
    (cached : bytes) :
  marshals L →
  ckit.store c !! req_id r = Some cached →
  ckit.zstd_NewReader L = None →
  let took := ckit.took_text L (ckit.since_cache_hit clk) in
  let run := ckit.serve L s clk r (Some c) pool in
  (∀ data err,
     ckit.zstd_read L cached = inr data →
     data ≠ [] →
     ckit.json_Decode L (ckit.RegexpString_took took data) = inl err →
     run.1 = Returned
     ∧ ckit.cache run.2 = Some c
     ∧ ckit.trace run.2 = []
     ∧ (req_i r = "" →
        status (ckit.w run.2) = Some 200
        ∧ body (ckit.w run.2) = ckit.RegexpString_took took data)
     ∧ (req_i r ≠ "" →
        status (ckit.w run.2) = Some 500
        ∧ ∃ b, ckit.json_ErrorMessage L 500 (Wrapped "cache json decode" err) = inr b
               ∧ body (ckit.w run.2) = b ++ newline))
  ∧ (∀ err,
       ckit.zstd_read L cached = inl err →
       req_i r = "" →
       let part := ckit.replaced_before L took cached in
       run.1 = Returned
       ∧ ckit.cache run.2 = Some c
       ∧ ckit.trace run.2 = []
       ∧ status (ckit.w run.2) = Some (match part with [] => 500 | _ :: _ => 200 end)
       ∧ ∃ b, ckit.json_ErrorMessage L 500 (Wrapped "cache copy" err) = inr b
              ∧ body (ckit.w run.2) = part ++ b ++ newline)
  ∧ (∀ err err',
       ckit.zstd_read L cached = inl err →
       req_i r ≠ "" →
       ckit.json_Decode_failing L (ckit.replaced_before L took cached) err = inl err' →
       run.1 = Returned
       ∧ ckit.cache run.2 = Some c
       ∧ ckit.trace run.2 = []
       ∧ status (ckit.w run.2) = Some 500
       ∧ ∃ b, ckit.json_ErrorMessage L 500 (Wrapped "cache json decode" err') = inr b
              ∧ body (ckit.w run.2) = b ++ newline).
Proof.
  intros Hmar Hhit Hnr took. cbn zeta.
  assert (Hdecode : ∀ err,
    req_i r ≠ "" →
    match ckit.zstd_read L cached with
    | inl e => ckit.json_Decode_failing L (ckit.replaced_before L took cached) e
    | inr data => ckit.json_Decode L (ckit.RegexpString_took took data)
    end = inl err →
    ∃ b, ckit.json_ErrorMessage L 500 (Wrapped "cache json decode" err) = inr b
         ∧ ckit.serve L s clk r (Some c) pool
           = (Returned,
              {| ckit.w := http_Error b StatusInternalServerError ckit_fresh_writer;
                 ckit.cache := Some c; ckit.snippetPool := pool; ckit.trace := [] |})).
  { intros err Hisil Hdec.
    destruct (Hmar 500 (Wrapped "cache json decode" err)) as [b Hb].
    exists b. split; [done|]. apply ckit_serve_hit with cached; [done|].
    unfold ckit.serveCached. rewrite Hnr.
    rewrite bool_decide_eq_true_2 by done. fold took.
    replace (match
               match ckit.zstd_read L cached with
               | inl err0 => inl (ckit.replaced_before L took cached, err0)
               | inr data => inr (ckit.RegexpString_took took data)
               end
             with
             | inl (part, err0) => ckit.json_Decode_failing L part err0
             | inr data => ckit.json_Decode L data
             end) with (@inl error ckit.Response err)
      by (rewrite <- Hdec; by destruct (ckit.zstd_read L cached)).
    apply bind_Returned. unfold ckit.httpErrLogf.
    erewrite bind_run; [reflexivity|].
    unfold ckit.httpErrLog, StatusInternalServerError. by rewrite Hb. }
  split; [|split].
  - intros data err Hread Hdata Hdec.
    destruct (decide (req_i r = "")) as [Hisil|Hisil].
    + rewrite (ckit_hit_plain L s clk r c pool cached data) by done.
      cbn. split; [done|]. split; [done|]. split; [done|]. split; [done|]. done.
    + destruct (Hdecode err Hisil) as (b & Hb & ->); [by rewrite Hread|].
      cbn. split; [done|]. split; [done|]. split; [done|]. split; [done|].
      intros _. split; [done|]. by exists b.
  - intros err Hread Hisil.
    destruct (Hmar 500 (Wrapped "cache copy" err)) as [b Hb].
    assert (Hserved :
      ckit.serveCached L clk (req_i r) cached (ckit_begin (Some c) pool)
      = (Returned,
         {| ckit.w :=
              http_Error b StatusInternalServerError
                (match ckit.replaced_before L took cached with
                 | [] => ckit_fresh_writer
                 | part => Write part ckit_fresh_writer
                 end);
            ckit.cache := Some c; ckit.snippetPool := pool; ckit.trace := [] |})).
    { unfold ckit.serveCached. rewrite Hnr, Hread, Hisil.
      rewrite bool_decide_eq_false_2 by (intros Hne; by apply Hne).
      fold took. apply bind_Returned.
      unfold ckit.Copy, ckit.httpErrLogf, ckit.httpErrLog, StatusInternalServerError.
      rewrite Hb.
      destruct (ckit.replaced_before L took cached) as [|x part]; reflexivity. }
    rewrite (ckit_serve_hit L s clk r c pool cached _ Hhit Hserved).
    destruct (ckit.replaced_before L took cached) as [|x part]; cbn;
      (split; [done|]); (split; [done|]); (split; [done|]); (split; [done|]);
      exists b; (split; [done|]); done.
  - intros err err' Hread Hisil Hdec.
    destruct (Hdecode err' Hisil) as (b & Hb & ->); [by rewrite Hread|].
    cbn. split; [done|]. split; [done|]. split; [done|]. split; [done|]. by exists b.
Qed.

(** A cache whose entry for L1 breaks in the middle, and a codec that
    yields the first part of its text before it fails. *)
Lemma ckit_bad_cache_entry_witness :
  let plain :=
    ckit.serve breaking_libs happy_server quick (request "L1" "") (Some breaking_cache) [] in
  let tagged :=
    ckit.serve breaking_libs happy_server quick (request "L1" "DE-14")
      (Some breaking_cache) [] in
  let undecodable :=
    ckit.serve breaking_libs happy_server quick (request "L2" "DE-14")
      (Some breaking_cache) [] in
  (status (ckit.w plain.2) = Some 200
   ∧ body (ckit.w plain.2) = bytes_of "{" ++ bytes_of "500" ++ newline
   ∧ ckit.cache plain.2 = Some breaking_cache)
  ∧ (status (ckit.w tagged.2) = Some 500
     ∧ ckit.cache tagged.2 = Some breaking_cache)
  ∧ (status (ckit.w undecodable.2) = Some 500
     ∧ ckit.cache undecodable.2 = Some breaking_cache).
Proof.
  cbn zeta. split; [|split].
  - destruct (ckit_bad_cache_entry breaking_libs happy_server quick
                (request "L1" "") breaking_cache [] (bytes_of "broken frame"))
      as (_ & Hplain & _).
    + intros status err. by eexists.
    + reflexivity.
    + reflexivity.
    + destruct (Hplain (Opaque "unexpected EOF") eq_refl eq_refl)
        as (_ & Hc & _ & Hs & b & Hb & Hbody).
      split; [exact Hs|]. split; [|exact Hc].
      rewrite Hbody. injection Hb as <-. reflexivity.
  - destruct (ckit_bad_cache_entry breaking_libs happy_server quick
                (request "L1" "DE-14") breaking_cache [] (bytes_of "broken frame"))
      as (_ & _ & Htagged).
    + intros status err. by eexists.
    + reflexivity.
    + reflexivity.
    + destruct (Htagged (Opaque "unexpected EOF") (Opaque "unexpected EOF") eq_refl)
        as (_ & Hc & _ & Hs & _); [discriminate|reflexivity|].
      by split.
  - destruct (ckit_bad_cache_entry breaking_libs happy_server quick
                (request "L2" "DE-14") breaking_cache [] (bytes_of "not a document"))
      as (Hund & _).
    + intros status err. by eexists.
    + reflexivity.
    + reflexivity.
    + destruct (Hund (bytes_of "not a document") (Opaque "invalid character") eq_refl)
        as (_ & Hc & _ & _ & Hs); [discriminate|reflexivity|].
      destruct Hs as [Hs _]; [discriminate|]. by split.
Defined.

(** ** How the ckit handler can end *)

Lemma tame_weaken (P : Prop) {A : Type} (res : result A) : tame False res → tame P res.
Proof. destruct res; cbn; tauto. Qed.

Lemma tame_bind (P : Prop) {A B : Type} (m : ckit.M A) (f : A → ckit.M B) st :
  tame P (m st).1 →
  (∀ a st1, m st = (Ok a, st1) → tame P (f a st1).1) →
  tame P ((m ≫= f) st).1.
Proof.
  intros Hm Hf. unfold mbind, Run_bind, bind.
  destruct (m st) as [[a| | |] st1]; cbn in *; [by apply Hf|done..].
Qed.

Lemma quiet_bind {A B : Type} (m : ckit.M A) (f : A → ckit.M B) :
  quiet m → (∀ a, quiet (f a)) → quiet (m ≫= f).
Proof. intros Hm Hf st. apply tame_bind; [apply Hm|]. intros a st1 _. apply Hf. Qed.

Lemma quiet_ret {A : Type} (a : A) : quiet (mret a).
Proof. by intros st. Qed.

Lemma quiet_return {A : Type} : quiet (@return_ ckit.State A).
Proof. by intros st. Qed.

Lemma quiet_modify_w f : quiet (ckit.modify_w f).
Proof. by intros st. Qed.

Lemma quiet_emit ev : quiet (ckit.emit ev).
Proof. by intros st. Qed.

Lemma quiet_snippetPool_Get : quiet ckit.snippetPool_Get.
Proof. intros st. unfold ckit.snippetPool_Get. by destruct (ckit.snippetPool st). Qed.

Lemma quiet_snippetPool_Put v : quiet (ckit.snippetPool_Put v).
Proof. by intros st. Qed.

Lemma quiet_get_cache : quiet ckit.get_cache.
Proof. by intros st. Qed.

(** One step of a proof that a computation is quiet. *)
Ltac quiet_step :=
  first
    [ apply quiet_ret | apply quiet_return | apply quiet_modify_w | apply quiet_emit
    | apply quiet_snippetPool_Get | apply quiet_snippetPool_Put | apply quiet_get_cache
    | apply quiet_bind; [|intros ?]
    | match goal with
      | |- quiet (match ?x with _ => _ end) => destruct x
      end ].

Lemma quiet_httpErrLog L code err : quiet (ckit.httpErrLog L code err).
Proof. unfold ckit.httpErrLog. repeat quiet_step. Qed.

Lemma quiet_httpErrLogf L code msg err : quiet (ckit.httpErrLogf L code msg err).
Proof. apply quiet_httpErrLog. Qed.

Lemma quiet_Encode L r : quiet (ckit.Encode L r).
Proof. unfold ckit.Encode. repeat quiet_step. Qed.

Lemma quiet_hydrate L s outbound inbound ids : ∀ response,
  quiet (ckit.hydrate L s outbound inbound ids response).
Proof.
  induction ids as [|v ids IH]; intros response; cbn [ckit.hydrate];
    repeat first [apply IH | apply quiet_httpErrLogf | quiet_step].
Qed.

Lemma quiet_resolveDOI L s id : quiet (ckit.resolveDOI L s id).
Proof. unfold ckit.resolveDOI. repeat first [apply quiet_httpErrLogf | quiet_step]. Qed.

Lemma quiet_getEdges L s doi : quiet (ckit.getEdges L s doi).
Proof. unfold ckit.getEdges. repeat first [apply quiet_httpErrLogf | quiet_step]. Qed.

(** The filter ends by falling through or by the panic of the
    decoder. *)
Lemma tame_filterCiting L isil bs : ∀ citing r st,
  tame True (ckit.filterCiting L isil bs citing r st).1.
Proof.
  intros citing r st.
  destruct (filterCiting_outcome L isil bs citing r st) as [(x & st' & ->)|(st' & ->)];
    by cbn.
Qed.

Lemma tame_filterCited L isil bs : ∀ cited r st,
  tame True (ckit.filterCited L isil bs cited r st).1.
Proof.
  induction bs as [|b bs IH]; intros cited r st; [done|].
  cbn [ckit.filterCited].
  destruct (snippetPool_Get_total st) as (v & st1 & Hget).
  rewrite (bind_run _ _ _ _ _ Hget).
  destruct (ckit.json_Unmarshal L b v) as [?|v']; [by cbn|].
  destruct (ckit.sliceContains (ckit.Institution v') isil);
    (erewrite bind_run by reflexivity); apply IH.
Qed.

Lemma tame_applyInstitutionFilter (P : Prop) L r isil st :
  P → tame P (ckit.applyInstitutionFilter L r isil st).1.
Proof.
  intros HP.
  assert (H : tame True (ckit.applyInstitutionFilter L r isil st).1).
  { unfold ckit.applyInstitutionFilter. apply tame_bind; [done|]. intros [] st0 _.
    apply tame_bind; [apply tame_filterCiting|]. intros [citing r1] st1 _.
    apply tame_bind; [apply tame_filterCited|]. intros [cited r2] st2 _. done. }
  destruct (ckit.applyInstitutionFilter L r isil st).1; cbn in *; tauto.
Qed.

Lemma size_add_le (x : string) (X : gset string) : (size ({[x]} ∪ X) <= S (size X))%nat.
Proof.
  rewrite size_union_alt, size_singleton.
  pose proof (subseteq_size (X ∖ {[x]}) X) as Hle.
  assert (X ∖ {[x]} ⊆ X) by (intros y [? _]%elem_of_difference; done).
  specialize (Hle ltac:(done)). lia.
Qed.

Lemma size_union_le (X Y : gset string) : (size (X ∪ Y) <= size X + size Y)%nat.
Proof.
  rewrite size_union_alt.
  pose proof (subseteq_size (Y ∖ X) Y) as Hle.
  assert (Y ∖ X ⊆ Y) by (intros y [? _]%elem_of_difference; done).
  specialize (Hle ltac:(done)). lia.
Qed.

Lemma size_foldl_add (f : Map → string) (l : list Map) : ∀ acc : gset string,
  (size (foldl (λ acc v, {[f v]} ∪ acc) acc l) <= size acc + length l)%nat.
Proof.
  induction l as [|v l IH]; intros acc; cbn; [lia|].
  specialize (IH ({[f v]} ∪ acc)). pose proof (size_add_le (f v) acc). lia.
Qed.

Lemma universe_fits L (oci : DB) (doi : string) (citing cited : list Map) :
  fits oci →
  SelectContext oci (SelectAllWhereK doi) = inr citing →
  SelectContext oci (SelectAllWhereV doi) = inr cited →
  len (ckit.Slice_order L (universe citing cited)) <= ckit.max_strings.
Proof.
  unfold fits, SelectContext. intros Hfits Hk Hv.
  destruct (fault oci (SelectAllWhereK doi)); [discriminate|].
  destruct (fault oci (SelectAllWhereV doi)); [discriminate|].
  injection Hk as <-. injection Hv as <-.
  set (citing := List.filter _ _). set (cited := List.filter (selects (SelectAllWhereV doi)) _).
  pose proof (filter_length_le (selects (SelectAllWhereK doi)) (table oci)) as H1.
  pose proof (filter_length_le (selects (SelectAllWhereV doi)) (table oci)) as H2.
  fold citing in H1. fold cited in H2.
  pose proof (size_foldl_add Value citing ∅) as H3.
  pose proof (size_foldl_add Key cited ∅) as H4.
  rewrite size_empty in H3, H4.
  pose proof (size_union_le (ckit.collectOutbound citing) (ckit.collectInbound cited)) as H5.
  unfold ckit.collectOutbound, ckit.collectInbound in H5.
  assert (Hlen : length (ckit.Slice_order L (universe citing cited))
                 = size (universe citing cited)).
  { unfold size, set_size. cbn. apply Permutation_length, iter_perm. }
  unfold len in *. rewrite Hlen. unfold universe, ckit.collectOutbound, ckit.collectInbound.
  lia.
Qed.

Lemma tame_reverseMap L s ds st :
  len (ckit.Slice_order L ds) <= ckit.max_strings →
  tame False (ckit.reverseMap L s ds st).1.
Proof.
  intros Hmax. unfold ckit.reverseMap.
  destruct (mapToLocal_returns L s (ckit.Slice_order L ds) st Hmax)
    as (res & st' & Hrun).
  erewrite bind_run by exact Hrun.
  destruct res as [err|ids]; [|done].
  apply quiet_bind; [|intros ?; apply quiet_return].
  destruct (bool_decide (err = Canceled)); [apply quiet_ret|apply quiet_httpErrLogf].
Qed.

Lemma tame_assemble L s clk id st :
  fits (ckit.OciDatabase s) → tame False (ckit.assemble L s clk id st).1.
Proof.
  intros Hfits. unfold ckit.assemble.
  apply tame_bind; [apply quiet_resolveDOI|]. intros doi st1 _.
  apply tame_bind; [apply quiet_getEdges|]. intros [citing cited] st2 Hedges.
  apply getEdges_Ok in Hedges as [-> Hedges]. cbn [ckit.set_DOI ckit.DOI] in Hedges.
  cbv zeta.
  destruct (bool_decide (ckit.collectOutbound citing ∪ ckit.collectInbound cited = ∅)).
  { apply quiet_bind; [apply quiet_modify_w|intros ?; apply quiet_return]. }
  apply tame_bind.
  { apply tame_reverseMap. unfold ckit.edges in Hedges.
    destruct (SelectContext _ (SelectAllWhereK doi)) as [?|citing'] eqn:Hk; [discriminate|].
    destruct (SelectContext _ (SelectAllWhereV doi)) as [?|cited'] eqn:Hv; [discriminate|].
    injection Hedges as <- <-.
    by apply (universe_fits L (ckit.OciDatabase s) doi). }
  intros ids st3 _.
  apply tame_bind.
  { edestruct recordUnmatched_total as [r5 ->];
      [apply ckit_unmatched_keys_in_universe|done]. }
  intros r5 st4 _.
  apply tame_bind; [apply quiet_hydrate|]. intros r6 st5 _. done.
Qed.

Lemma tame_wrap L response st c0 :
  ckit.cache st = Some c0 → tame False (ckit.wrap L response st).1.
Proof.
  intros Hc. unfold ckit.wrap. destruct (ckit.zstd_NewWriter L); [done|].
  erewrite bind_run by reflexivity.
  destruct (ckit.json_Marshal L response) as [?|b]; [done|].
  destruct (ckit.zstd_Close L (b ++ newline)) as [?|z]; [done|].
  apply tame_bind.
  - unfold ckit.Cache_Set_M. cbn [ckit.cache]. rewrite Hc.
    by destruct (ckit.Cache_Set c0 (ckit.ID response) z).
  - intros [e|] st1 _; [destruct (bool_decide (e = ErrReadOnly))|]; done.
Qed.

Lemma tame_cacheExpensive L s clk response st :
  tame False (ckit.cacheExpensive L s clk response st).1.
Proof.
  unfold ckit.cacheExpensive, ckit.get_cache. erewrite bind_run by reflexivity.
  destruct (ckit.cache st) as [c0|] eqn:Hc; cbn [bool_decide andb]; [|done].
  rewrite bool_decide_eq_true_2 by done. cbn [andb].
  destruct (_ <? _); [|done].
  apply tame_bind; [by apply (tame_wrap _ _ _ c0)|].
  intros [e|] st1 _; [|done].
  apply quiet_bind; [apply quiet_httpErrLog|intros ?; apply quiet_return].
Qed.

Lemma tame_filterAndSend L isil response st :
  tame (isil ≠ "") (ckit.filterAndSend L isil response st).1.
Proof.
  unfold ckit.filterAndSend. apply tame_bind.
  - destruct (bool_decide_reflect (isil ≠ "")); [by apply tame_applyInstitutionFilter|done].
  - intros served st1 _. apply tame_weaken.
    apply quiet_bind; [apply quiet_Encode|]. intros [e|]; [|apply quiet_ret].
    apply quiet_bind; [apply quiet_httpErrLogf|intros ?; apply quiet_return].
Qed.

Lemma quiet_Copy data : quiet (ckit.Copy data).
Proof. unfold ckit.Copy. destruct data; [apply quiet_ret|apply quiet_modify_w]. Qed.

Lemma tame_serveCached L clk isil b st :
  tame (isil ≠ "") (ckit.serveCached L clk isil b st).1.
Proof.
  unfold ckit.serveCached. destruct (ckit.zstd_NewReader L).
  { apply tame_weaken.
    apply quiet_bind; [apply quiet_httpErrLogf|intros ?; apply quiet_return]. }
  apply tame_bind; [|done].
  destruct (bool_decide_reflect (isil ≠ "")) as [Hne|_].
  - assert (Hsend : ∀ decoded : error + ckit.Response,
      tame (isil ≠ "")
        (match decoded with
         | inl err =>
             ckit.httpErrLogf L StatusInternalServerError "cache json decode" err;;
             return_
         | inr resp =>
             resp' ← ckit.applyInstitutionFilter L resp isil;
             err ← ckit.Encode L resp';
             match err with
             | Some err =>
                 ckit.httpErrLogf L StatusInternalServerError "encode" err;; return_
             | None => mret tt
             end
         end st).1).
    { intros [err|resp].
      { apply tame_weaken.
        apply quiet_bind; [apply quiet_httpErrLogf|intros ?; apply quiet_return]. }
      apply tame_bind; [by apply tame_applyInstitutionFilter|].
      intros resp' st1 _. apply tame_weaken.
      apply quiet_bind; [apply quiet_Encode|]. intros [e|]; [|apply quiet_ret].
      apply quiet_bind; [apply quiet_httpErrLogf|intros ?; apply quiet_return]. }
    destruct (ckit.zstd_read L b) as [err|data]; apply Hsend.
  - apply tame_weaken. destruct (ckit.zstd_read L b) as [err|data].
    + apply quiet_bind; [apply quiet_Copy|]. intros ?.
      apply quiet_bind; [apply quiet_httpErrLogf|intros ?; apply quiet_return].
    + apply quiet_Copy.
Qed.

(** X16: the ckit handler never runs into the panic of step (5), into
    a slice out of range or into a nil cache, and its batching loop
    always ends: on a citation table of at most 2^43 rows a request goes
    on to its end or returns early, and the only panic left is that of
    the institution filter on a blob that is not valid JSON, which needs
    a tag in the request. *)
Theorem ckit_handler_ends_in_order (L : ckit.Libs) (s : ckit.Server) (clk : ckit.Clock)
    (r : Request) (c : option ckit.Cache) (pool : list ckit.Snippet) :
  fits (ckit.OciDatabase s) →
  let run := ckit.serve L s clk r c pool in
  run.1 ≠ Diverged
  ∧ (∀ msg, run.1 = Panicked msg → req_i r ≠ "" ∧ msg = "internal data broken")
  ∧ (req_i r = "" → run.1 = Ok tt ∨ run.1 = Returned).
Proof.
  intros Hfits. cbn zeta.
  assert (Htame : tame (req_i r ≠ "") (ckit.serve L s clk r c pool).1).
  { unfold ckit.serve, ckit.handleLocalIdentifier.
    apply tame_bind; [done|]. intros [] st0 _.
    apply tame_bind.
    { unfold ckit.cacheProbe, ckit.get_cache. erewrite bind_run by reflexivity.
      destruct (ckit.cache st0) as [c0|]; [|done].
      destruct (ckit.Cache_Get c0 (req_id r)); [done|apply tame_serveCached]. }
    intros [] st1 _.
    apply tame_bind; [by apply tame_weaken, tame_assemble|]. intros response st2 _.
    apply tame_bind; [apply tame_weaken, tame_cacheExpensive|]. intros response' st3 _.
    apply tame_filterAndSend. }
  destruct (ckit.serve L s clk r c pool).1 as [[]| |msg|]; cbn in Htame.
  - split; [done|]. split; [done|]. by left.
  - split; [done|]. split; [done|]. by right.
  - destruct Htame as [Hne ->]. split; [done|]. split; [by intros ? [= <-]|done].
  - done.
Qed.

Lemma ckit_handler_ends_in_order_witness :
  let run :=
    ckit.serve ckit_sample_libs happy_server slow (request "L1" "") (Some empty_cache) [] in
  run.1 ≠ Diverged
  ∧ (∀ msg, run.1 = Panicked msg → "" ≠ "" ∧ msg = "internal data broken")
  ∧ ("" = "" → run.1 = Ok tt ∨ run.1 = Returned).
Proof.
  apply (ckit_handler_ends_in_order ckit_sample_libs happy_server slow
           (request "L1" "") (Some empty_cache) []).
  unfold fits, ckit.max_strings, len. cbn. lia.
Defined.

(** ** The response in terms of the three stores *)

Lemma List_filter_perm {A : Type} (p : A → bool) (l1 l2 : list A) :
  l1 ≡ₚ l2 → List.filter p l1 ≡ₚ List.filter p l2.
Proof.
  induction 1 as [|x l1 l2 _ IH|x y l|l1 l2 l3 _ IH1 _ IH2]; cbn.
  - done.
  - destruct (p x); [by constructor|done].
  - destruct (p x), (p y); try done. by constructor.
  - by rewrite IH1.
Qed.

Lemma List_filter_filter_sub {A : Type} (p q : A → bool) (l : list A) :
  (∀ x, p x = true → q x = true) →
  List.filter p (List.filter q l) = List.filter p l.
Proof.
  intros Hpq. induction l as [|x l IH]; [done|]. cbn.
  destruct (q x) eqn:Hq; cbn.
  - by rewrite IH.
  - destruct (p x) eqn:Hp; [|done]. apply Hpq in Hp. congruence.
Qed.

(** A request without tag that is answered: the response that goes to
    the encoder has the arrays steps (1) to (6) built. *)
Lemma ckit_untagged_run L s clk r c pool st :
  ckit.serve L s clk r c pool = (Ok tt, st) →
  req_i r = "" →
  ∃ doi citing cited ids served,
    GetContext (ckit.IdentifierDatabase s) (SelectVWhereK (req_id r)) = inr doi
    ∧ ckit.edges s doi = inr (citing, cited)
    ∧ ids ≡ₚ universe_rows s (universe citing cited)
    ∧ last_marshalled st = Some served
    ∧ ckit.ID served = req_id r ∧ ckit.DOI served = doi
    ∧ ckit.Citing served
      = omap (fetched s) (citing_rows (ckit.collectOutbound citing) ids)
    ∧ ckit.Cited served
      = omap (fetched s)
          (cited_rows (ckit.collectOutbound citing) (ckit.collectInbound cited) ids)
    ∧ ckit.Unmatched_Citing (ckit.Unmatched served)
      = unmatched_citing L (ckit.collectOutbound citing)
          (ckit.range_order L (universe citing cited ∖ list_to_set (Value <$> ids)))
    ∧ ckit.Unmatched_Cited (ckit.Unmatched served)
      = unmatched_cited L (ckit.collectOutbound citing)
          (ckit.range_order L (universe citing cited ∖ list_to_set (Value <$> ids))).
Proof.
  intros Hrun Hisil.
  apply serve_Ok in Hrun
    as (st0 & st1 & response & response' & -> & _ & Hasm & st2 & Hexp & Hsend).
  apply assemble_Ok in Hasm
    as (doi & citing & cited & batches & Hdoi & Hedges & _ & Hb & -> & ->).
  apply filterAndSend_Ok in Hsend
    as (served & st3 & b' & [(_ & -> & ->)|(Hne & _)] & _ & ->); [|done].
  exists doi, citing, cited,
    (concat (map (in_rows (ckit.IdentifierDatabase s)) batches)), response'.
  split; [done|]. split; [done|].
  split; [by apply (reverse_rows_perm L)|].
  split; [unfold last_marshalled, after_send; cbn; by rewrite last_snoc|].
  apply cacheExpensive_Ok in Hexp
    as [(-> & _)|(c0 & b & z & _ & _ & -> & _)]; by repeat split.
Qed.

(** X17: in the answer of the ckit handler to a request without tag,
    [citing] holds the blobs of the rows of the identifier table whose
    DOI is outbound, and [cited] those of the rows whose DOI is inbound
    and not outbound, each row with a blob giving one element; the order
    is that of the batches. *)
Theorem ckit_matched_arrays (L : ckit.Libs) (s : ckit.Server) (clk : ckit.Clock)
    (r : Request) (c : option ckit.Cache) (pool : list ckit.Snippet) (st : ckit.State) :
  ckit.serve L s clk r c pool = (Ok tt, st) →
  req_i r = "" →
  ∃ doi citing cited served,
    let outbound := ckit.collectOutbound citing in
    let inbound := ckit.collectInbound cited in
    GetContext (ckit.IdentifierDatabase s) (SelectVWhereK (req_id r)) = inr doi
    ∧ ckit.edges s doi = inr (citing, cited)
    ∧ last_marshalled st = Some served
    ∧ ckit.ID served = req_id r ∧ ckit.DOI served = doi
    ∧ ckit.Citing served ≡ₚ blobs_where s (λ d, bool_decide (d ∈ outbound))
    ∧ ckit.Cited served
      ≡ₚ blobs_where s (λ d, negb (bool_decide (d ∈ outbound))
                             && bool_decide (d ∈ inbound)).
Proof.
  intros Hrun Hisil.
  destruct (ckit_untagged_run _ _ _ _ _ _ _ Hrun Hisil)
    as (doi & citing & cited & ids & served & Hdoi & Hedges & Hids & Hlast & HID & HDOI
        & HC & HD & _ & _).
  exists doi, citing, cited, served. cbn zeta.
  repeat (split; [done|]). rewrite HC, HD. unfold blobs_where, citing_rows, cited_rows.
  split.
  - rewrite (List_filter_perm _ _ _ Hids). unfold universe_rows.
    rewrite List_filter_filter_sub; [done|].
    intros row Hrow%bool_decide_eq_true. apply bool_decide_eq_true.
    unfold universe. apply elem_of_union. by left.
  - rewrite (List_filter_perm _ _ _ Hids). unfold universe_rows.
    rewrite List_filter_filter_sub; [done|].
    intros row [_ Hrow%bool_decide_eq_true]%andb_prop. apply bool_decide_eq_true.
    unfold universe. apply elem_of_union. by right.
Qed.

Lemma ckit_matched_arrays_witness :
  let run := ckit.serve ckit_sample_libs happy_server quick (request "L1" "") None [] in
  ∃ doi citing cited served,
    let outbound := ckit.collectOutbound citing in
    let inbound := ckit.collectInbound cited in
    GetContext (ckit.IdentifierDatabase happy_server) (SelectVWhereK "L1") = inr doi
    ∧ ckit.edges happy_server doi = inr (citing, cited)
    ∧ last_marshalled run.2 = Some served
    ∧ ckit.ID served = "L1" ∧ ckit.DOI served = doi
    ∧ ckit.Citing served ≡ₚ blobs_where happy_server (λ d, bool_decide (d ∈ outbound))
    ∧ ckit.Cited served
      ≡ₚ blobs_where happy_server
           (λ d, negb (bool_decide (d ∈ outbound)) && bool_decide (d ∈ inbound)).
Proof.
  apply (ckit_matched_arrays ckit_sample_libs happy_server quick (request "L1" "")
           None []).
  - vm_compute. reflexivity.
  - reflexivity.
Defined.

Lemma matched_set (s : ckit.Server) (ds : gset string) (ids : list Map) :
  ids ≡ₚ universe_rows s ds →
  ds ∖ list_to_set (Value <$> ids) = ds ∖ local_dois s.
Proof.
  intros Hids. apply set_eq. intros x. rewrite !elem_of_difference.
  unfold local_dois. rewrite !elem_of_list_to_set, !list_elem_of_fmap.
  split; intros [Hx Hno]; (split; [done|]); intros (row & -> & Hrow); apply Hno;
    exists row; (split; [done|]).
  - rewrite Hids. unfold universe_rows.
    apply list_elem_of_In, filter_In. split; [by apply list_elem_of_In|].
    by apply bool_decide_eq_true.
  - rewrite Hids in Hrow. unfold universe_rows in Hrow.
    apply list_elem_of_In, filter_In in Hrow as [Hrow _]. by apply list_elem_of_In.
Qed.

Lemma filter_elements (p : string → bool) (X Y : gset string) (ks : list string) :
  ks ≡ₚ elements X →
  (∀ x, x ∈ Y ↔ x ∈ X ∧ p x = true) →
  List.filter p ks ≡ₚ elements Y.
Proof.
  intros Hks HY. apply NoDup_Permutation.
  - apply NoDup_List_filter. rewrite Hks. apply NoDup_elements.
  - apply NoDup_elements.
  - intros x. rewrite elem_of_elements, HY.
    rewrite list_elem_of_In, filter_In, <- list_elem_of_In, Hks, elem_of_elements. done.
Qed.

(** X18: in the answer of the ckit handler to a request without tag,
    [unmatched.citing] holds one synthetic blob for each outbound DOI
    without a row in the identifier table, and [unmatched.cited] one for
    each DOI that is inbound, not outbound, and without a row: no DOI is
    listed twice, none is left out, and a DOI of both directions counts
    as outbound. *)
Theorem ckit_unmatched_arrays (L : ckit.Libs) (s : ckit.Server) (clk : ckit.Clock)
    (r : Request) (c : option ckit.Cache) (pool : list ckit.Snippet) (st : ckit.State) :
  ckit.serve L s clk r c pool = (Ok tt, st) →
  req_i r = "" →
  ∃ doi citing cited served,
    let outbound := ckit.collectOutbound citing in
    let inbound := ckit.collectInbound cited in
    GetContext (ckit.IdentifierDatabase s) (SelectVWhereK (req_id r)) = inr doi
    ∧ ckit.edges s doi = inr (citing, cited)
    ∧ last_marshalled st = Some served
    ∧ ckit.Unmatched_Citing (ckit.Unmatched served)
      ≡ₚ ckit.unmatchedBlob L <$> elements (outbound ∖ local_dois s)
    ∧ ckit.Unmatched_Cited (ckit.Unmatched served)
      ≡ₚ ckit.unmatchedBlob L <$> elements ((inbound ∖ outbound) ∖ local_dois s).
Proof.
  intros Hrun Hisil.
  destruct (ckit_untagged_run _ _ _ _ _ _ _ Hrun Hisil)
    as (doi & citing & cited & ids & served & Hdoi & Hedges & Hids & Hlast & _ & _
        & _ & _ & HUC & HUD).
  exists doi, citing, cited, served. cbn zeta.
  repeat (split; [done|]). rewrite HUC, HUD.
  rewrite (matched_set s _ ids Hids).
  unfold unmatched_citing, unmatched_cited, universe.
  set (outbound := ckit.collectOutbound citing).
  set (inbound := ckit.collectInbound cited).
  pose proof (iter_perm (ckit.range_order L) ((outbound ∪ inbound) ∖ local_dois s)) as Hks.
  split.
  - change (map (ckit.unmatchedBlob L)) with (fmap (M:=list) (ckit.unmatchedBlob L)).
    apply fmap_Permutation. apply (filter_elements _ _ _ _ Hks). intros x.
    rewrite bool_decide_eq_true, !elem_of_difference, elem_of_union. tauto.
  - change (map (ckit.unmatchedBlob L)) with (fmap (M:=list) (ckit.unmatchedBlob L)).
    apply fmap_Permutation. apply (filter_elements _ _ _ _ Hks). intros x.
    rewrite negb_true_iff, bool_decide_eq_false, !elem_of_difference, elem_of_union.
    tauto.
Qed.

Lemma ckit_unmatched_arrays_witness :
  let run := ckit.serve ckit_sample_libs partial_server quick (request "L1" "") None [] in
  ∃ doi citing cited served,
    let outbound := ckit.collectOutbound citing in
    let inbound := ckit.collectInbound cited in
    GetContext (ckit.IdentifierDatabase partial_server) (SelectVWhereK "L1") = inr doi
    ∧ ckit.edges partial_server doi = inr (citing, cited)
    ∧ last_marshalled run.2 = Some served
    ∧ ckit.Unmatched_Citing (ckit.Unmatched served)
      ≡ₚ ckit.unmatchedBlob ckit_sample_libs
           <$> elements (outbound ∖ local_dois partial_server)
    ∧ ckit.Unmatched_Cited (ckit.Unmatched served)
      ≡ₚ ckit.unmatchedBlob ckit_sample_libs
           <$> elements ((inbound ∖ outbound) ∖ local_dois partial_server).
Proof.
  apply (ckit_unmatched_arrays ckit_sample_libs partial_server quick (request "L1" "")
           None []).
  - vm_compute. reflexivity.
  - reflexivity.
Defined.

(** ** The handlers of [/doi/{doi}] *)

Lemma GetContext_first (db : DB) (q : query) (row : Map) (rows : list Map) :
  fault db q = None →
  List.filter (selects q) (table db) = row :: rows →
  GetContext db q
  = inr (match q with SelectKWhereV _ => Key row | _ => Value row end).
Proof. intros Hf Hrows. unfold GetContext. by rewrite Hf, Hrows. Qed.

Lemma GetContext_none (db : DB) (doi : string) :
  fault db (SelectKWhereV doi) = None →
  (∀ row, row ∈ table db → Value row ≠ doi) →
  GetContext db (SelectKWhereV doi) = inl ErrNoRows.
Proof.
  intros Hf Hrows. unfold GetContext. rewrite Hf.
  rewrite filter_none; [done|]. intros row Hrow. cbn.
  apply bool_decide_eq_false. by apply Hrows.
Qed.

(** X19: [handleDOI] of package ckit always runs to its end. For a DOI
    with a row in the identifier table it answers 307 with the Location
    made from [/id/] and the key of the first such row, a plain-text
    Content-Type and no body, whatever the method. When the DOI has no
    row, and also when the statement fails with any error that is not
    the cancellation value itself, it answers 404 with the fixed body;
    on the cancellation value it writes nothing. *)
Theorem ckit_handleDOI_answers (N : Redirects) (s : ckit.Server) (r : DOIRequest) :
  let db := ckit.IdentifierDatabase s in
  let q := SelectKWhereV (req_doi r) in
  let run := ckit.handleDOI N s r ckit_start in
  run.1 = Ok tt
  ∧ (∀ row rows,
       fault db q = None →
       List.filter (selects q) (table db) = row :: rows →
       status (ckit.w run.2) = Some 307
       ∧ header (ckit.w run.2) = redirect_header N (Key row)
       ∧ body (ckit.w run.2) = [])
  ∧ (fault db q = Some Canceled → ckit.w run.2 = new_writer)
  ∧ ((fault db q = None ∧ ∀ row, row ∈ table db → Value row ≠ req_doi r)
     ∨ (∃ err, fault db q = Some err ∧ err ≠ Canceled) →
     status (ckit.w run.2) = Some 404
     ∧ header (ckit.w run.2) = error_header
     ∧ body (ckit.w run.2) = ckit.no_id_found ++ newline).
Proof.
  cbn zeta. unfold ckit.handleDOI. split; [|split; [|split]].
  - destruct (GetContext _ _) as [err|id]; [|done].
    by destruct (bool_decide (err = Canceled)).
  - intros row rows Hf Hrows. by rewrite (GetContext_first _ _ _ _ Hf Hrows).
  - intros Hf. by rewrite (GetContext_fault _ _ _ Hf).
  - intros [[Hf Hrows]|(err & Hf & Hne)].
    + by rewrite (GetContext_none _ _ Hf Hrows).
    + rewrite (GetContext_fault _ _ _ Hf). by rewrite bool_decide_eq_false_2.
Qed.

(** X20: [handleDOI] of package spindel answers a DOI with a row as
    package ckit does. An error of the lookup goes through
    [httpErrLog]: nothing is written when it is or wraps the
    cancellation value, 404 when it is or wraps the no-rows value, 500
    otherwise, with the text of the error as the body. *)
Theorem spindel_handleDOI_answers (N : Redirects) (s : spindel.Server) (r : DOIRequest) :
  let db := spindel.IdentifierDatabase s in
  let q := SelectKWhereV (req_doi r) in
  let run := spindel.handleDOI N s r spindel_start in
  (∀ row rows,
     fault db q = None →
     List.filter (selects q) (table db) = row :: rows →
     run.1 = Ok tt
     ∧ status (spindel.w run.2) = Some 307
     ∧ header (spindel.w run.2) = redirect_header N (Key row)
     ∧ body (spindel.w run.2) = [])
  ∧ (fault db q = None → (∀ row, row ∈ table db → Value row ≠ req_doi r) →
     run.1 = Returned
     ∧ status (spindel.w run.2) = Some 404
     ∧ body (spindel.w run.2) = bytes_of (Error_text ErrNoRows) ++ newline)
  ∧ (∀ err, fault db q = Some err →
       run.1 = Returned
       ∧ (errors_Is err Canceled = true → spindel.w run.2 = new_writer)
       ∧ (errors_Is err Canceled = false →
          status (spindel.w run.2)
          = Some (if errors_Is err ErrNoRows then 404 else 500)
          ∧ header (spindel.w run.2) = error_header
          ∧ body (spindel.w run.2) = bytes_of (Error_text err) ++ newline)).
Proof.
  cbn zeta. unfold spindel.handleDOI. split; [|split].
  - intros row rows Hf Hrows. by rewrite (GetContext_first _ _ _ _ Hf Hrows).
  - intros Hf Hrows. by rewrite (GetContext_none _ _ Hf Hrows).
  - intros err Hf. rewrite (GetContext_fault _ _ _ Hf). unfold spindel.httpErrLog.
    destruct (errors_Is err Canceled); [by repeat split|].
    destruct (errors_Is err ErrNoRows); by repeat split.
Qed.

Lemma filter_unique_key (rows : list Map) (row : Map) :
  NoDup (Key <$> rows) →
  row ∈ rows →
  List.filter (λ r, bool_decide (Key r = Key row)) rows = [row].
Proof.
  induction rows as [|x rows IH]; intros Hnd Hrow; [by apply elem_of_nil in Hrow|].
  cbn in Hnd. apply NoDup_cons in Hnd as [Hx Hnd]. cbn.
  apply elem_of_cons in Hrow as [->|Hrow].
  - rewrite bool_decide_eq_true_2 by done. f_equal.
    apply filter_none. intros y Hy. apply bool_decide_eq_false. intros Heq.
    apply Hx. rewrite <- Heq. by apply list_elem_of_fmap_2.
  - rewrite bool_decide_eq_false_2; [by apply IH|].
    intros Heq. apply Hx. rewrite Heq. by apply list_elem_of_fmap_2.
Qed.

(** X21: where no two rows of the identifier table share a key, the
    redirect of [/doi/{doi}] leads back to the DOI: the id that
    [handleDOI] puts into the Location is one that step (1) of the
    handler of [/id/{id}] resolves to the DOI asked for. *)
Theorem doi_redirect_resolves_back (N : Redirects) (L : ckit.Libs) (s : ckit.Server)
    (r : DOIRequest) (id : string) (st : ckit.State) :
  unique_keys (ckit.IdentifierDatabase s) →
  fault (ckit.IdentifierDatabase s) (SelectVWhereK id) = None →
  GetContext (ckit.IdentifierDatabase s) (SelectKWhereV (req_doi r)) = inr id →
  header (ckit.w (ckit.handleDOI N s r ckit_start).2) = redirect_header N id
  ∧ ckit.resolveDOI L s id st = (Ok (req_doi r), st).
Proof.
  intros Hnd Hf Hget. split.
  - unfold ckit.handleDOI. by rewrite Hget.
  - unfold GetContext in Hget.
    destruct (fault _ (SelectKWhereV _)); [discriminate|].
    destruct (List.filter _ _) as [|row rows] eqn:Hrows; [discriminate|].
    injection Hget as <-.
    assert (Hin : In row (List.filter (selects (SelectKWhereV (req_doi r)))
                            (table (ckit.IdentifierDatabase s))))
      by (rewrite Hrows; by left).
    apply filter_In in Hin as [Hrow Hv]. cbn in Hv. apply bool_decide_eq_true in Hv.
    unfold ckit.resolveDOI, GetContext. rewrite Hf.
    change (selects (SelectVWhereK (Key row)))
      with (λ r : Map, bool_decide (Key r = Key row)).
    rewrite (filter_unique_key _ row Hnd) by (by apply list_elem_of_In).
    by rewrite Hv.
Qed.

Lemma doi_redirect_resolves_back_witness :
  header (ckit.w (ckit.handleDOI sample_redirects happy_server
                    {| req_doi := "10.1/d2"; req_method := "GET" |} ckit_start).2)
  = redirect_header sample_redirects "L2"
  ∧ ckit.resolveDOI ckit_sample_libs happy_server "L2" ckit_start
    = (Ok "10.1/d2", ckit_start).
Proof.
  apply (doi_redirect_resolves_back sample_redirects ckit_sample_libs happy_server
           {| req_doi := "10.1/d2"; req_method := "GET" |} "L2" ckit_start).
  - apply (bool_decide_unpack _). by vm_compute.
  - reflexivity.
  - reflexivity.
Defined.

(** ** The cache and the errors of package spindel *)

Lemma spindel_hydrate_Ok s outbound inbound ids : ∀ response st response' st',
  spindel.hydrate s outbound inbound ids response st = (Ok response', st') →
  st' = st ∧ spindel.ID response' = spindel.ID response.
Proof.
  induction ids as [|v ids IH]; intros response st response' st' Hrun.
  - cbn in Hrun. by injection Hrun as <- <-.
  - cbn [spindel.hydrate] in Hrun.
    destruct (spindel.IndexData s (Key v)) as [err|b].
    + destruct (errors_Is err ErrBlobNotFound); [by apply IH in Hrun|].
      by apply then_return_not_Ok in Hrun.
    + destruct (bool_decide (Value v ∈ outbound)); [by apply IH in Hrun as [-> ->]|].
      destruct (bool_decide (Value v ∈ inbound)); [by apply IH in Hrun as [-> ->]|].
      by apply IH in Hrun.
Qed.

Lemma spindel_recordUnmatched_ID L outbound ks : ∀ response,
  spindel.ID (spindel.recordUnmatched L outbound ks response) = spindel.ID response.
Proof.
  induction ks as [|k ks IH]; intros response; [done|]. cbn [spindel.recordUnmatched].
  destruct (bool_decide (k ∈ outbound)); by rewrite IH.
Qed.

(** Steps (1) to (6) of package spindel, when they get to step (7):
    nothing is sent, the cache is as before, and the response has the
    id of the request. *)
Lemma spindel_assemble_Ok L s clk id st response st' :
  spindel.assemble L s clk id st = (Ok response, st') →
  status (spindel.w st') = status (spindel.w st)
  ∧ body (spindel.w st') = body (spindel.w st)
  ∧ spindel.cache st' = spindel.cache st
  ∧ spindel.ID response = id.
Proof.
  unfold spindel.assemble. cbn [spindel.new_Response spindel.ID].
  destruct (GetContext _ _) as [err|doi]; [by intros Hrun%then_return_not_Ok|].
  destruct (spindel.edges s _) as [err|[citing cited]];
    [by intros Hrun%then_return_not_Ok|].
  cbv zeta. destruct (bool_decide _); [by intros Hrun%then_return_not_Ok|].
  intros Hrun. apply bind_Ok in Hrun as (res & st1 & Hmap & Hrun).
  assert (Hst1 : spindel.w st1 = spindel.w st ∧ spindel.cache st1 = spindel.cache st).
  { unfold spindel.mapToLocal in Hmap.
    apply bind_Ok in Hmap as ([] & st0 & Hemit & Hmap). injection Hemit as <-.
    destruct (spindel.sqlx_In L _); [by injection Hmap as _ <-|].
    apply bind_Ok in Hmap as ([] & st0' & Hemit & Hmap). injection Hemit as <-.
    destruct (SelectContext _ _); by injection Hmap as _ <-. }
  destruct Hst1 as [Hw1 Hc1].
  destruct res as [err|ids]; [by apply then_return_not_Ok in Hrun|].
  apply bind_Ok in Hrun as (r6 & st2 & H6 & Hrun).
  apply spindel_hydrate_Ok in H6 as [-> HID].
  apply bind_Ok in Hrun as ([] & st3 & Hhdr & Hrun). injection Hhdr as <-.
  injection Hrun as <- <-. cbn. rewrite Hw1, Hc1. repeat split.
  cbn in HID. rewrite HID. by rewrite spindel_recordUnmatched_ID.
Qed.

Lemma spindel_cacheProbe_Ok s id st u st' :
  spindel.cacheProbe s id st = (Ok u, st') →
  spindel.w st' = spindel.w st.
Proof.
  unfold spindel.cacheProbe. destruct (spindel.CacheEnabled s); [|by intros [= _ <-]].
  unfold spindel.get_cache. erewrite bind_run by reflexivity.
  destruct (spindel.cache st !! id) as [[b|]|].
  - by intros Hrun%then_return_not_Ok.
  - by intros [= _ <-].
  - by intros [= _ <-].
Qed.

(** X22: after the spindel handler has answered an expensive request
    with its cache on, the next request for the same id gets the same
    bytes from the cache, whatever the stores hold then and however long
    it takes; no statement is sent and the cache stays as it is. *)
Theorem spindel_cache_round_trip (L L' : spindel.Libs) (s s' : spindel.Server)
    (clk clk' : spindel.Clock) (r : Request) (c : gmap string spindel.item)
    (st : spindel.State) :
  spindel.serve L s clk r c = (Ok tt, st) →
  spindel.CacheEnabled s = true →
  spindel.CacheTriggerDuration s < spindel.since_cache_trigger clk →
  spindel.CacheEnabled s' = true →
  let run' := spindel.serve L' s' clk' r (spindel.cache st) in
  run'.1 = Returned
  ∧ status (spindel.w run'.2) = Some 200
  ∧ body (spindel.w run'.2) = body (spindel.w st)
  ∧ spindel.cache run'.2 = spindel.cache st
  ∧ spindel.trace run'.2 = [].
Proof.
  intros Hrun Hon Hslow Hon'. cbn zeta.
  unfold spindel.serve, spindel.handleLocalIdentifier in Hrun.
  apply bind_Ok in Hrun as ([] & st0 & Hprobe & Hrun).
  apply spindel_cacheProbe_Ok in Hprobe as Hw0. cbn in Hw0.
  apply bind_Ok in Hrun as (response & st1 & Hasm & Hrun).
  apply spindel_assemble_Ok in Hasm as (Hs1 & Hb1 & _ & HID).
  rewrite Hw0 in Hs1, Hb1. cbn in Hs1, Hb1.
  unfold spindel.send in Hrun. rewrite Hon in Hrun. cbn [andb] in Hrun.
  replace (spindel.CacheTriggerDuration s <? spindel.since_cache_trigger clk)
    with true in Hrun by (symmetry; by apply Z.ltb_lt).
  apply bind_Ok in Hrun as ([] & st2 & Hemit & Hrun). injection Hemit as <-.
  destruct (spindel.json_Marshal L _) as [err|b]; [by apply then_return_not_Ok in Hrun|].
  apply bind_Ok in Hrun as ([] & st3 & Hins & Hrun). injection Hins as <-.
  injection Hrun as <-. cbn [spindel.cache spindel.w spindel.set_Cached spindel.set_Extra
                             spindel.ID].
  rewrite HID.
  assert (Hbody : body (Write b (spindel.w st1)) = b).
  { unfold Write, WriteHeader. rewrite Hs1. cbn. by rewrite Hb1. }
  rewrite Hbody.
  unfold spindel.serve, spindel.handleLocalIdentifier, spindel.cacheProbe.
  rewrite Hon'. unfold mbind, Run_bind, bind, spindel.get_cache. cbn.
  rewrite lookup_insert_eq. by cbn.
Qed.

Lemma spindel_cache_round_trip_witness :
  let first :=
    spindel.serve spindel_sample_libs spindel_caching_server spindel_slow
      (request "L1" "") ∅ in
  let run' :=
    spindel.serve spindel_sample_libs spindel_lonely_server spindel_quick
      (request "L1" "") (spindel.cache first.2) in
  run'.1 = Returned
  ∧ status (spindel.w run'.2) = Some 200
  ∧ body (spindel.w run'.2) = body (spindel.w first.2)
  ∧ spindel.cache run'.2 = spindel.cache first.2
  ∧ spindel.trace run'.2 = [].
Proof.
  apply (spindel_cache_round_trip spindel_sample_libs spindel_sample_libs
           spindel_caching_server spindel_lonely_server spindel_slow spindel_quick
           (request "L1" "") ∅).
  - vm_compute. reflexivity.
  - reflexivity.
  - vm_compute. reflexivity.
  - reflexivity.
Defined.

(** X23: a cache item of package spindel that is not a byte string is
    removed by the request that finds it, and the request is answered as
    on a cache without the item. *)
Theorem spindel_bogus_item_removed (L : spindel.Libs) (s : spindel.Server)
    (clk : spindel.Clock) (r : Request) (c : gmap string spindel.item) :
  spindel.CacheEnabled s = true →
  c !! req_id r = Some spindel.ItemOther →
  spindel.serve L s clk r c = spindel.serve L s clk r (delete (req_id r) c).
Proof.
  intros Hon Hbogus.
  unfold spindel.serve, spindel.handleLocalIdentifier.
  erewrite (bind_run (spindel.cacheProbe s (req_id r))).
  2: { unfold spindel.cacheProbe. rewrite Hon. unfold spindel.get_cache.
       erewrite bind_run by reflexivity. cbn [spindel.cache]. rewrite Hbogus.
       reflexivity. }
  erewrite (bind_run (spindel.cacheProbe s (req_id r))).
  2: { apply spindel_cacheProbe_miss. right. cbn. apply lookup_delete_eq. }
  reflexivity.
Qed.

Lemma spindel_bogus_item_removed_witness :
  spindel.serve spindel_sample_libs spindel_caching_server spindel_slow
    (request "L1" "") {["L1" := spindel.ItemOther]}
  = spindel.serve spindel_sample_libs spindel_caching_server spindel_slow
      (request "L1" "") (delete "L1" {["L1" := spindel.ItemOther]}).
Proof.
  apply (spindel_bogus_item_removed spindel_sample_libs spindel_caching_server
           spindel_slow (request "L1" "") {["L1" := spindel.ItemOther]}).
  - reflexivity.
  - reflexivity.
Defined.










(** ** The number of statements of the reverse mapping *)




(** ** A cache hit with an institution tag *)

(** X26: on a cache hit with a tag the ckit handler filters the cached
    response for this request: it decodes the stored text, with the took
    value rewritten, applies the filter and sends the encoding of the
    result; where the blobs carry the [institution] key the result is
    the filter of section 4.7. The stores are not asked and the cache,
    which holds the unfiltered response, stays as it is. *)
Theorem ckit_cache_hit_filtered (L : ckit.Libs) (s : ckit.Server) (clk : ckit.Clock)
    (r : Request) (c : ckit.Cache) (pool : list ckit.Snippet)
    (cached data b : bytes) (resp : ckit.Response) :
  ckit.store c !! req_id r = Some cached →
  req_i r ≠ "" →
  ckit.zstd_NewReader L = None →
  ckit.zstd_read L cached = inr data →
  ckit.json_Decode L
    (ckit.RegexpString_took (ckit.took_text L (ckit.since_cache_hit clk)) data)
  = inr resp →
  keyed L resp →
  ckit.json_Marshal L (holdings_filter L (req_i r) resp) = inr b →
  let run := ckit.serve L s clk r (Some c) pool in
  run.1 = Returned
  ∧ status (ckit.w run.2) = Some 200
  ∧ body (ckit.w run.2) = b ++ newline
  ∧ ckit.cache run.2 = Some c
  ∧ ckit.trace run.2
    = [ckit.EvFilter (req_i r); ckit.EvMarshal (holdings_filter L (req_i r) resp)].
Proof.
  intros Hhit Hisil Hnr Hread Hdec Hkeyed Hmar. cbn zeta.
  destruct (applyInstitutionFilter_keyed L (req_i r) resp
              (ckit_begin (Some c) pool) Hkeyed) as [st1 Hf].
  pose proof (applyInstitutionFilter_Ok _ _ _ _ _ _ Hf)
    as (_ & _ & _ & _ & _ & _ & _ & [Hw Hc] & Htr).
  assert (Hserved :
    ckit.serveCached L clk (req_i r) cached (ckit_begin (Some c) pool)
    = (Returned, after_send st1 (holdings_filter L (req_i r) resp) b)).
  { unfold ckit.serveCached. rewrite Hnr, Hread.
    rewrite bool_decide_eq_true_2 by done. rewrite Hdec.
    assert (Henc :
      ckit.Encode L (holdings_filter L (req_i r) resp) st1
      = (Ok None, after_send st1 (holdings_filter L (req_i r) resp) b)).
    { unfold ckit.Encode. erewrite bind_run by reflexivity. rewrite Hmar.
      erewrite bind_run by reflexivity. reflexivity. }
    erewrite bind_run; [reflexivity|].
    erewrite bind_run by exact Hf.
    erewrite bind_run by exact Henc. reflexivity. }
  unfold ckit.serve, ckit.handleLocalIdentifier.
  erewrite bind_run by reflexivity.
  erewrite bind_Returned.
  2: { erewrite ckit_cacheProbe_hit by (cbn; done). exact Hserved. }
  unfold after_send. cbn [fst snd ckit.w ckit.cache ckit.trace].
  rewrite Hw, Hc, Htr. by cbn.
Qed.

Lemma ckit_cache_hit_filtered_witness :
  let run :=
    ckit.serve decoding_libs partial_server quick (request "L1" "DE-14")
      (Some tagged_cache) [] in
  ∃ b,
    ckit.json_Marshal decoding_libs (holdings_filter decoding_libs "DE-14" mixed_response)
    = inr b
    ∧ run.1 = Returned
    ∧ status (ckit.w run.2) = Some 200
    ∧ body (ckit.w run.2) = b ++ newline
    ∧ ckit.cache run.2 = Some tagged_cache
    ∧ ckit.trace run.2
      = [ckit.EvFilter "DE-14";
         ckit.EvMarshal (holdings_filter decoding_libs "DE-14" mixed_response)].
Proof.
  eexists. split; [reflexivity|].
  apply (ckit_cache_hit_filtered decoding_libs partial_server quick
           (request "L1" "DE-14") tagged_cache [] tagged_body tagged_body _
           mixed_response).
  - reflexivity.
  - discriminate.
  - reflexivity.
  - reflexivity.
  - vm_compute. reflexivity.
  - exact sample_keyed.
  - reflexivity.
Defined.

(** ** The arrays of package spindel *)

Lemma spindel_omap_fetched_cons s v rows :
  omap (spindel_fetched s) (v :: rows)
  = match spindel.IndexData s (Key v) with
    | inr b => b :: omap (spindel_fetched s) rows
    | inl _ => omap (spindel_fetched s) rows
    end.
Proof. cbn. unfold spindel_fetched at 1. by destruct (spindel.IndexData s (Key v)). Qed.

Lemma spindel_hydrate_arrays s outbound inbound ids : ∀ response st response' st',
  spindel.hydrate s outbound inbound ids response st = (Ok response', st') →
  spindel.Citing response'
  = spindel.Citing response ++ omap (spindel_fetched s) (citing_rows outbound ids)
  ∧ spindel.Cited response'
    = spindel.Cited response
      ++ omap (spindel_fetched s) (cited_rows outbound inbound ids)
  ∧ spindel.Unmatched response' = spindel.Unmatched response.
Proof.
  induction ids as [|v ids IH]; intros response st response' st' Hrun.
  - cbn in Hrun. injection Hrun as <- <-. cbn. by rewrite !app_nil_r.
  - cbn [spindel.hydrate] in Hrun. rewrite citing_rows_cons, cited_rows_cons.
    destruct (spindel.IndexData s (Key v)) as [err|b] eqn:Hfetch.
    + destruct (errors_Is err ErrBlobNotFound);
        [|by apply then_return_not_Ok in Hrun].
      apply IH in Hrun as (-> & -> & ->).
      destruct (bool_decide (Value v ∈ outbound)),
               (bool_decide (Value v ∈ inbound)); cbn [negb andb];
        rewrite ?spindel_omap_fetched_cons, ?Hfetch; done.
    + destruct (bool_decide (Value v ∈ outbound)); cbn [negb andb].
      * apply IH in Hrun as (-> & -> & ->).
        rewrite spindel_omap_fetched_cons, Hfetch. cbn. by rewrite <- app_assoc.
      * destruct (bool_decide (Value v ∈ inbound)).
        -- apply IH in Hrun as (-> & -> & ->).
           rewrite spindel_omap_fetched_cons, Hfetch. cbn. by rewrite <- app_assoc.
        -- by apply IH in Hrun.
Qed.

Lemma spindel_recordUnmatched_arrays L outbound ks : ∀ response,
  spindel.Citing (spindel.recordUnmatched L outbound ks response) = spindel.Citing response
  ∧ spindel.Cited (spindel.recordUnmatched L outbound ks response)
    = spindel.Cited response.
Proof.
  induction ks as [|k ks IH]; intros response; [done|]. cbn [spindel.recordUnmatched].
  destruct (bool_decide (k ∈ outbound)).
  - by destruct (IH (spindel.set_Unmatched_Cited
                       (spindel.Unmatched_Cited (spindel.Unmatched response)
                        ++ [spindel.unmatchedBlob L k]) response)) as [-> ->].
  - by destruct (IH (spindel.set_Unmatched_Citing
                       (spindel.Unmatched_Citing (spindel.Unmatched response)
                        ++ [spindel.unmatchedBlob L k]) response)) as [-> ->].
Qed.

(** A request the spindel handler computes an answer for: the response
    that goes to the encoder, in terms of the rows of the one IN
    statement. *)
Lemma spindel_computed_run L s clk r c st :
  spindel.serve L s clk r c = (Ok tt, st) →
  ∃ doi citing cited served,
    let outbound := ckit.collectOutbound citing in
    let inbound := ckit.collectInbound cited in
    let ids :=
      in_rows_of (table (spindel.IdentifierDatabase s))
        (spindel.Slice_order L (outbound ∪ inbound)) in
    let ks :=
      spindel.range_order L ((outbound ∪ inbound) ∖ list_to_set (Value <$> ids)) in
    GetContext (spindel.IdentifierDatabase s) (SelectVWhereK (req_id r)) = inr doi
    ∧ spindel.edges s doi = inr (citing, cited)
    ∧ spindel_last_marshalled st = Some served
    ∧ spindel.Citing served = omap (spindel_fetched s) (citing_rows outbound ids)
    ∧ spindel.Cited served = omap (spindel_fetched s) (cited_rows outbound inbound ids)
    ∧ spindel.Unmatched_Cited (spindel.Unmatched served)
      = map (spindel.unmatchedBlob L) (List.filter (λ k, bool_decide (k ∈ outbound)) ks)
    ∧ spindel.Unmatched_Citing (spindel.Unmatched served)
      = map (spindel.unmatchedBlob L)
          (List.filter (λ k, negb (bool_decide (k ∈ outbound))) ks)
    ∧ spindel.CitingCount (spindel.Extra served) = len (spindel.Citing served)
    ∧ spindel.CitedCount (spindel.Extra served) = len (spindel.Cited served)
    ∧ spindel.UnmatchedCitingCount (spindel.Extra served)
      = len (spindel.Unmatched_Citing (spindel.Unmatched served))
    ∧ spindel.UnmatchedCitedCount (spindel.Extra served)
      = len (spindel.Unmatched_Cited (spindel.Unmatched served)).
Proof.
  intros Hrun. unfold spindel.serve, spindel.handleLocalIdentifier in Hrun.
  apply bind_Ok in Hrun as ([] & st0 & _ & Hrun).
  apply bind_Ok in Hrun as (response & st1 & Hasm & Hsend).
  unfold spindel.assemble in Hasm. cbn [spindel.new_Response spindel.ID] in Hasm.
  destruct (GetContext _ _) as [err|doi] eqn:Hdoi;
    [by apply then_return_not_Ok in Hasm|].
  cbn [spindel.set_DOI spindel.DOI] in Hasm.
  destruct (spindel.edges s doi) as [err|[citing cited]] eqn:Hedges;
    [by apply then_return_not_Ok in Hasm|].
  cbv zeta in Hasm.
  fold (ckit.collectOutbound citing) (ckit.collectInbound cited) in Hasm.
  set (outbound := ckit.collectOutbound citing) in *.
  set (inbound := ckit.collectInbound cited) in *.
  destruct (bool_decide (outbound ∪ inbound = ∅));
    [by apply then_return_not_Ok in Hasm|].
  apply bind_Ok in Hasm as (res & st2 & Hmap & Hasm).
  destruct res as [err|ids]; [by apply then_return_not_Ok in Hasm|].
  assert (Hids : ids = in_rows_of (table (spindel.IdentifierDatabase s))
                         (spindel.Slice_order L (outbound ∪ inbound))).
  { unfold spindel.mapToLocal in Hmap.
    apply bind_Ok in Hmap as ([] & ? & _ & Hmap).
    destruct (spindel.sqlx_In L _); [discriminate|].
    apply bind_Ok in Hmap as ([] & ? & _ & Hmap).
    unfold SelectContext in Hmap. destruct (fault _ _); [discriminate|].
    by injection Hmap as <- _. }
  rewrite foldl_snoc_Value in Hasm. cbn [app] in Hasm.
  apply bind_Ok in Hasm as (r6 & st3 & H6 & Hasm).
  apply spindel_hydrate_arrays in H6 as (HC & HD & HU).
  rewrite (proj1 (spindel_recordUnmatched_arrays _ _ _ _)) in HC.
  rewrite (proj2 (spindel_recordUnmatched_arrays _ _ _ _)) in HD.
  cbn in HC, HD.
  destruct (spindel_unmatched_classification L outbound
              (spindel.range_order L
                 ((outbound ∪ inbound) ∖ list_to_set (Value <$> ids)))
              (spindel.set_DOI doi (spindel.new_Response (req_id r)))) as [HUD HUC].
  cbn zeta in HUD, HUC. cbn [spindel.set_DOI spindel.new_Response spindel.Unmatched
                             spindel.Unmatched_Cited spindel.Unmatched_Citing app]
    in HUD, HUC.
  rewrite <- HU in HUD, HUC. rewrite Hids in HC, HD, HUD, HUC.
  apply bind_Ok in Hasm as ([] & st4 & _ & Hasm). injection Hasm as <- <-.
  unfold spindel.send in Hsend.
  destruct (spindel.CacheEnabled s && _).
  - apply bind_Ok in Hsend as ([] & st5 & Hemit & Hsend). injection Hemit as <-.
    destruct (spindel.json_Marshal L _) as [?|b];
      [by apply then_return_not_Ok in Hsend|].
    apply bind_Ok in Hsend as ([] & st6 & Hins & Hsend). injection Hins as <-.
    injection Hsend as <-.
    eexists doi, citing, cited, _. cbn zeta. split; [done|]. split; [done|].
    split; [unfold spindel_last_marshalled; cbn; by rewrite last_snoc|].
    cbn. repeat split; done.
  - apply bind_Ok in Hsend as ([] & st5 & Hemit & Hsend). injection Hemit as <-.
    destruct (spindel.json_Marshal L _) as [?|b];
      [by apply then_return_not_Ok in Hsend|].
    injection Hsend as <-.
    eexists doi, citing, cited, _. cbn zeta. split; [done|]. split; [done|].
    split; [unfold spindel_last_marshalled; cbn; by rewrite last_snoc|].
    cbn. repeat split; done.
Qed.

Lemma List_filter_filter_mem (p : string → bool) (ds : gset string) (xs : list string)
    (rows : list Map) :
  xs ≡ₚ elements ds →
  (∀ d, p d = true → d ∈ ds) →
  List.filter (λ row, p (Value row)) (in_rows_of rows xs)
  = List.filter (λ row, p (Value row)) rows.
Proof.
  intros Hxs Hp. unfold in_rows_of. apply List_filter_filter_sub.
  intros row Hrow. cbn. apply bool_decide_eq_true.
  rewrite Hxs, elem_of_elements. by apply Hp.
Qed.

(** X27: in an answer of the spindel handler that was computed,
    [citing] holds the blobs of the rows of the identifier table whose
    DOI is outbound and [cited] those of the rows whose DOI is inbound
    and not outbound, in the order of the table, and the two counts are
    the lengths of the two arrays. *)
Theorem spindel_matched_arrays (L : spindel.Libs) (s : spindel.Server)
    (clk : spindel.Clock) (r : Request) (c : gmap string spindel.item)
    (st : spindel.State) :
  spindel.serve L s clk r c = (Ok tt, st) →
  ∃ doi citing cited served,
    let outbound := ckit.collectOutbound citing in
    let inbound := ckit.collectInbound cited in
    GetContext (spindel.IdentifierDatabase s) (SelectVWhereK (req_id r)) = inr doi
    ∧ spindel.edges s doi = inr (citing, cited)
    ∧ spindel_last_marshalled st = Some served
    ∧ spindel.Citing served = spindel_blobs_where s (λ d, bool_decide (d ∈ outbound))
    ∧ spindel.Cited served
      = spindel_blobs_where s (λ d, negb (bool_decide (d ∈ outbound))
                                    && bool_decide (d ∈ inbound))
    ∧ spindel.CitingCount (spindel.Extra served) = len (spindel.Citing served)
    ∧ spindel.CitedCount (spindel.Extra served) = len (spindel.Cited served).
Proof.
  intros Hrun.
  destruct (spindel_computed_run _ _ _ _ _ _ Hrun)
    as (doi & citing & cited & served & Hdoi & Hedges & Hlast & HC & HD & _ & _
        & Hn1 & Hn2 & _).
  exists doi, citing, cited, served. cbn zeta.
  set (outbound := ckit.collectOutbound citing) in *.
  set (inbound := ckit.collectInbound cited) in *.
  pose proof (iter_perm (spindel.Slice_order L) (outbound ∪ inbound)) as Hperm.
  repeat (split; [done|]). split; [|split; [|done]].
  - rewrite HC. unfold spindel_blobs_where, citing_rows.
    f_equal. set (p := λ d : string, bool_decide (d ∈ outbound)).
    change (List.filter (λ row, p (Value row))
              (in_rows_of (table (spindel.IdentifierDatabase s))
                 (spindel.Slice_order L (outbound ∪ inbound)))
            = List.filter (λ row, p (Value row)) (table (spindel.IdentifierDatabase s))).
    apply (List_filter_filter_mem p (outbound ∪ inbound)); [exact Hperm|].
    intros d Hd%bool_decide_eq_true. apply elem_of_union. by left.
  - rewrite HD. unfold spindel_blobs_where, cited_rows.
    f_equal.
    set (p := λ d : string,
                negb (bool_decide (d ∈ outbound)) && bool_decide (d ∈ inbound)).
    change (List.filter (λ row, p (Value row))
              (in_rows_of (table (spindel.IdentifierDatabase s))
                 (spindel.Slice_order L (outbound ∪ inbound)))
            = List.filter (λ row, p (Value row)) (table (spindel.IdentifierDatabase s))).
    apply (List_filter_filter_mem p (outbound ∪ inbound)); [exact Hperm|].
    intros d [_ Hd%bool_decide_eq_true]%andb_prop. apply elem_of_union. by right.
Qed.

Lemma spindel_matched_arrays_witness :
  let run :=
    spindel.serve spindel_sample_libs spindel_happy_server spindel_quick
      (request "L1" "") ∅ in
  ∃ doi citing cited served,
    let outbound := ckit.collectOutbound citing in
    let inbound := ckit.collectInbound cited in
    GetContext (spindel.IdentifierDatabase spindel_happy_server) (SelectVWhereK "L1")
    = inr doi
    ∧ spindel.edges spindel_happy_server doi = inr (citing, cited)
    ∧ spindel_last_marshalled run.2 = Some served
    ∧ spindel.Citing served
      = spindel_blobs_where spindel_happy_server (λ d, bool_decide (d ∈ outbound))
    ∧ spindel.Cited served
      = spindel_blobs_where spindel_happy_server
          (λ d, negb (bool_decide (d ∈ outbound)) && bool_decide (d ∈ inbound))
    ∧ spindel.CitingCount (spindel.Extra served) = len (spindel.Citing served)
    ∧ spindel.CitedCount (spindel.Extra served) = len (spindel.Cited served).
Proof.
  apply (spindel_matched_arrays spindel_sample_libs spindel_happy_server spindel_quick
           (request "L1" "") ∅).
  vm_compute. reflexivity.
Defined.

Lemma matched_set_rows (rows : list Map) (ds : gset string) (xs : list string) :
  xs ≡ₚ elements ds →
  ds ∖ list_to_set (Value <$> in_rows_of rows xs) = ds ∖ list_to_set (Value <$> rows).
Proof.
  intros Hxs. apply set_eq. intros x. rewrite !elem_of_difference.
  rewrite !elem_of_list_to_set, !list_elem_of_fmap.
  split; intros [Hx Hno]; (split; [done|]); intros (row & -> & Hrow); apply Hno;
    exists row; (split; [done|]).
  - unfold in_rows_of. apply list_elem_of_In, filter_In.
    split; [by apply list_elem_of_In|]. cbn. apply bool_decide_eq_true.
    by rewrite Hxs, elem_of_elements.
  - unfold in_rows_of in Hrow.
    apply list_elem_of_In, filter_In in Hrow as [Hrow _]. by apply list_elem_of_In.
Qed.

(** X28: in an answer of the spindel handler that was computed, the
    two unmatched arrays are the other way round than in package ckit:
    [unmatched.cited] holds one synthetic blob for each outbound DOI
    without a row in the identifier table, and [unmatched.citing] one
    for each DOI that is inbound, not outbound, and without a row. The
    two counts are the lengths of the two arrays. *)
Theorem spindel_unmatched_arrays (L : spindel.Libs) (s : spindel.Server)
    (clk : spindel.Clock) (r : Request) (c : gmap string spindel.item)
    (st : spindel.State) :
  spindel.serve L s clk r c = (Ok tt, st) →
  ∃ doi citing cited served,
    let outbound := ckit.collectOutbound citing in
    let inbound := ckit.collectInbound cited in
    GetContext (spindel.IdentifierDatabase s) (SelectVWhereK (req_id r)) = inr doi
    ∧ spindel.edges s doi = inr (citing, cited)
    ∧ spindel_last_marshalled st = Some served
    ∧ spindel.Unmatched_Cited (spindel.Unmatched served)
      ≡ₚ spindel.unmatchedBlob L <$> elements (outbound ∖ spindel_local_dois s)
    ∧ spindel.Unmatched_Citing (spindel.Unmatched served)
      ≡ₚ spindel.unmatchedBlob L
           <$> elements ((inbound ∖ outbound) ∖ spindel_local_dois s)
    ∧ spindel.UnmatchedCitingCount (spindel.Extra served)
      = len (spindel.Unmatched_Citing (spindel.Unmatched served))
    ∧ spindel.UnmatchedCitedCount (spindel.Extra served)
      = len (spindel.Unmatched_Cited (spindel.Unmatched served)).
Proof.
  intros Hrun.
  destruct (spindel_computed_run _ _ _ _ _ _ Hrun)
    as (doi & citing & cited & served & Hdoi & Hedges & Hlast & _ & _ & HUD & HUC
        & _ & _ & Hn1 & Hn2).
  exists doi, citing, cited, served. cbn zeta.
  set (outbound := ckit.collectOutbound citing) in *.
  set (inbound := ckit.collectInbound cited) in *.
  pose proof (iter_perm (spindel.Slice_order L) (outbound ∪ inbound)) as Hperm.
  rewrite (matched_set_rows _ _ _ Hperm) in HUD, HUC.
  fold (spindel_local_dois s) in HUD, HUC.
  pose proof (iter_perm (spindel.range_order L)
                ((outbound ∪ inbound) ∖ spindel_local_dois s)) as Hks.
  repeat (split; [done|]). split; [|split; [|done]].
  - rewrite HUD.
    change (map (spindel.unmatchedBlob L)) with (fmap (M:=list) (spindel.unmatchedBlob L)).
    apply fmap_Permutation. apply (filter_elements _ _ _ _ Hks). intros x.
    rewrite bool_decide_eq_true, !elem_of_difference, elem_of_union. tauto.
  - rewrite HUC.
    change (map (spindel.unmatchedBlob L)) with (fmap (M:=list) (spindel.unmatchedBlob L)).
    apply fmap_Permutation. apply (filter_elements _ _ _ _ Hks). intros x.
    rewrite negb_true_iff, bool_decide_eq_false, !elem_of_difference, elem_of_union.
    tauto.
Qed.

Lemma spindel_unmatched_arrays_witness :
  let run :=
    spindel.serve spindel_sample_libs spindel_partial_server spindel_quick
      (request "L1" "") ∅ in
  ∃ doi citing cited served,
    let outbound := ckit.collectOutbound citing in
    let inbound := ckit.collectInbound cited in
    GetContext (spindel.IdentifierDatabase spindel_partial_server) (SelectVWhereK "L1")
    = inr doi
    ∧ spindel.edges spindel_partial_server doi = inr (citing, cited)
    ∧ spindel_last_marshalled run.2 = Some served
    ∧ spindel.Unmatched_Cited (spindel.Unmatched served)
      ≡ₚ spindel.unmatchedBlob spindel_sample_libs
           <$> elements (outbound ∖ spindel_local_dois spindel_partial_server)
    ∧ spindel.Unmatched_Citing (spindel.Unmatched served)
      ≡ₚ spindel.unmatchedBlob spindel_sample_libs
           <$> elements ((inbound ∖ outbound) ∖ spindel_local_dois spindel_partial_server)
    ∧ spindel.UnmatchedCitingCount (spindel.Extra served)
      = len (spindel.Unmatched_Citing (spindel.Unmatched served))
    ∧ spindel.UnmatchedCitedCount (spindel.Extra served)
      = len (spindel.Unmatched_Cited (spindel.Unmatched served)).
Proof.
  apply (spindel_unmatched_arrays spindel_sample_libs spindel_partial_server
           spindel_quick (request "L1" "") ∅).
  vm_compute. reflexivity.
Defined.

(** ** The rewriting of the took value *)

Lemma strip_prefix_app (p rest : bytes) : ckit.strip_prefix p (p ++ rest) = Some rest.
Proof.
  induction p as [|a p IH]; [done|]. cbn. by rewrite Ascii.eqb_refl.
Qed.

Lemma num_run_app (num post : bytes) :
  forallb ckit.is_num num = true →
  run_ends post →
  ckit.num_run (num ++ post) = length num.
Proof.
  intros Hall Hend. induction num as [|c num IH]; cbn in *.
  - destruct post as [|c post]; [done|]. cbn in *. by rewrite Hend.
  - apply andb_prop in Hall as [-> Hall]. by rewrite IH.
Qed.

Lemma match_len_at (num post : bytes) :
  num ≠ [] →
  forallb ckit.is_num num = true →
  run_ends post →
  ckit.match_len (ckit.took_key ++ num ++ post)
  = Some (length ckit.took_key + length num)%nat.
Proof.
  intros Hne Hall Hend. unfold ckit.match_len.
  rewrite strip_prefix_app, num_run_app by done.
  destruct num; [done|]. done.
Qed.

Lemma replace_all_pass (new pre rest : bytes) :
  (∀ i, (i < length pre)%nat → ckit.match_len (drop i (pre ++ rest)) = None) →
  ckit.replace_all new O (pre ++ rest) = pre ++ ckit.replace_all new O rest.
Proof.
  induction pre as [|a pre IH]; intros Hno; [done|].
  cbn [app ckit.replace_all].
  pose proof (Hno O ltac:(cbn; lia)) as H0. rewrite drop_0 in H0. cbn [app] in H0.
  rewrite H0. f_equal. apply IH. intros i Hi.
  apply (Hno (S i)). cbn. lia.
Qed.

(** X29: the rewriting of the took value goes through the cached text
    from the left. Up to the first place where the pattern matches the
    text stays as it is; there the key and the longest run of digits and
    dots that follows give way to the new text, and the rewriting goes
    on behind that run. A text with one match only has just that match
    replaced. *)
Theorem took_rewrite_leftmost_longest (new pre num post : bytes) :
  (∀ i, (i < length pre)%nat
        → ckit.match_len (drop i (pre ++ ckit.took_key ++ num ++ post)) = None) →
  num ≠ [] →
  forallb ckit.is_num num = true →
  run_ends post →
  ckit.RegexpString_took new (pre ++ ckit.took_key ++ num ++ post)
  = pre ++ new ++ ckit.RegexpString_took new post
  ∧ (count_matches post = O →
     ckit.RegexpString_took new (pre ++ ckit.took_key ++ num ++ post)
     = pre ++ new ++ post).
Proof.
  intros Hno Hne Hall Hend.
  assert (Hmain : ckit.RegexpString_took new (pre ++ ckit.took_key ++ num ++ post)
                  = pre ++ new ++ ckit.RegexpString_took new post).
  { unfold ckit.RegexpString_took. rewrite replace_all_pass by done. f_equal.
    pose proof (match_len_at num post Hne Hall Hend) as Hm.
    destruct (ckit.took_key ++ num ++ post) as [|c data] eqn:Hdata; [discriminate|].
    cbn [ckit.replace_all]. rewrite Hm. f_equal.
    rewrite replace_all_skip. f_equal.
    change data with (drop 1 (c :: data)). rewrite <- Hdata, drop_drop.
    rewrite app_assoc. apply drop_app_length'. rewrite length_app.
    change (length ckit.took_key) with 7%nat. lia. }
  split; [exact Hmain|]. intros Hpost. rewrite Hmain. do 2 f_equal.
  by apply replace_all_none.
Qed.

Lemma took_rewrite_leftmost_longest_witness :
  ckit.RegexpString_took (ckit.took_key ++ bytes_of "0.001000")
    (bytes_of "{" ++ ckit.took_key ++ bytes_of "1.5" ++ bytes_of ",}")
  = bytes_of "{" ++ (ckit.took_key ++ bytes_of "0.001000")
    ++ ckit.RegexpString_took (ckit.took_key ++ bytes_of "0.001000") (bytes_of ",}")
  ∧ (count_matches (bytes_of ",}") = O →
     ckit.RegexpString_took (ckit.took_key ++ bytes_of "0.001000")
       (bytes_of "{" ++ ckit.took_key ++ bytes_of "1.5" ++ bytes_of ",}")
     = bytes_of "{" ++ (ckit.took_key ++ bytes_of "0.001000") ++ bytes_of ",}").
Proof.
  apply took_rewrite_leftmost_longest.
  - intros i Hi. destruct i; [vm_compute; reflexivity|cbn in Hi; lia].
  - discriminate.
  - reflexivity.
  - reflexivity.
Defined.
